(** * make_website.py: the SAL topics website generator

    A shallow embedding of [make_website.py] and the properties of its
    three stages: the bucket lister ([get_bucket_directories]), the site
    builder ([make_html], [write_html_index_file]) and the optional sync
    at the end of [main].

    Python [bytes] and [str] values are both represented by [string]
    (a list of 8-bit characters).  Every [str] the lister handles comes
    out of [str(result)], the [repr] of a [bytes] object, which is made of
    printable ASCII characters only. *)

From Stdlib Require Import List Bool Arith Lia String Ascii NArith ZArith.
Import ListNotations.
Open Scope string_scope.
Open Scope list_scope.
Open Scope nat_scope.

Set Implicit Arguments.

Infix "+++" := String.append (right associativity, at level 60).

(** ** Exceptions and results *)

Inductive exn : Type :=
| IndexError
| FileNotFoundError
| FileExistsError
| NotADirectoryError
| IsADirectoryError
| UnicodeDecodeError.

Inductive result (A : Type) : Type :=
| Ok (a : A)
| Raise (e : exn).

Arguments Ok {A} a.
Arguments Raise {A} e.

Definition rbind {A B} (r : result A) (k : A -> result B) : result B :=
  match r with
  | Ok a => k a
  | Raise e => Raise e
  end.

(** ** Python sequence and string operations used by the script *)

Module Py.

(** [l[i]] for a non-negative index. *)
Definition index {A} (l : list A) (i : nat) : result A :=
  match nth_error l i with
  | Some a => Ok a
  | None => Raise IndexError
  end.

(** [l[-1]]. *)
Fixpoint last_item {A} (l : list A) : result A :=
  match l with
  | [] => Raise IndexError
  | [a] => Ok a
  | _ :: l' => last_item l'
  end.

(** [s.split(sep)] for a one-character separator: every occurrence of
    the separator cuts, empty pieces are kept, the result is never
    empty. *)
Fixpoint split (sep : ascii) (s : string) : list string :=
  match s with
  | EmptyString => [EmptyString]
  | String c s' =>
      if Ascii.eqb c sep then EmptyString :: split sep s'
      else match split sep s' with
           | [] => [String c EmptyString]
           | piece :: pieces => String c piece :: pieces
           end
  end.

(** Characters for which [str.isspace] holds, among code points below
    256. *)
Definition isspace (c : ascii) : bool :=
  let n := nat_of_ascii c in
  (((9 <=? n) && (n <=? 13)) || ((28 <=? n) && (n <=? 32))
   || (n =? 133) || (n =? 160))%nat.

(** [s.split()]: the maximal runs of non-whitespace characters.
    [cur] is the run being read, if any. *)
Fixpoint split_ws_aux (cur : option string) (s : string) : list string :=
  match s with
  | EmptyString =>
      match cur with
      | Some w => [w]
      | None => []
      end
  | String c s' =>
      if isspace c then
        match cur with
        | Some w => w :: split_ws_aux None s'
        | None => split_ws_aux None s'
        end
      else
        match cur with
        | Some w => split_ws_aux (Some (w +++ String c EmptyString)) s'
        | None => split_ws_aux (Some (String c EmptyString)) s'
        end
  end.

Definition split_ws (s : string) : list string := split_ws_aux None s.

(** [s.lstrip(c)], [s.rstrip(c)] and [s.strip(c)] for a one-character
    set. *)
Fixpoint lstrip (c : ascii) (s : string) : string :=
  match s with
  | EmptyString => EmptyString
  | String d s' => if Ascii.eqb d c then lstrip c s' else s
  end.

Fixpoint rstrip (c : ascii) (s : string) : string :=
  match s with
  | EmptyString => EmptyString
  | String d s' =>
      match rstrip c s' with
      | EmptyString => if Ascii.eqb d c then EmptyString else String d EmptyString
      | r => String d r
      end
  end.

Definition strip (c : ascii) (s : string) : string := rstrip c (lstrip c s).

(** [e in v] on strings: [e] occurs in [v] as a contiguous substring. *)
Fixpoint contains (e v : string) : bool :=
  String.prefix e v
  || match v with
     | EmptyString => false
     | String _ v' => contains e v'
     end.

Definition hex_digit (n : nat) : ascii :=
  match n with
  | 0 => "0" | 1 => "1" | 2 => "2" | 3 => "3" | 4 => "4"
  | 5 => "5" | 6 => "6" | 7 => "7" | 8 => "8" | 9 => "9"
  | 10 => "a" | 11 => "b" | 12 => "c" | 13 => "d" | 14 => "e"
  | _ => "f"
  end%char.

Fixpoint mem_char (c : ascii) (s : string) : bool :=
  match s with
  | EmptyString => false
  | String d s' => Ascii.eqb d c || mem_char c s'
  end.

(** One byte of a [bytes] object as [repr] shows it between the quotes
    [q]. *)
Definition repr_byte (q : ascii) (c : ascii) : string :=
  let n := nat_of_ascii c in
  if Ascii.eqb c q || Ascii.eqb c "\"%char then String "\"%char (String c EmptyString)
  else if (n =? 9)%nat then "\t"
  else if (n =? 10)%nat then "\n"
  else if (n =? 13)%nat then "\r"
  else if ((n <? 32) || (127 <=? n))%nat then
    String "\"%char (String "x"%char
      (String (hex_digit (n / 16)) (String (hex_digit (n mod 16)) EmptyString)))
  else String c EmptyString.

Fixpoint repr_body (q : ascii) (s : string) : string :=
  match s with
  | EmptyString => EmptyString
  | String c s' => repr_byte q c +++ repr_body q s'
  end.

(** [str(b)] for a [bytes] object [b]: the letter b, a quote, the escaped
    bytes, the quote.  The quote is the apostrophe unless the bytes hold
    an apostrophe and no double quote. *)
Definition bytes_quote (s : string) : ascii :=
  if mem_char "'"%char s && negb (mem_char (ascii_of_nat 34) s)
  then ascii_of_nat 34 else "'"%char.

Definition bytes_repr (s : string) : string :=
  let q := bytes_quote s in
  String "b"%char (String q (repr_body q s +++ String q EmptyString)).

Definition is_upper (c : ascii) : bool :=
  let n := nat_of_ascii c in ((65 <=? n) && (n <=? 90))%nat.
Definition is_lower (c : ascii) : bool :=
  let n := nat_of_ascii c in ((97 <=? n) && (n <=? 122))%nat.
Definition to_upper (c : ascii) : ascii :=
  if is_lower c then ascii_of_nat (nat_of_ascii c - 32) else c.
Definition to_lower (c : ascii) : ascii :=
  if is_upper c then ascii_of_nat (nat_of_ascii c + 32) else c.

Fixpoint lower (s : string) : string :=
  match s with
  | EmptyString => EmptyString
  | String c s' => String (to_lower c) (lower s')
  end.

(** [s.capitalize()] on ASCII text: the first character in upper case,
    all the others in lower case. *)
Definition capitalize (s : string) : string :=
  match s with
  | EmptyString => EmptyString
  | String c s' => String (to_upper c) (lower s')
  end.

End Py.

(** ** Python dictionaries

    A [dict] keeps its keys in insertion order and the pages list the keys
    in that order, so a dictionary is an association list: a new key goes
    to the end, an assignment to a key that is present keeps its place. *)

Module Dict.

Section Ops.
Variable V : Type.

Definition t := list (string * V).

Fixpoint get (k : string) (d : t) : option V :=
  match d with
  | [] => None
  | (k', v) :: d' => if String.eqb k' k then Some v else get k d'
  end.

(** [k in d] *)
Definition mem (k : string) (d : t) : bool :=
  match get k d with
  | Some _ => true
  | None => false
  end.

(** [d[k] = v] *)
Fixpoint set (k : string) (v : V) (d : t) : t :=
  match d with
  | [] => [(k, v)]
  | (k', v') :: d' =>
      if String.eqb k' k then (k, v) :: d' else (k', v') :: set k v d'
  end.

(** [d.keys()] *)
Definition keys (d : t) : list string := map fst d.

End Ops.

End Dict.

(** The Artifact Map: top-level key, then sub-key, then the leaf names in
    the order they were appended. *)
Definition leaf_list := list string.
Definition sub_map := Dict.t leaf_list.
Definition artifact_map := Dict.t sub_map.

(** ** Constants of the script *)

Definition dquote : string := String (ascii_of_nat 34) EmptyString.
Definition newline : ascii := ascii_of_nat 10.
Definition nl : string := String newline EmptyString.

Definition SAL_TOPIC_BUCKET : string := "sal-topic-registry".
Definition BUCKET_WEBSITE : string :=
  "http://" +++ SAL_TOPIC_BUCKET +++ ".s3-website-us-west-2.amazonaws.com".
Definition LSST_FONTS : string :=
  "http://fonts.googleapis.com/css?family=Raleway:subset=latin".
Definition OUTPUT_LOCATION : string := "website".
Definition INDEX_FILE : string := "index.html".
Definition LS_EXCLUDES : list string := [INDEX_FILE; "css"; "images"; ".gitignore"].

(** [os.sep] on a POSIX system *)
Definition os_sep : ascii := "/"%char.

(** ** The outside world

    What the script prints and what it asks of the file system, in the
    order it does so. *)

Inductive event : Type :=
| EvRun (argv : list string)
| EvPrintItems (items : list string)
| EvPrintArtifacts (artifacts : artifact_map)
| EvPrintText (text : list N)
| EvExists (path : string) (answer : bool)
| EvMakedirs (path : string)
| EvWrite (path : string) (lines : list string).

(** The file system is an interface: [os.path.exists], [os.makedirs] and
    opening a file for writing followed by [writelines].  A call that
    raises may still have changed the state. *)
Class FileSystem : Type := {
  fs_state : Type;
  fs_exists : fs_state -> string -> bool;
  fs_makedirs : fs_state -> string -> result unit * fs_state;
  fs_write : fs_state -> string -> list string -> result unit * fs_state
}.

(** What [subprocess.run(..., capture_output=True)] returns: the exit
    status (negative when a signal ended the command) and the bytes of
    the two output streams. *)
Record CompletedProcess : Type := {
  returncode : Z;
  stdout : string;
  stderr : string
}.

(** The parsed command line, as [create_parser().parse_args()] gives it:
    the count of [-v], the [--sync] switch and the [--base] option. *)
Record Namespace : Type := {
  verbose : nat;
  sync : bool;
  base : option string
}.

(** The fill-in content of a page: the dictionary passed to
    [write_html_index_file] has a [title], may have a [heading], and may
    have a [link] key whose value is ignored. *)
Record page_content : Type := {
  title : string;
  heading : option string;
  link : bool
}.

Section Program.

Context {FSI : FileSystem}.

Record World : Type := {
  fs : fs_state;
  trace : list event
}.

(** Computations: a state of the world goes in, a value or an exception
    and the state reached come out. *)
Definition M (A : Type) : Type := World -> result A * World.

Definition ret {A} (a : A) : M A := fun w => (Ok a, w).

Definition bind {A B} (m : M A) (k : A -> M B) : M B :=
  fun w =>
    match m w with
    | (Ok a, w') => k a w'
    | (Raise e, w') => (Raise e, w')
    end.

(** A computation that leaves the world as it is. *)
Definition lift {A} (r : result A) : M A := fun w => (r, w).

(** One more event in the trace. *)
Definition emit (e : event) : M unit :=
  fun w => (Ok tt, {| fs := fs w; trace := trace w ++ [e] |}).

(** [if b: m] *)
Definition when (b : bool) (m : M unit) : M unit := if b then m else ret tt.

(** [for x in xs: body x] *)
Fixpoint for_each {A} (xs : list A) (body : A -> M unit) : M unit :=
  match xs with
  | [] => ret tt
  | x :: xs' => bind (body x) (fun _ => for_each xs' body)
  end.

(** [for x in xs: acc = body acc x], for a loop that updates one local
    variable. *)
Fixpoint for_fold {A S} (xs : list A) (body : S -> A -> M S) (acc : S) : M S :=
  match xs with
  | [] => ret acc
  | x :: xs' => bind (body acc x) (fun acc' => for_fold xs' body acc')
  end.

End Program.

Notation "x <- m ;; k" := (bind m (fun x => k))
  (at level 61, m at next level, right associativity).
Notation "m ;;; k" := (bind m (fun _ => k))
  (at level 61, right associativity).

(** ** The bucket lister *)

(** [str(result).split()[-1].strip('\'')], for one line [result] of the
    listing. *)
Definition values_of (line : string) : result string :=
  rbind (Py.last_item (Py.split_ws (Py.bytes_repr line)))
        (fun token => Ok (Py.strip "'"%char token)).

(** The loop over [LS_EXCLUDES] that sets [exclude_match]. *)
Definition exclude_match (values : string) : bool :=
  fold_left
    (fun matched exclude => if Py.contains exclude values then true else matched)
    LS_EXCLUDES false.

(** The line is skipped by [continue]. *)
Definition skipped (values : string) : bool :=
  exclude_match values || String.eqb values "b".

(** [d[k]] on a [defaultdict] whose factory gives [default]. *)
Definition get_or {V} (k : string) (d : Dict.t V) (default : V) : V :=
  match Dict.get k d with
  | Some v => v
  | None => default
  end.

(** The two statements that record one path:
[[
  if items[0] not in artifacts:
      artifacts[items[0]] = collections.defaultdict(list)
  artifacts[items[0]][items[1]].append(items[2])
]]
    The sub-map and the leaf list are looked up (and made, when missing)
    before [items[2]] is evaluated. *)
Definition record_items (artifacts : artifact_map) (items : list string)
  : result artifact_map :=
  rbind (Py.index items 0) (fun key0 =>
  let artifacts1 :=
    if Dict.mem key0 artifacts then artifacts else Dict.set key0 [] artifacts in
  rbind (Py.index items 0) (fun key =>
  let sub := get_or key artifacts1 [] in
  rbind (Py.index items 1) (fun subkey =>
  let leaves := get_or subkey sub [] in
  rbind (Py.index items 2) (fun leaf =>
  Ok (Dict.set key (Dict.set subkey (leaves ++ [leaf]) sub) artifacts1))))).

Section Lister.

Context {FSI : FileSystem}.

(** One turn of the loop over the listing lines. *)
Definition line_step (verbosity : nat) (artifacts : artifact_map) (line : string)
  : M artifact_map :=
  values <- lift (values_of line);;
  if skipped values then ret artifacts
  else
    let items := Py.split os_sep values in
    when (3 <? verbosity) (emit (EvPrintItems items));;;
    artifacts' <- lift (record_items artifacts items);;
    when (2 <? verbosity) (emit (EvPrintArtifacts artifacts'));;;
    ret artifacts'.

(** [subprocess.run(cmd.split(), capture_output=True)]: the command is
    recorded; [answer] is what the external command gives back. *)
Definition subprocess_run (cmd : string) (answer : CompletedProcess)
  : M CompletedProcess :=
  emit (EvRun (Py.split_ws cmd));;; ret answer.

(** [get_bucket_directories(verbose)]; [ls] is what the recursive listing
    of the bucket gives back.  The map is local to the function, so what
    a turn of the loop that raises had already put in it is lost with
    it. *)
Definition get_bucket_directories (verbosity : nat) (ls : CompletedProcess)
  : M artifact_map :=
  let cmd := "aws s3 ls s3://" +++ SAL_TOPIC_BUCKET +++ " --recursive" in
  cmp_proc <- subprocess_run cmd ls;;
  let results := Py.split newline (stdout cmp_proc) in
  artifacts <- for_fold results (line_step verbosity) [];;
  when (1 <? verbosity) (emit (EvPrintArtifacts artifacts));;;
  ret artifacts.

End Lister.

(** ** The site builder *)

(** [s.endswith('/')] *)
Definition ends_with_sep (s : string) : bool :=
  match Py.last_item (list_ascii_of_string s) with
  | Ok c => Ascii.eqb c os_sep
  | Raise _ => false
  end.

(** [os.path.join(a, b)] of [posixpath]. *)
Definition path_join (a b : string) : string :=
  if String.prefix "/" b then b
  else if String.eqb a "" || ends_with_sep a then a +++ b
  else a +++ "/" +++ b.

(** The display text of a link: [link.split('.')[0]], and with the
    [link] key present in the content, [text.split('_')[-1]] of that. *)
Definition link_text (truncate : bool) (link : string) : result string :=
  rbind (Py.index (Py.split "."%char link) 0) (fun text =>
  if truncate then Py.last_item (Py.split "_"%char text) else Ok text).

(** [f'<a href={link}>{text}</a><br />\n'], the backslash-n being a
    line feed. *)
Definition anchor_line (link text : string) : string :=
  "<a href=" +++ link +++ ">" +++ text +++ "</a><br />" +++ nl.

(** The loop over [links] that appends one anchor per link. *)
Fixpoint link_lines (truncate : bool) (links : list string) : result (list string) :=
  match links with
  | [] => Ok []
  | link :: links' =>
      rbind (link_text truncate link) (fun text =>
      rbind (link_lines truncate links') (fun rest =>
      Ok (anchor_line link text :: rest)))
  end.

(** [opts.base] inside an f-string. *)
Definition base_text (opts : Namespace) : string :=
  match base opts with
  | Some b => b
  | None => "None"
  end.

(** The start of a stylesheet link up to the end of its [href]. *)
Definition stylesheet_line (href tail : string) : string :=
  "<link rel=" +++ dquote +++ "stylesheet" +++ dquote
  +++ " type=" +++ dquote +++ "text/css" +++ dquote
  +++ " href=" +++ dquote +++ href +++ dquote +++ tail.

(** The lines of the template before the links: the head of the
    document, and the heading when the content has one. *)
Definition template_head (content : page_content) (opts : Namespace) : list string :=
  [ "<!DOCTYPE html>" +++ nl;
    "<html>" +++ nl;
    "<head>" +++ nl;
    "<title>" +++ title content +++ "</title>" +++ nl;
    stylesheet_line LSST_FONTS " />";
    stylesheet_line (base_text opts +++ "/css/default.css")
                    (" media=" +++ dquote +++ "screen" +++ dquote +++ " />");
    "</head>";
    "<body>" +++ nl ]
  ++ match heading content with
     | Some h => ["<h2>" +++ h +++ "</h2>" +++ nl]
     | None => []
     end.

(** The two lines after the links. *)
Definition template_foot : list string := ["</body>" +++ nl; "</html>" +++ nl].

(** The list [template] at the end of [write_html_index_file]. *)
Definition html_template (content : page_content) (links : list string)
           (opts : Namespace) : result (list string) :=
  rbind (link_lines (link content) links) (fun anchors =>
  Ok (template_head content opts ++ anchors ++ template_foot)).

Section Builder.

Context {FSI : FileSystem}.

(** The three calls to the file system; each is recorded in the trace,
    whether it succeeds or not. *)
Definition os_path_exists (path : string) : M bool :=
  fun w =>
    let answer := fs_exists (fs w) path in
    (Ok answer, {| fs := fs w; trace := trace w ++ [EvExists path answer] |}).

Definition os_makedirs (path : string) : M unit :=
  fun w =>
    let (r, s) := fs_makedirs (fs w) path in
    (r, {| fs := s; trace := trace w ++ [EvMakedirs path] |}).

(** [with open(path, 'w') as ofile: ofile.writelines(lines)] *)
Definition open_writelines (path : string) (lines : list string) : M unit :=
  fun w =>
    let (r, s) := fs_write (fs w) path lines in
    (r, {| fs := s; trace := trace w ++ [EvWrite path lines] |}).

(** [check_and_make_dirs(path)] *)
Definition check_and_make_dirs (path : string) : M unit :=
  present <- os_path_exists path;;
  if negb present then os_makedirs path else ret tt.

(** [write_html_index_file(path, content, links, opts)] *)
Definition write_html_index_file (path : string) (content : page_content)
           (links : list string) (opts : Namespace) : M unit :=
  template <- lift (html_template content links opts);;
  open_writelines (path_join path INDEX_FILE) template.

(** [make_html(path, key, items, opts)] *)
Definition make_html (path key : string) (items : sub_map) (opts : Namespace)
  : M unit :=
  let save_path := path_join path key in
  check_and_make_dirs save_path;;;
  write_html_index_file save_path
    {| title := "SAL Topics for " +++ Py.capitalize key;
       heading := None; link := false |}
    (Dict.keys items) opts;;;
  for_each items (fun '(kitem, vitem) =>
    let save_sub_path := path_join save_path kitem in
    check_and_make_dirs save_sub_path;;;
    write_html_index_file save_sub_path
      {| title := kitem; heading := Some kitem; link := true |}
      vitem opts).

End Builder.

(** ** The top-level function *)

(** [result.decode('utf-8')]: the code points of a well-formed UTF-8
    byte string; an ill-formed one raises. *)
Definition continuation (c : ascii) : option N :=
  let n := N_of_ascii c in
  if ((128 <=? n) && (n <=? 191))%N then Some (n - 128)%N else None.

Fixpoint decode_utf8 (s : string) : result (list N) :=
  match s with
  | EmptyString => Ok []
  | String c0 s1 =>
      let b0 := N_of_ascii c0 in
      if (b0 <? 128)%N then
        rbind (decode_utf8 s1) (fun r => Ok (b0 :: r))
      else if ((194 <=? b0) && (b0 <=? 223))%N then
        match s1 with
        | String c1 s2 =>
            match continuation c1 with
            | Some x1 =>
                rbind (decode_utf8 s2) (fun r => Ok (((b0 - 192) * 64 + x1)%N :: r))
            | None => Raise UnicodeDecodeError
            end
        | _ => Raise UnicodeDecodeError
        end
      else if ((224 <=? b0) && (b0 <=? 239))%N then
        match s1 with
        | String c1 (String c2 s3) =>
            match continuation c1, continuation c2 with
            | Some x1, Some x2 =>
                let cp := ((b0 - 224) * 4096 + x1 * 64 + x2)%N in
                if ((cp <? 2048) || ((55296 <=? cp) && (cp <=? 57343)))%N
                then Raise UnicodeDecodeError
                else rbind (decode_utf8 s3) (fun r => Ok (cp :: r))
            | _, _ => Raise UnicodeDecodeError
            end
        | _ => Raise UnicodeDecodeError
        end
      else if ((240 <=? b0) && (b0 <=? 244))%N then
        match s1 with
        | String c1 (String c2 (String c3 s4)) =>
            match continuation c1, continuation c2, continuation c3 with
            | Some x1, Some x2, Some x3 =>
                let cp := ((b0 - 240) * 262144 + x1 * 4096 + x2 * 64 + x3)%N in
                if ((cp <? 65536) || (1114111 <? cp))%N
                then Raise UnicodeDecodeError
                else rbind (decode_utf8 s4) (fun r => Ok (cp :: r))
            | _, _, _ => Raise UnicodeDecodeError
            end
        | _ => Raise UnicodeDecodeError
        end
      else Raise UnicodeDecodeError
  end.

(** [if opts.base is None: opts.base = BUCKET_WEBSITE] *)
Definition default_base (opts : Namespace) : Namespace :=
  match base opts with
  | None => {| verbose := verbose opts; sync := sync opts;
               base := Some BUCKET_WEBSITE |}
  | Some _ => opts
  end.

Section Main.

Context {FSI : FileSystem}.

(** [print(result.decode('utf-8'))] *)
Definition print_decoded (line : string) : M unit :=
  text <- lift (decode_utf8 line);;
  emit (EvPrintText text).

(** [main(opts)].  [script_dir] is what [get_local_directory()] returns,
    the absolute path of the directory that holds the script; [ls] and
    [synced] are what the two external commands give back. *)
Definition main (script_dir : string) (ls synced : CompletedProcess)
           (opts : Namespace) : M unit :=
  let opts := default_base opts in
  artifacts <- get_bucket_directories (verbose opts) ls;;
  let out_path := script_dir in
  let web_dir := path_join out_path OUTPUT_LOCATION in
  write_html_index_file web_dir
    {| title := "SAL Topics Frontpage";
       heading := Some "Version of SAL Topics"; link := false |}
    (Dict.keys artifacts) opts;;;
  for_each (Dict.keys artifacts) (fun dirkey =>
    make_html web_dir dirkey (get_or dirkey artifacts []) opts);;;
  if sync opts then
    let cmd := "aws s3 sync " +++ web_dir +++ "/ s3://" +++ SAL_TOPIC_BUCKET
               +++ " --acl public-read" in
    cmp_proc <- subprocess_run cmd synced;;
    let results := Py.split newline (stdout cmp_proc) in
    if 0 <? verbose opts then for_each results print_decoded else ret tt
  else ret tt.

End Main.

(** ** A file system to run the script on

    Directories and regular files under absolute paths, without symbolic
    links.  A path names the node reached through its components; empty
    components and [.] stay in place and [..] goes one level up. *)

Module TreeFS.

Definition node_path := list string.

Record state : Type := {
  dirs : list node_path;
  files : list (node_path * string)
}.

Definition walk (here : node_path) (component : string) : node_path :=
  if String.eqb component "" || String.eqb component "." then here
  else if String.eqb component ".." then removelast here
  else here ++ [component].

Definition resolve (path : string) : node_path :=
  fold_left walk (Py.split os_sep path) [].

Definition node_eqb (p q : node_path) : bool :=
  if list_eq_dec string_dec p q then true else false.

Definition is_dir (s : state) (p : node_path) : bool :=
  match p with
  | [] => true
  | _ => existsb (node_eqb p) (dirs s)
  end.

Definition is_file (s : state) (p : node_path) : bool :=
  existsb (fun f => node_eqb p (fst f)) (files s).

Definition exists_ (s : state) (path : string) : bool :=
  let p := resolve path in is_dir s p || is_file s p.

(** All the non-empty prefixes of a node path, shortest first. *)
Fixpoint prefixes (before : node_path) (p : node_path) : list node_path :=
  match p with
  | [] => []
  | c :: p' => (before ++ [c]) :: prefixes (before ++ [c]) p'
  end.

Definition makedirs (s : state) (path : string) : result unit * state :=
  let p := resolve path in
  if is_dir s p || is_file s p then (Raise FileExistsError, s)
  else if existsb (is_file s) (prefixes [] p) then (Raise NotADirectoryError, s)
  else
    (Ok tt,
     {| dirs := dirs s ++ filter (fun q => negb (is_dir s q)) (prefixes [] p);
        files := files s |}).

(** The files once [p] holds [content], whether it was there or not. *)
Definition put (p : node_path) (content : string)
           (fl : list (node_path * string)) : list (node_path * string) :=
  (p, content) :: filter (fun f => negb (node_eqb p (fst f))) fl.

Definition write (s : state) (path : string) (lines : list string)
  : result unit * state :=
  let p := resolve path in
  let parent := removelast p in
  if is_file s parent then (Raise NotADirectoryError, s)
  else if negb (is_dir s parent) then (Raise FileNotFoundError, s)
  else if is_dir s p then (Raise IsADirectoryError, s)
  else
    (Ok tt,
     {| dirs := dirs s; files := put p (String.concat "" lines) (files s) |}).

(** The content of the regular file at a path, if there is one. *)
Definition read (s : state) (path : string) : option string :=
  let p := resolve path in
  match find (fun f => node_eqb p (fst f)) (files s) with
  | Some f => Some (snd f)
  | None => None
  end.

End TreeFS.

Definition tree_fs : FileSystem := {|
  fs_state := TreeFS.state;
  fs_exists := TreeFS.exists_;
  fs_makedirs := TreeFS.makedirs;
  fs_write := TreeFS.write
|}.

(** * Vocabulary of the properties

    The predicates and functions the properties below are stated with.
    None of them is part of the script. *)

(** ** Text *)

(** Printable ASCII characters, the space included. *)
Definition printable (c : ascii) : bool :=
  let n := nat_of_ascii c in (32 <=? n) && (n <=? 126).

(** Every character of the string passes the test. *)
Fixpoint all_chars (P : ascii -> bool) (s : string) : bool :=
  match s with
  | EmptyString => true
  | String c s' => P c && all_chars P s'
  end.

(** [e] occurs in [v] as a contiguous substring. *)
Definition occurs_in (e v : string) : Prop :=
  exists before after, v = before +++ e +++ after.

(** ** What the lister records *)

(** What [record_items] leaves in the map for a path with at least three
    segments. *)
Definition add_leaf (k j l : string) (artifacts : artifact_map) : artifact_map :=
  let artifacts1 :=
    if Dict.mem k artifacts then artifacts else Dict.set k [] artifacts in
  let sub := get_or k artifacts1 [] in
  Dict.set k (Dict.set j (get_or j sub [] ++ [l]) sub) artifacts1.

(** The leaf list under a top-level key and a sub-key, empty when either
    is missing. *)
Definition leaves (artifacts : artifact_map) (k j : string) : leaf_list :=
  get_or j (get_or k artifacts []) [].

(** A top-level key, a sub-key and a leaf. *)
Definition triple : Type := string * string * string.

(** The map after a list of triples has been recorded in order. *)
Fixpoint build (ts : list triple) (A : artifact_map) : artifact_map :=
  match ts with
  | [] => A
  | (k, j, l) :: ts' => build ts' (add_leaf k j l A)
  end.

(** The leaves the triples give to a pair, in the order of the triples. *)
Fixpoint leaves_of (k j : string) (ts : list triple) : leaf_list :=
  match ts with
  | [] => []
  | (k', j', l) :: ts' =>
      if String.eqb k' k && String.eqb j' j
      then l :: leaves_of k j ts' else leaves_of k j ts'
  end.

(** The map one line leaves, without the printing. *)
Definition step_result (A : artifact_map) (line : string) : result artifact_map :=
  rbind (values_of line) (fun values =>
  if skipped values then Ok A else record_items A (Py.split os_sep values)).

(** The map the loop over the lines leaves, without the printing. *)
Fixpoint scan (lines : list string) (A : artifact_map) : result artifact_map :=
  match lines with
  | [] => Ok A
  | line :: lines' => rbind (step_result A line) (scan lines')
  end.

(** The value holds one of the excluded substrings. *)
Definition excluded (values : string) : Prop :=
  exists exclude, In exclude LS_EXCLUDES /\ occurs_in exclude values.

(** The triple a line contributes: none when it is skipped, the first
    three segments of its value otherwise. *)
Definition line_triple (line : string) : result (option triple) :=
  rbind (values_of line) (fun values =>
  if skipped values then Ok None
  else match Py.split os_sep values with
       | k :: j :: l :: _ => Ok (Some (k, j, l))
       | _ => Raise IndexError
       end).

(** The triples of the lines of a listing, in order; the indexing fault
    when a kept line is too short. *)
Fixpoint triples_of (lines : list string) : result (list triple) :=
  match lines with
  | [] => Ok []
  | line :: lines' =>
      rbind (line_triple line) (fun t =>
      rbind (triples_of lines') (fun ts =>
      Ok (match t with Some t => t :: ts | None => ts end)))
  end.

(** The segment holds no path separator. *)
Definition slash_free (s : string) : Prop := Py.mem_char os_sep s = false.

(** A sub-key with its leaf list, as the lister leaves them: the sub-key
    holds no separator and the list is not empty. *)
Definition good_leaf_entry (e : string * leaf_list) : Prop :=
  slash_free (fst e) /\ snd e <> [].

(** A top-level key with its sub-map, as the lister leaves them. *)
Definition good_sub_entry (e : string * sub_map) : Prop :=
  slash_free (fst e) /\ snd e <> [] /\ NoDup (Dict.keys (snd e))
  /\ Forall good_leaf_entry (snd e).

(** The invariant of the map in the loop of the lister: keys occur once
    (it is a dictionary), hold no separator, and nothing is empty. *)
Definition lister_inv (A : artifact_map) : Prop :=
  NoDup (Dict.keys A) /\ Forall good_sub_entry A.

(** A kept line of the listing with these first three segments. *)
Definition kept_line (lines : list string) (k j l : string) : Prop :=
  exists line values deeper,
    In line lines /\ values_of line = Ok values
    /\ values <> "b" /\ ~ excluded values
    /\ Py.split os_sep values = k :: j :: l :: deeper.

(** A line is well formed for a triple: its value is kept and splits into
    exactly the three segments of the triple. *)
Definition well_formed_line (line : string) (t : triple) : Prop :=
  exists values,
    values_of line = Ok values /\ values <> "b" /\ ~ excluded values
    /\ Py.split os_sep values = [fst (fst t); snd (fst t); snd t].

(** ** Pages *)

(** The display text of a link, as a total function. *)
Definition display_text (truncate : bool) (link : string) : string :=
  let text := hd "" (Py.split "."%char link) in
  if truncate then last (Py.split "_"%char text) "" else text.

(** The template of a page with the given links. *)
Definition page_template (content : page_content) (links : list string)
           (opts : Namespace) : list string :=
  template_head content opts
  ++ map (fun target => anchor_line target (display_text (link content) target))
         links
  ++ template_foot.

(** A directory path to which [os.path.join] adds a separator. *)
Definition open_dir (d : string) : Prop := d <> "" /\ ends_with_sep d = false.

(** The path made of segments below a directory. *)
Fixpoint below (segments : list string) : string :=
  match segments with
  | [] => ""
  | s :: segments' => "/" +++ s +++ below segments'
  end.

(** The calls that make sure a directory exists: the test, and the
    creation when the test says it is missing. *)
Definition ensure_events (dir : string) (present : bool) : list event :=
  EvExists dir present :: (if present then [] else [EvMakedirs dir]).

(** The calls for one page: its directory is made sure of, then its
    index file is written. *)
Definition page_events (dir : string) (present : bool) (template : list string)
  : list event :=
  ensure_events dir present ++ [EvWrite (path_join dir INDEX_FILE) template].

(** A page: its directory and the template of its index file. *)
Definition page : Type := string * list string.

(** The trace of making these pages one after the other. *)
Inductive pages_trace : list page -> list event -> Prop :=
| pages_trace_nil : pages_trace [] []
| pages_trace_cons dir template present pages tr :
    pages_trace pages tr ->
    pages_trace ((dir, template) :: pages)
                (page_events dir present template ++ tr).

(** The templates of the three kinds of page, as [main] and [make_html]
    ask for them. *)
Definition front_template (opts : Namespace) (A : artifact_map) : list string :=
  page_template {| title := "SAL Topics Frontpage";
                   heading := Some "Version of SAL Topics"; link := false |}
                (Dict.keys A) opts.

Definition key_template (opts : Namespace) (k : string) (sub : sub_map)
  : list string :=
  page_template {| title := "SAL Topics for " +++ Py.capitalize k;
                   heading := None; link := false |}
                (Dict.keys sub) opts.

Definition leaf_template (opts : Namespace) (j : string) (L : leaf_list)
  : list string :=
  page_template {| title := j; heading := Some j; link := true |} L opts.

(** The pages [make_html] makes for a top-level key, in order. *)
Definition key_pages (web : string) (opts : Namespace) (k : string) (sub : sub_map)
  : list page :=
  (path_join web k, key_template opts k sub)
  :: map (fun e => (path_join (path_join web k) (fst e),
                    leaf_template opts (fst e) (snd e))) sub.

(** The pages of all the top-level keys, in the order of the map. *)
Definition site_pages (web : string) (opts : Namespace) (A : artifact_map)
  : list page :=
  flat_map (fun e => key_pages web opts (fst e) (snd e)) A.

(** Events that do not touch the file system. *)
Definition quiet (e : event) : Prop :=
  match e with
  | EvExists _ _ | EvMakedirs _ | EvWrite _ _ => False
  | _ => True
  end.

Section RunPredicates.

Context {FSI : FileSystem}.

(** A computation that only prints or runs commands: what it adds to the
    trace is quiet and the files stay as they are. *)
Definition silent {A} (m : M A) : Prop :=
  forall w, exists tr,
    trace (snd (m w)) = trace w ++ tr /\ Forall quiet tr
    /\ fs (snd (m w)) = fs w.

(** A computation that makes pages: when it completes, the worlds before
    and after are related as the making of these pages relates them. *)
Definition makes (R : list page -> World -> World -> Prop)
           (m : M unit) (pages : list page) : Prop :=
  forall w w', m w = (Ok tt, w') -> R pages w w'.

(** What the making of pages adds to the trace: the calls for these
    pages, in order. *)
Definition traced (pages : list page) (w w' : World) : Prop :=
  exists tr, trace w' = trace w ++ tr /\ pages_trace pages tr.

End RunPredicates.

(** A segment that names a directory entry of its own: not empty and
    without a separator. *)
Definition name (s : string) : Prop := slash_free s /\ s <> "".

(** The event is a call about the page of [dir]: a test or a creation of
    [dir], or a write of its index file. *)
Definition concerns (dir : string) (e : event) : bool :=
  match e with
  | EvExists p _ | EvMakedirs p => String.eqb p dir
  | EvWrite p _ => String.eqb p (path_join dir INDEX_FILE)
  | _ => false
  end.

(** In the trace, the page of [dir] is made once: its directory is made
    sure of once, then its index file is written once, with this
    template, and nothing else is asked about either. *)
Definition page_made_once (tr : list event) (dir : string)
           (template : list string) : Prop :=
  exists present, filter (concerns dir) tr = page_events dir present template.

(** The segments below the output root of the pages of a map, in the
    order [main] makes them. *)
Definition key_plan (k : string) (sub : sub_map) : list (list string) :=
  [k] :: map (fun e => [k; fst e]) sub.

(** The same for all the top-level keys of a map. *)
Definition site_plan (A : artifact_map) : list (list string) :=
  flat_map (fun e => key_plan (fst e) (snd e)) A.

(** No top-level key and no sub-key of the map is the empty string. *)
Definition no_empty_key (A : artifact_map) : Prop :=
  forall k sub, In (k, sub) A ->
    k <> "" /\ forall j L, In (j, L) sub -> j <> "".

(** An ordinary name of a directory entry: not empty, and neither of
    the two names that stand for a directory itself and for its
    parent. *)
Definition proper (s : string) : Prop := s <> "" /\ s <> "." /\ s <> "..".

(** Every top-level key and every sub-key of the map is an ordinary
    name. *)
Definition proper_keys (A : artifact_map) : Prop :=
  forall k sub, In (k, sub) A ->
    proper k /\ forall j L, In (j, L) sub -> proper j.

(** The regular files after the index files of these pages have been
    written, one after the other. *)
Fixpoint files_after (pages : list page) (fl : list (TreeFS.node_path * string))
  : list (TreeFS.node_path * string) :=
  match pages with
  | [] => fl
  | (dir, template) :: pages' =>
      files_after pages'
        (TreeFS.put (TreeFS.resolve (path_join dir INDEX_FILE))
                    (String.concat "" template) fl)
  end.

(** What the making of pages does to the regular files. *)
Definition stored (pages : list page) (w w' : @World tree_fs) : Prop :=
  TreeFS.files (fs w') = files_after pages (TreeFS.files (fs w)).

(** Every top-level key and every sub-key of the map is a name. *)
Definition named_entries (A : artifact_map) : Prop :=
  Forall (fun e => name (fst e) /\ Forall (fun f => name (fst f)) (snd e)) A.

(** [t] is the part of [s] before the first [c]: all of [s] when it
    holds no [c]. *)
Definition text_before (c : ascii) (s t : string) : Prop :=
  Py.mem_char c t = false
  /\ (s = t \/ exists after, s = t +++ String c after).

(** [t] is the part of [s] after the last [c]: all of [s] when it holds
    no [c]. *)
Definition text_after (c : ascii) (s t : string) : Prop :=
  Py.mem_char c t = false
  /\ (s = t \/ exists before, s = before +++ String c t).

(** The claim about the page of a top-level key: below the output root,
    the directory named after the key is made sure of once and its index
    file is written once, with the title of the key and one link per
    sub-key. *)
Definition key_page_claim (web : string) (opts : Namespace) (tr : list event)
           (k : string) (sub : sub_map) : Prop :=
  page_made_once tr (path_join web k) (key_template opts k sub).

(** The claim about the page of a (top-level key, sub-key) pair: the
    directory of the sub-key is made sure of once and its index file is
    written once, with one link per leaf, in the order of the leaf
    list. *)
Definition leaf_page_claim (web : string) (opts : Namespace) (tr : list event)
           (k j : string) (L : leaf_list) : Prop :=
  page_made_once tr (path_join (path_join web k) j) (leaf_template opts j L).

(** ** Fields of a listing line *)

(** A character that the text of a [bytes] object shows as it is and
    that is no blank: graphic ASCII, the apostrophe and the backslash
    apart. *)
Definition plain (c : ascii) : bool :=
  let n := nat_of_ascii c in
  (33 <=? n) && (n <=? 126)
  && negb (Ascii.eqb c "'"%char) && negb (Ascii.eqb c "\"%char).

(** A field of a line: one plain character or more. *)
Definition plain_field (s : string) : Prop :=
  s <> "" /\ all_chars plain s = true.

(** ** Order of the keys, and what is printed *)

(** The strings of [xs] that are not in [seen], each once, in the order
    of their first occurrence. *)
Fixpoint first_seen (seen xs : list string) : list string :=
  match xs with
  | [] => []
  | x :: xs' =>
      if existsb (String.eqb x) seen then first_seen seen xs'
      else x :: first_seen (seen ++ [x]) xs'
  end.

(** The top-level key and the sub-key of a triple. *)
Definition top_key (t : triple) : string := fst (fst t).
Definition sub_key (t : triple) : string := snd (fst t).

(** The triples under a top-level key. *)
Definition under_key (k : string) (ts : list triple) : list triple :=
  filter (fun t => String.eqb (top_key t) k) ts.

(** What the verbose lister prints: the segments of a path or the
    map. *)
Definition printed (e : event) : Prop :=
  match e with
  | EvPrintItems _ | EvPrintArtifacts _ => True
  | _ => False
  end.

(** A name the site can use: it holds no separator and none of the
    excluded words. *)
Definition clean (s : string) : Prop :=
  slash_free s /\ forall exclude, In exclude LS_EXCLUDES -> ~ occurs_in exclude s.

(** A line the lister passes over: its value is the sentinel or holds
    an excluded word. *)
Definition skipped_line (line : string) : Prop :=
  exists values, values_of line = Ok values /\ skipped values = true.


(** The base of the site: the one given on the command line, the
    website of the bucket when none is. *)
Definition site_base (opts : Namespace) : string :=
  match base opts with
  | Some b => b
  | None => BUCKET_WEBSITE
  end.

(** The lines are a whole page with the style sheet of the base [b]:
    the eight lines of the head, a body, the two closing lines. *)
Definition whole_page (b : string) (lines : list string) : Prop :=
  exists heading_title body,
    lines
    = [ "<!DOCTYPE html>" +++ nl;
        "<html>" +++ nl;
        "<head>" +++ nl;
        "<title>" +++ heading_title +++ "</title>" +++ nl;
        stylesheet_line LSST_FONTS " />";
        stylesheet_line (b +++ "/css/default.css")
                        (" media=" +++ dquote +++ "screen" +++ dquote +++ " />");
        "</head>";
        "<body>" +++ nl ]
      ++ body ++ ["</body>" +++ nl; "</html>" +++ nl].

(** The event writes nothing but a whole page. *)
Definition writes_page (b : string) (e : event) : Prop :=
  match e with
  | EvWrite _ lines => whole_page b lines
  | _ => True
  end.

(** The command line of the sync as it is meant: the output root, with
    a separator after it, is one argument. *)
Definition sync_argv_meant (web : string) : list string :=
  ["aws"; "s3"; "sync"; web +++ "/"; "s3://sal-topic-registry"; "--acl";
   "public-read"].

(** No character of the string is a blank for [str.split]. *)
Definition no_blank (s : string) : bool :=
  all_chars (fun c => negb (Py.isspace c)) s.

(** Nothing is in the way of a page in the directory at node [d]:
    neither [d] nor anything above it is a regular file, and its index
    file is not a directory. *)
Definition clear (s : TreeFS.state) (d : TreeFS.node_path) : bool :=
  negb (TreeFS.is_file s d)
  && negb (existsb (TreeFS.is_file s) (TreeFS.prefixes [] d))
  && negb (TreeFS.is_dir s (d ++ [INDEX_FILE])).

(** The tree is ready for the site of a plan below the node [web] of
    the output root: the root is a directory, and nothing is in the way
    of the front page nor of the page of any entry of the plan. *)
Definition ready (s : TreeFS.state) (web : TreeFS.node_path)
           (plan : list (list string)) : bool :=
  TreeFS.is_dir s web && forallb (fun p => clear s (web ++ p)) ([] :: plan).

Section TracePredicates.

Context {FSI : FileSystem}.

(** Whatever it returns or raises, the computation adds to the trace
    only events of this kind. *)
Definition confined {A} (P : event -> Prop) (m : M A) : Prop :=
  forall w, exists tr, trace (snd (m w)) = trace w ++ tr /\ Forall P tr.

(** Two computations that do the same to the files: from worlds with
    the same files they give the same result and leave the same
    files. *)
Definition alike {A} (m m' : M A) : Prop :=
  forall w w', fs w = fs w' ->
    fst (m w) = fst (m' w') /\ fs (snd (m w)) = fs (snd (m' w')).

(** From a world where [I] holds the computation returns, in a world
    where [I] holds. *)
Definition completes (I : World -> Prop) (m : M unit) : Prop :=
  forall w, I w -> exists w', m w = (Ok tt, w') /\ I w'.

End TracePredicates.

(** ** Sample inputs *)

(** A checkout under [/repo] whose [website] directory exists and is
    empty. *)
Definition sample_fs : TreeFS.state :=
  {| TreeFS.dirs := [["repo"]; ["repo"; "website"]]; TreeFS.files := [] |}.

(** The world before a run from [/repo]: nothing printed or asked yet. *)
Definition sample_world : @World tree_fs :=
  {| fs := sample_fs : @fs_state tree_fs; trace := [] |}.

(** A checkout under [/fresh] that has no [website] directory yet. *)
Definition fresh_world : @World tree_fs :=
  {| fs := {| TreeFS.dirs := [["fresh"]]; TreeFS.files := [] |} : @fs_state tree_fs;
     trace := [] |}.

(** A command that ended with this exit status and this output. *)
Definition completed (code : Z) (out : string) : CompletedProcess :=
  {| returncode := code; stdout := out; stderr := "" |}.

(** No option given on the command line. *)
Definition plain_opts : Namespace :=
  {| verbose := 0; sync := false; base := None |}.

(** The run of [main] from [/repo] on a listing, without sync. *)
Definition sample_run (out : string) : result unit * @World tree_fs :=
  @main tree_fs "/repo" (completed 0%Z out) (completed 0%Z "") plain_opts sample_world.

(** A listing of two topics of one component. *)
Definition two_topics : string :=
  "2021-01-01 00:00:00 123 topicsA/csc1/foo_bar.html" +++ nl
  +++ "2021-01-01 00:00:01 456 topicsA/csc1/foo_baz.html".

(** The options with the sync switched off. *)
Definition without_sync (opts : Namespace) : Namespace :=
  {| verbose := verbose opts; sync := false; base := base opts |}.

(** The command line of the sync, as [cmd.split()] gives it. *)
Definition sync_argv (web : string) : list string :=
  Py.split_ws ("aws s3 sync " +++ web +++ "/ s3://" +++ SAL_TOPIC_BUCKET
               +++ " --acl public-read").

(** The map of that listing. *)
Definition two_topics_map : artifact_map :=
  [("topicsA", [("csc1", ["foo_bar.html"; "foo_baz.html"])])].

(** The command line of the listing, as [cmd.split()] gives it. *)
Definition ls_argv : list string :=
  ["aws"; "s3"; "ls"; "s3://sal-topic-registry"; "--recursive"].

(** A listing whose only path has a doubled separator: its sub-key is
    the empty string. *)
Definition empty_sub_key : string :=
  "2021-01-01 00:00:00 123 topicsA//foo_bar.html".

(** A listing with a path that starts with a separator and whose second
    segment is the top-level key of the other path. *)
Definition shadowed_pair : string :=
  "2021-01-01 00:00:00 123 /topicsA/foo_bar.html" +++ nl
  +++ "2021-01-01 00:00:01 456 topicsA/csc1/foo_baz.html".

(** A listing whose only path starts with the name of the directory
    itself: its top-level key is [.]. *)
Definition dot_key : string :=
  "2021-01-01 00:00:00 123 ./csc1/foo_bar.html".

(** A listing whose only path climbs to the parent directory and comes
    back into the output root: its top-level key is [..]. *)
Definition dot_dot_key : string :=
  "2021-01-01 00:00:00 123 ../website/foo_bar.html".

(** The world before a run from a checkout under [/repo] whose output
    root holds the style sheet of the site. *)
Definition styled_world : @World tree_fs :=
  {| fs := {| TreeFS.dirs := [["repo"]; ["repo"; "website"];
                              ["repo"; "website"; "css"]];
              TreeFS.files := [(["repo"; "website"; "css"; "default.css"],
                                "body { }")] |} : @fs_state tree_fs;
     trace := [] |}.

(** A listing whose only path has a single segment. *)
Definition one_segment : string := "2021-01-01 00:00:00 123 README".

(** The options with another verbosity. *)
Definition with_verbose (v : nat) (opts : Namespace) : Namespace :=
  {| verbose := v; sync := sync opts; base := base opts |}.

(** The options [-v --sync]. *)
Definition sync_opts : Namespace :=
  {| verbose := 1; sync := true; base := None |}.

(** * Properties *)

(** ** Strings *)

Lemma append_assoc (a b c : string) : (a +++ b) +++ c = a +++ b +++ c.
Proof. induction a as [|x a IH]; simpl; [reflexivity | now rewrite IH]. Qed.

Lemma append_empty_r (a : string) : a +++ "" = a.
Proof. induction a as [|x a IH]; simpl; [reflexivity | now rewrite IH]. Qed.

Lemma prefix_spec (e v : string) :
  String.prefix e v = true <-> exists after, v = e +++ after.
Proof.
  revert v; induction e as [|x e IH]; intros v.
  - split; [intros _; now exists v | intros _; now destruct v].
  - destruct v as [|y v]; simpl.
    + split; [discriminate | intros [after H]; discriminate].
    + destruct (ascii_dec x y) as [->|ne].
      * rewrite IH. split; intros [after H]; exists after.
        -- now rewrite H.
        -- now injection H.
      * split; [discriminate | intros [after H]; injection H; intros; now subst].
Qed.

Lemma contains_empty (e : string) :
  Py.contains e "" = String.prefix e "".
Proof. destruct e; reflexivity. Qed.

Lemma contains_cons (e : string) (y : ascii) (v : string) :
  Py.contains e (String y v) = String.prefix e (String y v) || Py.contains e v.
Proof. destruct e; reflexivity. Qed.

Lemma contains_spec (e v : string) :
  Py.contains e v = true <-> occurs_in e v.
Proof.
  unfold occurs_in. induction v as [|y v IH].
  - rewrite contains_empty, prefix_spec. split.
    + intros [after H]. now exists "", after.
    + intros [[|b before] [after H]]; [now exists after | discriminate].
  - rewrite contains_cons, orb_true_iff, IH, prefix_spec. split.
    + intros [[after H] | [before [after H]]].
      * now exists "", after.
      * exists (String y before), after. simpl. now rewrite H.
    + intros [[|b before] [after H]].
      * left. now exists after.
      * right. exists before, after. simpl in H. now injection H.
Qed.

Lemma exclude_match_spec (values : string) :
  exclude_match values = true <->
  exists exclude, In exclude LS_EXCLUDES /\ occurs_in exclude values.
Proof.
  unfold exclude_match.
  assert (G : forall excludes start,
             fold_left (fun matched exclude =>
                          if Py.contains exclude values then true else matched)
                       excludes start = true <->
             start = true \/
             exists exclude, In exclude excludes /\ occurs_in exclude values).
  { induction excludes as [|x xs IH]; intros start; simpl.
    - split; [now left | intros [H | [x [[] _]]]; exact H].
    - rewrite IH. destruct (Py.contains x values) eqn:E.
      + apply contains_spec in E. split; intros _; [right | now left].
        exists x. split; [now left | exact E].
      + split.
        * intros [H | [y [Hy Hin]]]; [now left | right].
          exists y. split; [now right | exact Hin].
        * intros [H | [y [[<- | Hy] Hin]]]; [now left | | right].
          -- apply contains_spec in Hin. congruence.
          -- now exists y. }
  rewrite G. split; [intros [H | H]; [discriminate | exact H] | now right].
Qed.

Lemma skipped_spec (values : string) :
  skipped values = true <->
  values = "b" \/
  exists exclude, In exclude LS_EXCLUDES /\ occurs_in exclude values.
Proof.
  unfold skipped. rewrite orb_true_iff, exclude_match_spec, String.eqb_eq. tauto.
Qed.

Lemma last_item_total {A} (l : list A) :
  l <> [] -> exists a, Py.last_item l = Ok a.
Proof.
  induction l as [|x l IH]; intros H; [contradiction|].
  destruct l as [|y l]; [now exists x|].
  apply IH. discriminate.
Qed.

Lemma split_ws_aux_open (w s : string) : Py.split_ws_aux (Some w) s <> [].
Proof.
  revert w; induction s as [|c s IH]; intros w; simpl; [discriminate|].
  destruct (Py.isspace c); [discriminate | apply IH].
Qed.

(** Extracting the value of a line never fails: the text of a [bytes]
    object starts with the letter b, so it has at least one field. *)
Lemma values_of_total (line : string) : exists v, values_of line = Ok v.
Proof.
  unfold values_of.
  destruct (@last_item_total string (Py.split_ws (Py.bytes_repr line))) as [tok H].
  - unfold Py.split_ws, Py.bytes_repr, Py.bytes_quote.
    destruct (_ && _); simpl; apply split_ws_aux_open.
  - rewrite H. simpl. eauto.
Qed.

Lemma split_nonempty (sep : ascii) (s : string) : Py.split sep s <> [].
Proof.
  destruct s as [|c s]; simpl; [discriminate|].
  destruct (Ascii.eqb c sep); [discriminate|].
  destruct (Py.split sep s); discriminate.
Qed.

(** No piece of [s.split(sep)] holds the separator. *)
Lemma split_pieces_free (sep : ascii) (s piece : string) :
  In piece (Py.split sep s) -> Py.mem_char sep piece = false.
Proof.
  revert piece; induction s as [|c s IH]; intros piece; simpl.
  - intros [<- | []]. reflexivity.
  - destruct (Ascii.eqb c sep) eqn:E.
    + intros [<- | H]; [reflexivity | now apply IH].
    + destruct (Py.split sep s) as [|p ps] eqn:Es.
      * intros [<- | []]. simpl. now rewrite E.
      * intros [<- | H].
        -- simpl. rewrite E. apply IH. now left.
        -- apply IH. now right.
Qed.

(** ** The text of a line is printable ASCII *)

Lemma all_chars_app (P : ascii -> bool) (a b : string) :
  all_chars P (a +++ b) = all_chars P a && all_chars P b.
Proof.
  induction a as [|c a IH]; simpl; [reflexivity|].
  now rewrite IH, andb_assoc.
Qed.

Lemma hex_digit_printable (n : nat) : printable (Py.hex_digit n) = true.
Proof. do 16 (destruct n as [|n]; [reflexivity|]). reflexivity. Qed.

Lemma repr_byte_printable (q c : ascii) :
  printable q = true -> all_chars printable (Py.repr_byte q c) = true.
Proof.
  intros Hq. unfold Py.repr_byte.
  destruct (Ascii.eqb c q) eqn:Eq.
  - apply Ascii.eqb_eq in Eq. subst c.
    cbn [orb all_chars]. now rewrite Hq.
  - destruct (Ascii.eqb c "\") eqn:Eb.
    + apply Ascii.eqb_eq in Eb. subst c. reflexivity.
    + cbn [orb].
      destruct (nat_of_ascii c =? 9); [reflexivity|].
      destruct (nat_of_ascii c =? 10); [reflexivity|].
      destruct (nat_of_ascii c =? 13); [reflexivity|].
      destruct ((nat_of_ascii c <? 32) || (127 <=? nat_of_ascii c)) eqn:En.
      * cbn [all_chars]. now rewrite !hex_digit_printable.
      * apply orb_false_iff in En. destruct En as [lo hi].
        apply Nat.ltb_ge in lo. apply Nat.leb_gt in hi.
        cbn [all_chars]. unfold printable.
        replace (32 <=? nat_of_ascii c) with true
          by (symmetry; apply Nat.leb_le; lia).
        replace (nat_of_ascii c <=? 126) with true
          by (symmetry; apply Nat.leb_le; lia).
        reflexivity.
Qed.

Lemma repr_body_printable (q : ascii) (s : string) :
  printable q = true -> all_chars printable (Py.repr_body q s) = true.
Proof.
  intros Hq. induction s as [|c s IH]; simpl; [reflexivity|].
  now rewrite all_chars_app, repr_byte_printable, IH.
Qed.

Lemma bytes_repr_printable (s : string) :
  all_chars printable (Py.bytes_repr s) = true.
Proof.
  assert (Hq : printable (Py.bytes_quote s) = true).
  { unfold Py.bytes_quote. now destruct (_ && _). }
  unfold Py.bytes_repr. cbn [all_chars].
  rewrite Hq, all_chars_app, (@repr_body_printable _ s Hq). cbn [all_chars].
  now rewrite Hq.
Qed.

Lemma split_ws_aux_chars (P : ascii -> bool) (cur : option string) (s : string) :
  match cur with Some w => all_chars P w = true | None => True end ->
  all_chars P s = true ->
  Forall (fun piece => all_chars P piece = true) (Py.split_ws_aux cur s).
Proof.
  revert cur; induction s as [|c s IH]; intros cur Hc Hs; simpl.
  - destruct cur; repeat constructor. exact Hc.
  - simpl in Hs. apply andb_true_iff in Hs. destruct Hs as [Pc Ps].
    destruct (Py.isspace c).
    + destruct cur; [constructor; [exact Hc|]|]; now apply IH.
    + destruct cur; apply IH; auto.
      * rewrite all_chars_app, Hc. simpl. now rewrite Pc.
      * simpl. now rewrite Pc.
Qed.

Lemma last_item_in {A} (l : list A) (a : A) : Py.last_item l = Ok a -> In a l.
Proof.
  induction l as [|x l IH]; [discriminate|].
  destruct l as [|y l]; [intros [= ->]; now left|].
  intros H. right. now apply IH.
Qed.

Lemma lstrip_chars (P : ascii -> bool) (c : ascii) (s : string) :
  all_chars P s = true -> all_chars P (Py.lstrip c s) = true.
Proof.
  induction s as [|d s IH]; [reflexivity|].
  intros H. cbn [Py.lstrip]. destruct (Ascii.eqb d c); [|exact H].
  simpl in H. apply andb_true_iff in H. now apply IH.
Qed.

Lemma rstrip_chars (P : ascii -> bool) (c : ascii) (s : string) :
  all_chars P s = true -> all_chars P (Py.rstrip c s) = true.
Proof.
  induction s as [|d s IH]; [reflexivity|].
  intros H. simpl in H. apply andb_true_iff in H. destruct H as [Pd Ps].
  cbn [Py.rstrip]. specialize (IH Ps).
  destruct (Py.rstrip c s) as [|e r].
  - destruct (Ascii.eqb d c); [reflexivity|]. simpl. now rewrite Pd.
  - cbn [all_chars] in *. now rewrite Pd.
Qed.

(** The value of a line is made of printable ASCII characters, whatever
    bytes the line holds. *)
Lemma values_of_printable (line values : string) :
  values_of line = Ok values -> all_chars printable values = true.
Proof.
  unfold values_of.
  destruct (Py.last_item (Py.split_ws (Py.bytes_repr line))) as [token|] eqn:E;
    [|discriminate].
  intros [= <-]. apply last_item_in in E.
  apply rstrip_chars, lstrip_chars.
  pose proof (@split_ws_aux_chars printable None (Py.bytes_repr line) I
                (bytes_repr_printable line)) as H.
  rewrite Forall_forall in H. now apply H.
Qed.

Lemma split_chars (P : ascii -> bool) (sep : ascii) (s : string) :
  all_chars P s = true ->
  Forall (fun piece => all_chars P piece = true) (Py.split sep s).
Proof.
  induction s as [|c s IH]; intros H; simpl.
  - now repeat constructor.
  - simpl in H. apply andb_true_iff in H. destruct H as [Pc Ps].
    specialize (IH Ps). destruct (Ascii.eqb c sep).
    + now constructor.
    + destruct (Py.split sep s) as [|piece pieces].
      * repeat constructor. simpl. now rewrite Pc.
      * inversion IH; subst. constructor; [|assumption].
        simpl. now rewrite Pc.
Qed.

(** ** Dictionaries *)

Section DictFacts.

Variable V : Type.
Implicit Types (d : Dict.t V) (k : string) (v : V).

Lemma get_set_same k v d : Dict.get k (Dict.set k v d) = Some v.
Proof.
  induction d as [|[k' v'] d IH]; simpl.
  - now rewrite String.eqb_refl.
  - destruct (String.eqb k' k) eqn:E; simpl.
    + now rewrite String.eqb_refl.
    + now rewrite E.
Qed.

Lemma get_set_other k k' v d :
  k <> k' -> Dict.get k' (Dict.set k v d) = Dict.get k' d.
Proof.
  intros ne. induction d as [|[k0 v0] d IH]; simpl.
  - apply String.eqb_neq in ne. now rewrite ne.
  - destruct (String.eqb k0 k) eqn:E; simpl.
    + apply String.eqb_eq in E. subst k0.
      apply String.eqb_neq in ne. now rewrite ne.
    + now rewrite IH.
Qed.

Lemma get_in k v d : Dict.get k d = Some v -> In (k, v) d.
Proof.
  induction d as [|[k' v'] d IH]; simpl; [discriminate|].
  destruct (String.eqb k' k) eqn:E.
  - apply String.eqb_eq in E. intros [= ->]. left. now subst.
  - intros H. right. now apply IH.
Qed.

Lemma get_none_keys k d : Dict.get k d = None -> ~ In k (Dict.keys d).
Proof.
  induction d as [|[k' v'] d IH]; simpl; [tauto|].
  destruct (String.eqb k' k) eqn:E; [discriminate|].
  apply String.eqb_neq in E. intros H [H' | H']; [contradiction | now apply IH].
Qed.

Lemma in_get k v d : NoDup (Dict.keys d) -> In (k, v) d -> Dict.get k d = Some v.
Proof.
  induction d as [|[k' v'] d IH]; simpl; [tauto|].
  intros nd [[= -> ->] | H].
  - now rewrite String.eqb_refl.
  - inversion nd as [|? ? notin nd']; subst.
    destruct (String.eqb k' k) eqn:E.
    + apply String.eqb_eq in E. subst k'.
      exfalso. apply notin. change k with (fst (k, v)). now apply in_map.
    + now apply IH.
Qed.

Lemma in_set k v k' v' d :
  In (k', v') (Dict.set k v d) -> (k' = k /\ v' = v) \/ In (k', v') d.
Proof.
  induction d as [|[k0 v0] d IH]; simpl.
  - intros [[= <- <-] | []]. now left.
  - destruct (String.eqb k0 k).
    + intros [[= <- <-] | H]; [now left | right; now right].
    + intros [H | H]; [right; now left|].
      destruct (IH H) as [G | G]; [now left | right; now right].
Qed.

Lemma keys_set k v d :
  Dict.keys (Dict.set k v d) =
  if Dict.mem k d then Dict.keys d else Dict.keys d ++ [k].
Proof.
  unfold Dict.mem. induction d as [|[k0 v0] d IH]; simpl; [reflexivity|].
  destruct (String.eqb k0 k) eqn:E; simpl.
  - apply String.eqb_eq in E. now subst.
  - rewrite IH. now destruct (Dict.get k d).
Qed.

Lemma nodup_keys_set k v d :
  NoDup (Dict.keys d) -> NoDup (Dict.keys (Dict.set k v d)).
Proof.
  intros nd. rewrite keys_set. unfold Dict.mem.
  destruct (Dict.get k d) eqn:E; [exact nd|].
  apply NoDup_app; [exact nd | repeat constructor; intros [] |].
  intros x Hx [<- | []]. revert Hx. now apply get_none_keys.
Qed.

Lemma mem_set k k' v d :
  Dict.mem k' (Dict.set k v d) = String.eqb k k' || Dict.mem k' d.
Proof.
  unfold Dict.mem. destruct (String.eqb_spec k k') as [<- | ne].
  - now rewrite get_set_same.
  - now rewrite get_set_other.
Qed.

End DictFacts.

(** ** The bucket lister: recording paths *)

Lemma record_items_three (artifacts : artifact_map) (k j l : string)
      (deeper : list string) :
  record_items artifacts (k :: j :: l :: deeper) = Ok (add_leaf k j l artifacts).
Proof. reflexivity. Qed.

Lemma record_items_short (artifacts : artifact_map) (items : list string) :
  List.length items < 3 -> record_items artifacts items = Raise IndexError.
Proof.
  destruct items as [|k [|j [|l deeper]]]; simpl; intros H;
    try reflexivity; lia.
Qed.

Lemma get_or_ensured (k : string) (A : artifact_map) :
  get_or k (if Dict.mem k A then A else Dict.set k [] A) [] = get_or k A [].
Proof.
  unfold get_or, Dict.mem. destruct (Dict.get k A) eqn:E.
  - now rewrite E.
  - now rewrite get_set_same.
Qed.

Lemma sub_add_leaf (k j l k' : string) (A : artifact_map) :
  get_or k' (add_leaf k j l A) [] =
  if String.eqb k k'
  then Dict.set j (leaves A k j ++ [l]) (get_or k A [])
  else get_or k' A [].
Proof.
  unfold add_leaf, leaves. cbv zeta. rewrite get_or_ensured.
  unfold get_or at 1.
  destruct (String.eqb_spec k k') as [<- | ne].
  - now rewrite get_set_same.
  - rewrite get_set_other by exact ne.
    unfold get_or, Dict.mem. destruct (Dict.get k A); [reflexivity|].
    now rewrite get_set_other.
Qed.

Lemma leaves_add_leaf (k j l k' j' : string) (A : artifact_map) :
  leaves (add_leaf k j l A) k' j' =
  leaves A k' j' ++ (if String.eqb k k' && String.eqb j j' then [l] else []).
Proof.
  unfold leaves at 1. rewrite sub_add_leaf.
  destruct (String.eqb_spec k k') as [<- | nk]; simpl.
  - unfold get_or at 1. destruct (String.eqb_spec j j') as [<- | nj].
    + now rewrite get_set_same.
    + rewrite get_set_other by exact nj. now rewrite app_nil_r.
  - now rewrite app_nil_r.
Qed.

Lemma mem_add_leaf (k j l k' : string) (A : artifact_map) :
  Dict.mem k' (add_leaf k j l A) = String.eqb k k' || Dict.mem k' A.
Proof.
  unfold add_leaf. rewrite mem_set.
  destruct (Dict.mem k A) eqn:E; [reflexivity|].
  rewrite mem_set. now destruct (String.eqb k k').
Qed.

Lemma mem_sub_add_leaf (k j l k' j' : string) (A : artifact_map) :
  Dict.mem j' (get_or k' (add_leaf k j l A) []) =
  (String.eqb k k' && String.eqb j j') || Dict.mem j' (get_or k' A []).
Proof.
  rewrite sub_add_leaf.
  destruct (String.eqb_spec k k') as [<- | nk]; simpl; [|reflexivity].
  apply mem_set.
Qed.

Lemma leaves_build (ts : list triple) (A : artifact_map) (k j : string) :
  leaves (build ts A) k j = leaves A k j ++ leaves_of k j ts.
Proof.
  revert A; induction ts as [|[[k' j'] l] ts IH]; intros A; simpl.
  - now rewrite app_nil_r.
  - rewrite IH, leaves_add_leaf, <- app_assoc.
    now destruct (String.eqb k' k && String.eqb j' j).
Qed.

Lemma mem_build (ts : list triple) (A : artifact_map) (k : string) :
  Dict.mem k (build ts A) = true <->
  Dict.mem k A = true \/ exists j l, In (k, j, l) ts.
Proof.
  revert A; induction ts as [|[[k' j'] l'] ts IH]; intros A; simpl.
  - split; [now left | intros [H | [j [l []]]]; exact H].
  - rewrite IH, mem_add_leaf, orb_true_iff, String.eqb_eq. split.
    + intros [[-> | H] | [j [l H]]].
      * right. exists j', l'. now left.
      * now left.
      * right. exists j, l. now right.
    + intros [H | [j [l [[= -> -> ->] | H]]]].
      * left. now right.
      * left. now left.
      * right. now exists j, l.
Qed.

Lemma mem_sub_build (ts : list triple) (A : artifact_map) (k j : string) :
  Dict.mem j (get_or k (build ts A) []) = true <->
  Dict.mem j (get_or k A []) = true \/ exists l, In (k, j, l) ts.
Proof.
  revert A; induction ts as [|[[k' j'] l'] ts IH]; intros A; simpl.
  - split; [now left | intros [H | [l []]]; exact H].
  - rewrite IH, mem_sub_add_leaf, orb_true_iff, andb_true_iff, !String.eqb_eq.
    split.
    + intros [[[-> ->] | H] | [l H]].
      * right. exists l'. now left.
      * now left.
      * right. exists l. now right.
    + intros [H | [l [[= -> -> ->] | H]]].
      * left. now right.
      * left. now left.
      * right. now exists l.
Qed.

(** ** The bucket lister: the loop over the lines *)

Section ListerFacts.

Context {FSI : FileSystem}.

Lemma line_step_result (vb : nat) (A : artifact_map) (line : string) (w : World) :
  fst (line_step vb A line w) = step_result A line
  /\ fs (snd (line_step vb A line w)) = fs w.
Proof.
  unfold line_step, step_result, bind, lift, when, emit, ret.
  destruct (values_of line) as [values|e]; simpl; [|now split].
  destruct (skipped values); simpl; [now split|].
  destruct (3 <? vb); simpl;
    destruct (record_items A (Py.split os_sep values)); simpl;
    destruct (2 <? vb); simpl; now split.
Qed.

Lemma for_fold_line_step (vb : nat) (lines : list string) (A : artifact_map)
      (w : World) :
  fst (for_fold lines (line_step vb) A w) = scan lines A
  /\ fs (snd (for_fold lines (line_step vb) A w)) = fs w.
Proof.
  revert A w; induction lines as [|line lines IH]; intros A w; simpl.
  - now split.
  - unfold bind. destruct (line_step_result vb A line w) as [R F].
    destruct (line_step vb A line w) as [[A'|e] w']; simpl in *; rewrite <- R.
    + simpl. destruct (IH A' w') as [R' F']. split; congruence.
    + now split.
Qed.

(** The value [get_bucket_directories] returns is the outcome of the
    loop over the lines of the listing, started with an empty map, and
    the files are left as they were. *)
Lemma get_bucket_directories_result (vb : nat) (ls : CompletedProcess) (w : World) :
  fst (get_bucket_directories vb ls w) = scan (Py.split newline (stdout ls)) []
  /\ fs (snd (get_bucket_directories vb ls w)) = fs w.
Proof.
  unfold get_bucket_directories, subprocess_run, bind, emit, ret, when.
  simpl.
  match goal with
  | |- context [for_fold ?ls ?b ?a ?w0] =>
      destruct (for_fold_line_step vb ls a w0) as [R F];
      destruct (for_fold ls b a w0) as [[A|e] w']
  end; simpl in *; rewrite <- R.
  - destruct (1 <? vb); simpl; now split.
  - now split.
Qed.

End ListerFacts.

(** ** The bucket lister: which lines count *)

Lemma skipped_false (values : string) :
  skipped values = false <-> values <> "b" /\ ~ excluded values.
Proof.
  unfold excluded. rewrite <- not_true_iff_false, skipped_spec. tauto.
Qed.

Lemma values_of_error (line : string) (e : exn) : values_of line <> Raise e.
Proof. destruct (values_of_total line) as [v H]. rewrite H. discriminate. Qed.

Lemma scan_triples (lines : list string) (A : artifact_map) :
  scan lines A = rbind (triples_of lines) (fun ts => Ok (build ts A)).
Proof.
  revert A; induction lines as [|line lines IH]; intros A; simpl; [reflexivity|].
  unfold step_result, line_triple.
  destruct (values_of line) as [values|e] eqn:E; simpl.
  2: { now apply values_of_error in E. }
  destruct (skipped values); simpl.
  - rewrite IH. now destruct (triples_of lines).
  - destruct (Py.split os_sep values) as [|k [|j [|l deeper]]]; simpl;
      try reflexivity.
    rewrite IH. now destruct (triples_of lines).
Qed.

(** The only fault of the loop is the indexing fault. *)
Lemma triples_of_error (lines : list string) (e : exn) :
  triples_of lines = Raise e -> e = IndexError.
Proof.
  induction lines as [|line lines IH]; simpl; [discriminate|].
  unfold line_triple.
  destruct (values_of line) as [values|e'] eqn:E; simpl.
  2: { now apply values_of_error in E. }
  destruct (skipped values); simpl.
  - destruct (triples_of lines); simpl; [discriminate|].
    intros [= <-]. now apply IH.
  - destruct (Py.split os_sep values) as [|k [|j [|l deeper]]]; simpl;
      try (now intros [= <-]).
    destruct (triples_of lines); simpl; [discriminate|].
    intros [= <-]. now apply IH.
Qed.

Lemma triples_of_app (xs ys : list string) :
  triples_of (xs ++ ys) =
  rbind (triples_of xs) (fun a => rbind (triples_of ys) (fun b => Ok (a ++ b))).
Proof.
  induction xs as [|x xs IH]; simpl.
  - destruct (triples_of ys); reflexivity.
  - destruct (line_triple x) as [t|e]; simpl; [|reflexivity].
    rewrite IH. destruct (triples_of xs) as [a|e]; simpl; [|reflexivity].
    destruct (triples_of ys) as [b|e]; simpl; [|reflexivity].
    now destruct t.
Qed.

(** A line that is kept and has at least three segments contributes its
    first three segments. *)
Lemma line_triple_kept (line values k j l : string) (deeper : list string) :
  values_of line = Ok values ->
  values <> "b" -> ~ excluded values ->
  Py.split os_sep values = k :: j :: l :: deeper ->
  line_triple line = Ok (Some (k, j, l)).
Proof.
  intros Hv Hb Hx Hs. unfold line_triple. rewrite Hv. simpl.
  assert (K : skipped values = false) by now apply skipped_false.
  now rewrite K, Hs.
Qed.

Lemma line_triple_skipped (line values : string) :
  values_of line = Ok values ->
  values = "b" \/ excluded values ->
  line_triple line = Ok None.
Proof.
  intros Hv H. unfold line_triple. rewrite Hv. simpl.
  assert (K : skipped values = true) by now apply skipped_spec.
  now rewrite K.
Qed.

Lemma line_triple_short (line values : string) :
  values_of line = Ok values ->
  values <> "b" -> ~ excluded values ->
  List.length (Py.split os_sep values) < 3 ->
  line_triple line = Raise IndexError.
Proof.
  intros Hv Hb Hx Hs. unfold line_triple. rewrite Hv. simpl.
  assert (K : skipped values = false) by now apply skipped_false.
  rewrite K.
  destruct (Py.split os_sep values) as [|k [|j [|l deeper]]];
    simpl in *; try reflexivity; lia.
Qed.

(** ** Invariants of the map the lister builds *)

Lemma forall_set {V} (P : string * V -> Prop) (k : string) (v : V) (d : Dict.t V) :
  Forall P d -> P (k, v) -> Forall P (Dict.set k v d).
Proof.
  intros Hd Hk. induction Hd as [|[k' v'] d Hx Hd IH]; simpl.
  - now constructor.
  - destruct (String.eqb k' k); constructor; assumption.
Qed.

Lemma set_set {V} (k : string) (v v' : V) (d : Dict.t V) :
  Dict.set k v (Dict.set k v' d) = Dict.set k v d.
Proof.
  induction d as [|[k0 v0] d IH]; simpl.
  - now rewrite String.eqb_refl.
  - destruct (String.eqb k0 k) eqn:E; simpl.
    + now rewrite String.eqb_refl.
    + now rewrite E, IH.
Qed.

Lemma set_not_empty {V} (k : string) (v : V) (d : Dict.t V) : Dict.set k v d <> [].
Proof. destruct d as [|[k' v'] d]; simpl; [|destruct (String.eqb k' k)]; discriminate. Qed.

(** Recording a leaf is one assignment to the top-level key. *)
Lemma add_leaf_set (k j l : string) (A : artifact_map) :
  add_leaf k j l A =
  Dict.set k (Dict.set j (leaves A k j ++ [l]) (get_or k A [])) A.
Proof.
  unfold add_leaf, leaves. cbv zeta. rewrite get_or_ensured.
  destruct (Dict.mem k A); [reflexivity | apply set_set].
Qed.

Lemma lister_inv_add_leaf (k j l : string) (A : artifact_map) :
  slash_free k -> slash_free j -> lister_inv A -> lister_inv (add_leaf k j l A).
Proof.
  intros Hk Hj [nd all]. rewrite add_leaf_set. split.
  - now apply nodup_keys_set.
  - apply forall_set; [exact all|].
    assert (S : NoDup (Dict.keys (get_or k A []))
                /\ Forall good_leaf_entry (get_or k A [])).
    { unfold get_or. destruct (Dict.get k A) as [sub|] eqn:E.
      - apply get_in in E. rewrite Forall_forall in all.
        destruct (all _ E) as (_ & _ & H1 & H2). now split.
      - split; constructor. }
    destruct S as [nds alls].
    repeat split; simpl.
    + exact Hk.
    + apply set_not_empty.
    + now apply nodup_keys_set.
    + apply forall_set; [exact alls|]. split; simpl; [exact Hj|].
      now destruct (leaves A k j).
Qed.

Lemma triples_of_slash_free (lines : list string) (ts : list triple) :
  triples_of lines = Ok ts ->
  Forall (fun t => slash_free (fst (fst t)) /\ slash_free (snd (fst t))) ts.
Proof.
  revert ts; induction lines as [|line lines IH]; intros ts; simpl.
  - intros [= <-]. constructor.
  - unfold line_triple.
    destruct (values_of line) as [values|e]; simpl; [|discriminate].
    destruct (skipped values); simpl.
    + destruct (triples_of lines) as [ts'|]; simpl; [|discriminate].
      intros [= <-]. now apply IH.
    + destruct (Py.split os_sep values) as [|k [|j [|l deeper]]] eqn:Es;
        simpl; try discriminate.
      destruct (triples_of lines) as [ts'|]; simpl; [|discriminate].
      intros [= <-]. constructor; [|now apply IH].
      split; simpl; apply (@split_pieces_free os_sep values); rewrite Es;
        simpl; auto.
Qed.

Lemma lister_inv_build (ts : list triple) (A : artifact_map) :
  Forall (fun t => slash_free (fst (fst t)) /\ slash_free (snd (fst t))) ts ->
  lister_inv A -> lister_inv (build ts A).
Proof.
  intros Hts. revert A. induction Hts as [|[[k j] l] ts [Hk Hj] Hts IH];
    intros A HA; simpl; [exact HA|].
  apply IH. now apply lister_inv_add_leaf.
Qed.

Lemma lister_inv_empty : lister_inv [].
Proof. split; constructor. Qed.

Lemma triples_provenance (lines : list string) (ts : list triple) (k j l : string) :
  triples_of lines = Ok ts -> (In (k, j, l) ts <-> kept_line lines k j l).
Proof.
  unfold kept_line.
  revert ts; induction lines as [|line lines IH]; intros ts; simpl.
  - intros [= <-]. split; [intros [] | intros (? & ? & ? & [] & _)].
  - destruct (line_triple line) as [t|] eqn:Et; simpl; [|discriminate].
    destruct (triples_of lines) as [ts'|]; simpl; [|discriminate].
    intros [= <-]. specialize (IH ts' eq_refl).
    assert (here : forall values deeper,
               values_of line = Ok values -> values <> "b" ->
               ~ excluded values ->
               Py.split os_sep values = k :: j :: l :: deeper ->
               t = Some (k, j, l)).
    { intros values deeper Hv Hb Hx Hs.
      rewrite (line_triple_kept _ Hv Hb Hx Hs) in Et. now injection Et. }
    split.
    + intros Hin.
      assert (C : t = Some (k, j, l) \/ In (k, j, l) ts').
      { destruct t as [t|]; [destruct Hin as [-> | Hin]|]; auto. }
      destruct C as [-> | Hin'].
      * unfold line_triple in Et.
        destruct (values_of line) as [values|] eqn:Ev; simpl in Et; [|discriminate].
        destruct (skipped values) eqn:Es; [discriminate|].
        apply skipped_false in Es. destruct Es as [Hb Hx].
        destruct (Py.split os_sep values) as [|k0 [|j0 [|l0 deeper]]] eqn:Ez;
          try discriminate.
        injection Et as -> -> ->.
        exists line, values, deeper. repeat split; auto.
      * apply IH in Hin'.
        destruct Hin' as (line' & values & deeper & Hin' & rest).
        exists line', values, deeper. split; [now right | exact rest].
    + intros (line' & values & deeper & [<- | Hin] & Hv & Hb & Hx & Hs).
      * rewrite (here values deeper Hv Hb Hx Hs). now left.
      * assert (In (k, j, l) ts').
        { apply IH. exists line', values, deeper. repeat split; auto. }
        destruct t; [now right | assumption].
Qed.

Lemma leaves_of_in (k j l : string) (ts : list triple) :
  In l (leaves_of k j ts) <-> In (k, j, l) ts.
Proof.
  induction ts as [|[[k' j'] l'] ts IH]; simpl; [tauto|].
  destruct (String.eqb_spec k' k) as [-> | nk]; simpl.
  - destruct (String.eqb_spec j' j) as [-> | nj]; simpl.
    + rewrite IH. split; intros [H | H]; auto; left; congruence.
    + rewrite IH. split; [now right | intros [[= ? ?] | H]; [contradiction | exact H]].
  - rewrite IH. split; [now right | intros [[= ? ?] | H]; [contradiction | exact H]].
Qed.

Section ListerClaims.

Context {FSI : FileSystem}.

(** Whatever the lister returns was built from the triples of the lines
    it kept, and satisfies the invariants. *)
Lemma lister_returns (vb : nat) (ls : CompletedProcess) (w : World)
      (A : artifact_map) :
  fst (get_bucket_directories vb ls w) = Ok A ->
  exists ts, triples_of (Py.split newline (stdout ls)) = Ok ts
             /\ A = build ts [] /\ lister_inv A.
Proof.
  destruct (get_bucket_directories_result vb ls w) as [-> _].
  rewrite scan_triples.
  destruct (triples_of (Py.split newline (stdout ls))) as [ts|] eqn:E;
    simpl; [|discriminate].
  intros [= <-]. exists ts. split; [reflexivity | split; [reflexivity|]].
  apply lister_inv_build; [|apply lister_inv_empty].
  now apply (triples_of_slash_free _ E).
Qed.

Lemma lister_of_triples (vb : nat) (ls : CompletedProcess) (w : World)
      (ts : list triple) :
  triples_of (Py.split newline (stdout ls)) = Ok ts ->
  fst (get_bucket_directories vb ls w) = Ok (build ts []).
Proof.
  intros E. destruct (get_bucket_directories_result vb ls w) as [-> _].
  now rewrite scan_triples, E.
Qed.

End ListerClaims.

Section ListerTheorems.

Context {FSI : FileSystem}.

Lemma well_formed_triples (lines : list string) (ts : list triple) :
  Forall2 well_formed_line lines ts -> triples_of lines = Ok ts.
Proof.
  induction 1 as [|line [[k j] l] lines ts (values & Hv & Hb & Hx & Hs) _ IH];
    simpl; [reflexivity|].
  rewrite (line_triple_kept _ Hv Hb Hx Hs). simpl. now rewrite IH.
Qed.

(** C2.  When every line of the listing is well formed (its value is not
    the sentinel, holds no excluded substring and splits into exactly
    three segments), [get_bucket_directories] returns a map that has
    exactly the corresponding entries: the top-level keys are the first
    segments, the sub-keys under a key are the second segments that come
    with it, and the leaf list of a pair is the list of the third
    segments of its lines, in the order of the lines. *)
Theorem C2_well_formed_listing_exact_map
        (vb : nat) (ls : CompletedProcess) (ts : list triple) (w : World) :
  Forall2 well_formed_line (Py.split newline (stdout ls)) ts ->
  exists A,
    fst (get_bucket_directories vb ls w) = Ok A
    /\ (forall k, Dict.mem k A = true <-> exists j l, In (k, j, l) ts)
    /\ (forall k j, Dict.mem j (get_or k A []) = true <-> exists l, In (k, j, l) ts)
    /\ (forall k j, leaves A k j = leaves_of k j ts).
Proof.
  intros wf. apply well_formed_triples in wf.
  exists (build ts []). split; [now apply lister_of_triples|].
  split; [|split].
  - intros k. rewrite mem_build. simpl. intuition discriminate.
  - intros k j. rewrite mem_sub_build. simpl. intuition discriminate.
  - intros k j. now rewrite leaves_build.
Qed.

Lemma line_step_skipped (vb : nat) (A : artifact_map) (line values : string)
      (w : World) :
  values_of line = Ok values -> skipped values = true ->
  line_step vb A line w = (Ok A, w).
Proof.
  intros Hv Hs. unfold line_step, bind, lift. now rewrite Hv, Hs.
Qed.

Lemma for_fold_without {A S} (body : S -> A -> M S) (x : A)
      (before after : list A) :
  (forall acc w, body acc x w = (Ok acc, w)) ->
  forall acc w,
    for_fold (before ++ x :: after) body acc w
    = for_fold (before ++ after) body acc w.
Proof.
  intros idle. induction before as [|y before IH]; intros acc w; simpl.
  - unfold bind. now rewrite idle.
  - unfold bind. destruct (body acc y w) as [[acc'|e] w']; [apply IH | reflexivity].
Qed.

(** C3.  A line whose value holds an excluded substring, or is the
    sentinel, leaves no mark: the lister returns the same map, with the
    same printing, as on the listing without that line; and every leaf
    of the returned map, with its key and sub-key, comes from a line
    that is neither. *)
Theorem C3_excluded_lines_leave_no_entry
        (vb : nat) (ls ls' : CompletedProcess)
        (before after : list string) (line values : string) (w : World) :
  Py.split newline (stdout ls) = before ++ line :: after ->
  Py.split newline (stdout ls') = before ++ after ->
  values_of line = Ok values ->
  values = "b" \/ excluded values ->
  get_bucket_directories vb ls w = get_bucket_directories vb ls' w
  /\ forall A, fst (get_bucket_directories vb ls w) = Ok A ->
       forall k j l, In l (leaves A k j) ->
         kept_line (before ++ after) k j l.
Proof.
  intros E E' Hv Hskip.
  assert (Hs : skipped values = true) by now apply skipped_spec.
  assert (same : get_bucket_directories vb ls w = get_bucket_directories vb ls' w).
  { unfold get_bucket_directories, subprocess_run, bind, emit, ret. simpl.
    rewrite E, E'.
    rewrite (@for_fold_without _ _ (line_step vb) line before after); [reflexivity|].
    intros acc w0. now apply (line_step_skipped vb acc line w0 Hv). }
  split; [exact same|].
  rewrite same. intros A HA k j l Hl.
  destruct (lister_returns _ _ _ HA) as (ts & Ets & -> & _).
  rewrite E' in Ets. rewrite leaves_build in Hl. simpl in Hl.
  apply leaves_of_in in Hl. now apply (triples_provenance _ k j l Ets).
Qed.

Lemma triples_of_fault (lines : list string) (line : string) :
  In line lines -> line_triple line = Raise IndexError ->
  triples_of lines = Raise IndexError.
Proof.
  induction lines as [|x lines IH]; simpl; [tauto|].
  intros [-> | Hin] bad.
  - now rewrite bad.
  - destruct (line_triple x) as [t|e] eqn:Ex; simpl.
    + now rewrite (IH Hin bad).
    + f_equal. apply (@triples_of_error [x]). simpl. now rewrite Ex.
Qed.

End ListerTheorems.

(** ** The site builder: pages and their text *)

Lemma last_item_last {A} (l : list A) (d : A) :
  l <> [] -> Py.last_item l = Ok (last l d).
Proof.
  induction l as [|x l IH]; intros H; [contradiction|].
  destruct l as [|y l]; [reflexivity|].
  change (Py.last_item (y :: l) = Ok (last (y :: l) d)). apply IH. discriminate.
Qed.

Lemma link_text_total (truncate : bool) (link : string) :
  link_text truncate link = Ok (display_text truncate link).
Proof.
  unfold link_text, display_text, Py.index.
  destruct (Py.split "." link) as [|text rest] eqn:E.
  - now apply split_nonempty in E.
  - simpl. destruct truncate; [|reflexivity].
    apply last_item_last, split_nonempty.
Qed.

Lemma link_lines_total (truncate : bool) (links : list string) :
  link_lines truncate links
  = Ok (map (fun link => anchor_line link (display_text truncate link)) links).
Proof.
  induction links as [|link links IH]; simpl; [reflexivity|].
  now rewrite link_text_total, IH.
Qed.

(** Building the template of a page never fails. *)
Lemma html_template_total (content : page_content) (links : list string)
      (opts : Namespace) :
  html_template content links opts = Ok (page_template content links opts).
Proof. unfold html_template. now rewrite link_lines_total. Qed.

(** ** Paths *)

Lemma ends_with_sep_cons (c : ascii) (s : string) :
  ends_with_sep (String c s) =
  match s with
  | EmptyString => Ascii.eqb c os_sep
  | _ => ends_with_sep s
  end.
Proof. destruct s; reflexivity. Qed.

Lemma ends_with_sep_app (a s : string) :
  s <> "" -> ends_with_sep (a +++ s) = ends_with_sep s.
Proof.
  intros H. induction a as [|c a IH]; [reflexivity|].
  simpl. rewrite ends_with_sep_cons, IH.
  destruct (a +++ s) eqn:E; [|reflexivity].
  destruct a; simpl in E; [contradiction | discriminate].
Qed.

Lemma slash_free_no_sep_end (s : string) :
  slash_free s -> ends_with_sep s = false.
Proof.
  unfold slash_free. induction s as [|c s IH]; [reflexivity|].
  simpl. intros H. apply orb_false_iff in H. destruct H as [Hc Hs].
  rewrite ends_with_sep_cons. destruct s; [exact Hc | now apply IH].
Qed.

Lemma slash_free_no_prefix (s : string) :
  slash_free s -> String.prefix "/" s = false.
Proof.
  unfold slash_free. intros H.
  destruct (String.prefix "/" s) eqn:E; [|reflexivity].
  apply prefix_spec in E. destruct E as [after ->]. discriminate H.
Qed.

Lemma path_join_open (d s : string) :
  open_dir d -> slash_free s -> path_join d s = d +++ "/" +++ s.
Proof.
  intros [ne nosep] free. unfold path_join.
  rewrite (slash_free_no_prefix free), nosep.
  destruct (String.eqb_spec d ""); [contradiction | reflexivity].
Qed.

Lemma open_dir_extend (d s : string) :
  slash_free s -> s <> "" -> open_dir (d +++ "/" +++ s).
Proof.
  intros free ne. split.
  - destruct d; discriminate.
  - rewrite <- append_assoc, ends_with_sep_app by exact ne.
    now apply slash_free_no_sep_end.
Qed.

(** The output root is such a directory, wherever the script lives. *)
Lemma web_dir_open (script_dir : string) :
  open_dir (path_join script_dir OUTPUT_LOCATION).
Proof.
  assert (tail : forall a, open_dir (a +++ "website")).
  { intros a. split.
    - destruct a; discriminate.
    - now rewrite ends_with_sep_app. }
  unfold path_join, OUTPUT_LOCATION. simpl String.prefix. cbv iota.
  destruct (String.eqb script_dir "" || ends_with_sep script_dir).
  - apply tail.
  - rewrite <- append_assoc. apply tail.
Qed.

Lemma split_app_free (s t : string) :
  slash_free s ->
  Py.split os_sep (s +++ t) =
  match Py.split os_sep t with
  | [] => [s]
  | piece :: pieces => (s +++ piece) :: pieces
  end.
Proof.
  unfold slash_free. induction s as [|c s IH]; simpl.
  - intros _. destruct (Py.split os_sep t) eqn:E; [|reflexivity].
    now apply split_nonempty in E.
  - intros H. apply orb_false_iff in H. destruct H as [Hc Hs].
    rewrite Hc, (IH Hs). now destruct (Py.split os_sep t).
Qed.

Lemma split_below (segments : list string) :
  Forall slash_free segments ->
  Py.split os_sep (below segments) = "" :: segments.
Proof.
  induction 1 as [|s segments Hs _ IH]; [reflexivity|].
  simpl. rewrite (split_app_free _ Hs), IH. now rewrite append_empty_r.
Qed.

Lemma append_cancel (a x y : string) : a +++ x = a +++ y -> x = y.
Proof. induction a as [|c a IH]; simpl; [auto | intros [= H]; auto]. Qed.

(** Different segments give different paths below the same directory. *)
Lemma below_injective (web : string) (p q : list string) :
  Forall slash_free p -> Forall slash_free q ->
  web +++ below p = web +++ below q -> p = q.
Proof.
  intros Hp Hq E. apply append_cancel in E.
  assert (S : Py.split os_sep (below p) = Py.split os_sep (below q)) by now rewrite E.
  rewrite (split_below Hp), (split_below Hq) in S. now injection S.
Qed.

(** ** The site builder: what it asks of the file system *)

Lemma pages_trace_app (p1 p2 : list page) (t1 t2 : list event) :
  pages_trace p1 t1 -> pages_trace p2 t2 -> pages_trace (p1 ++ p2) (t1 ++ t2).
Proof.
  induction 1 as [|dir template present pages tr _ IH]; intros H2; simpl.
  - exact H2.
  - rewrite <- app_assoc. constructor. now apply IH.
Qed.

Lemma pages_trace_split (p1 p2 : list page) (tr : list event) :
  pages_trace (p1 ++ p2) tr ->
  exists t1 t2, tr = t1 ++ t2 /\ pages_trace p1 t1 /\ pages_trace p2 t2.
Proof.
  revert tr; induction p1 as [|[dir template] p1 IH]; intros tr H; simpl in H.
  - exists [], tr. repeat split; [constructor | exact H].
  - inversion H as [|? ? present ? tr' H']; subst.
    destruct (IH _ H') as (t1 & t2 & -> & H1 & H2).
    exists (page_events dir present template ++ t1), t2.
    rewrite <- app_assoc. repeat split; [now constructor | exact H2].
Qed.

Section Runs.

Context {FSI : FileSystem}.

Lemma silent_ret {A} (a : A) : silent (ret a).
Proof. intros w. exists []. simpl. rewrite app_nil_r. auto. Qed.

Lemma silent_lift {A} (r : result A) : silent (lift r).
Proof. intros w. exists []. simpl. rewrite app_nil_r. auto. Qed.

Lemma silent_emit (e : event) : quiet e -> silent (emit e).
Proof. intros q w. exists [e]. simpl. auto. Qed.

Lemma silent_bind {A B} (m : M A) (k : A -> M B) :
  silent m -> (forall a, silent (k a)) -> silent (bind m k).
Proof.
  intros Hm Hk w. unfold bind. destruct (Hm w) as (t1 & E1 & Q1 & F1).
  destruct (m w) as [[a|e] w1]; simpl in *.
  - destruct (Hk a w1) as (t2 & E2 & Q2 & F2).
    exists (t1 ++ t2). rewrite E2, E1, app_assoc, F2, F1.
    repeat split. now apply Forall_app.
  - now exists t1.
Qed.

Lemma silent_when (b : bool) (m : M unit) : silent m -> silent (when b m).
Proof. destruct b; [auto | intros _; apply silent_ret]. Qed.

Lemma silent_for_each {A} (xs : list A) (body : A -> M unit) :
  (forall x, silent (body x)) -> silent (for_each xs body).
Proof.
  intros Hb. induction xs as [|x xs IH]; simpl.
  - apply silent_ret.
  - apply silent_bind; [apply Hb | intros _; exact IH].
Qed.

Lemma silent_for_fold {A S} (xs : list A) (body : S -> A -> M S) (acc : S) :
  (forall acc x, silent (body acc x)) -> silent (for_fold xs body acc).
Proof.
  intros Hb. revert acc; induction xs as [|x xs IH]; intros acc; simpl.
  - apply silent_ret.
  - apply silent_bind; [apply Hb | intros acc'; apply IH].
Qed.

Create HintDb silent.
#[local] Hint Resolve silent_ret silent_lift silent_emit silent_when : silent.

Lemma silent_line_step (vb : nat) (A : artifact_map) (line : string) :
  silent (line_step vb A line).
Proof.
  unfold line_step. apply silent_bind; [apply silent_lift|]. intros values.
  destruct (skipped values); [apply silent_ret|].
  repeat (apply silent_bind; [| intros ?]); auto with silent;
    apply silent_when, silent_emit; exact I.
Qed.

Lemma silent_subprocess_run (cmd : string) (answer : CompletedProcess) :
  silent (subprocess_run cmd answer).
Proof.
  unfold subprocess_run. apply silent_bind; [apply silent_emit; exact I|].
  intros _. apply silent_ret.
Qed.

Lemma silent_lister (vb : nat) (ls : CompletedProcess) :
  silent (get_bucket_directories vb ls).
Proof.
  unfold get_bucket_directories.
  apply silent_bind; [apply silent_subprocess_run | intros cp].
  apply silent_bind; [apply silent_for_fold, silent_line_step | intros A].
  apply silent_bind; [apply silent_when, silent_emit; exact I | intros _].
  apply silent_ret.
Qed.

Lemma silent_print_decoded (line : string) : silent (print_decoded line).
Proof.
  unfold print_decoded. apply silent_bind; [apply silent_lift | intros text].
  apply silent_emit. exact I.
Qed.

End Runs.

Section Makes.

Context {FSI : FileSystem}.

Variable R : list page -> World -> World -> Prop.

Hypothesis R_nil : forall w, R [] w w.
Hypothesis R_app : forall p1 p2 w w1 w2,
    R p1 w w1 -> R p2 w1 w2 -> R (p1 ++ p2) w w2.

Lemma makes_ret : makes R (ret tt) [].
Proof. intros w w' [= <-]. apply R_nil. Qed.

Lemma makes_seq (m1 m2 : M unit) (p1 p2 : list page) :
  makes R m1 p1 -> makes R m2 p2 -> makes R (m1 ;;; m2) (p1 ++ p2).
Proof.
  intros H1 H2 w w'. unfold bind.
  destruct (m1 w) as [[[]|e] w1] eqn:E1; [|discriminate].
  intros E2. exact (R_app (H1 _ _ E1) (H2 _ _ E2)).
Qed.

Lemma makes_for_each {A} (xs : list A) (body : A -> M unit)
      (pages : A -> list page) :
  (forall x, makes R (body x) (pages x)) ->
  makes R (for_each xs body) (flat_map pages xs).
Proof.
  intros Hb. induction xs as [|x xs IH]; simpl.
  - apply makes_ret.
  - apply makes_seq; [apply Hb | exact IH].
Qed.

Lemma makes_ext (m m' : M unit) (pages : list page) :
  (forall w, m w = m' w) -> makes R m pages -> makes R m' pages.
Proof. intros E H w w' run. apply H. now rewrite E. Qed.

Lemma bind_assoc {A B C} (m : M A) (k : A -> M B) (h : B -> M C) (w : World) :
  bind (bind m k) h w = bind m (fun a => bind (k a) h) w.
Proof.
  unfold bind. destruct (m w) as [[a|e] w1]; [|reflexivity].
  now destruct (k a w1) as [[b|e] w2].
Qed.

Lemma flat_map_single {A B} (f : A -> B) (xs : list A) :
  flat_map (fun x => [f x]) xs = map f xs.
Proof. induction xs as [|x xs IH]; simpl; [reflexivity | now rewrite IH]. Qed.

(** What one page does: its directory is made sure of, then its index
    file is written. *)
Hypothesis R_page : forall dir content links opts,
    makes R (check_and_make_dirs dir;;;
             write_html_index_file dir content links opts)
          [(dir, page_template content links opts)].

Lemma makes_make_html (web k : string) (sub : sub_map) (opts : Namespace) :
  makes R (make_html web k sub opts) (key_pages web opts k sub).
Proof.
  unfold make_html, key_pages.
  eapply makes_ext; [intros w; apply bind_assoc|].
  apply (@makes_seq _ _ [_] _); [apply R_page|].
  rewrite <- flat_map_single.
  apply makes_for_each. intros [kitem vitem]. apply R_page.
Qed.

Lemma makes_site (web : string) (opts : Namespace) (A : artifact_map) :
  NoDup (Dict.keys A) ->
  makes R (for_each (Dict.keys A)
             (fun dirkey => make_html web dirkey (get_or dirkey A []) opts))
        (site_pages web opts A).
Proof.
  intros nd.
  assert (E : site_pages web opts A
              = flat_map (fun k => key_pages web opts k (get_or k A []))
                         (Dict.keys A)).
  { unfold site_pages, Dict.keys.
    assert (G : forall B, incl B A ->
                flat_map (fun e => key_pages web opts (fst e) (snd e)) B
                = flat_map (fun k => key_pages web opts k (get_or k A []))
                           (map fst B)).
    { induction B as [|[k sub] B IH]; intros inc; simpl; [reflexivity|].
      rewrite IH by (intros x Hx; apply inc; now right).
      assert (S : get_or k A [] = sub).
      { unfold get_or.
        now rewrite (@in_get _ k sub A nd (inc _ (or_introl eq_refl))). }
      now rewrite S. }
    apply G, incl_refl. }
  rewrite E. apply makes_for_each. intros k. apply makes_make_html.
Qed.

End Makes.

Section Traces.

Context {FSI : FileSystem}.

Lemma write_index_trace (path : string) (content : page_content)
      (links : list string) (opts : Namespace) (w : World) :
  trace (snd (write_html_index_file path content links opts w))
  = trace w ++ [EvWrite (path_join path INDEX_FILE)
                        (page_template content links opts)].
Proof.
  unfold write_html_index_file, bind, lift, open_writelines.
  rewrite html_template_total.
  now destruct (fs_write (fs w) (path_join path INDEX_FILE)
                         (page_template content links opts)).
Qed.

Lemma check_and_make_dirs_trace (dir : string) (w : World) :
  trace (snd (check_and_make_dirs dir w))
  = trace w ++ ensure_events dir (fs_exists (fs w) dir).
Proof.
  unfold check_and_make_dirs, bind, os_path_exists, os_makedirs, ensure_events.
  destruct (fs_exists (fs w) dir); simpl.
  - reflexivity.
  - destruct (fs_makedirs (fs w) dir). simpl. now rewrite <- app_assoc.
Qed.

Lemma traced_nil (w : World) : traced [] w w.
Proof. exists []. rewrite app_nil_r. split; [reflexivity | constructor]. Qed.

Lemma traced_app (p1 p2 : list page) (w w1 w2 : World) :
  traced p1 w w1 -> traced p2 w1 w2 -> traced (p1 ++ p2) w w2.
Proof.
  intros (t1 & T1 & P1) (t2 & T2 & P2).
  exists (t1 ++ t2). rewrite T2, T1, app_assoc. split; [reflexivity|].
  now apply pages_trace_app.
Qed.

Lemma traced_page (dir : string) (content : page_content)
      (links : list string) (opts : Namespace) :
  makes traced
        (check_and_make_dirs dir;;; write_html_index_file dir content links opts)
        [(dir, page_template content links opts)].
Proof.
  intros w w'. unfold bind.
  pose proof (check_and_make_dirs_trace dir w) as T1.
  destruct (check_and_make_dirs dir w) as [[[]|e] w1]; [|discriminate].
  intros E. pose proof (write_index_trace dir content links opts w1) as T2.
  rewrite E in T2. simpl in *.
  exists (page_events dir (fs_exists (fs w) dir) (page_template content links opts)).
  split.
  - rewrite T2, T1. unfold page_events. now rewrite app_assoc.
  - rewrite <- (app_nil_r (page_events _ _ _)). repeat constructor.
Qed.

(** The loop of [main] over the top-level keys adds to the trace the
    calls for the pages of the map. *)
Lemma builds_site (web : string) (opts : Namespace) (A : artifact_map) :
  NoDup (Dict.keys A) ->
  makes traced
        (for_each (Dict.keys A)
           (fun dirkey => make_html web dirkey (get_or dirkey A []) opts))
        (site_pages web opts A).
Proof. apply makes_site; [exact traced_nil | exact traced_app | exact traced_page]. Qed.

End Traces.


Section MainRuns.

Context {FSI : FileSystem}.

Lemma verbose_default_base (opts : Namespace) :
  verbose (default_base opts) = verbose opts.
Proof. unfold default_base. now destruct (base opts). Qed.

Lemma sync_default_base (opts : Namespace) :
  sync (default_base opts) = sync opts.
Proof. unfold default_base. now destruct (base opts). Qed.

(** The end of [main]: the sync command and the echo of its output. *)
Lemma silent_sync (opts : Namespace) (web : string) (synced : CompletedProcess) :
  silent
    (if sync opts then
       let cmd := "aws s3 sync " +++ web +++ "/ s3://" +++ SAL_TOPIC_BUCKET
                  +++ " --acl public-read" in
       cmp_proc <- subprocess_run cmd synced;;
       let results := Py.split newline (stdout cmp_proc) in
       if 0 <? verbose opts then for_each results print_decoded else ret tt
     else ret tt).
Proof.
  destruct (sync opts); [|apply silent_ret]. cbv zeta.
  apply silent_bind; [apply silent_subprocess_run | intros cp].
  destruct (0 <? verbose opts); [|apply silent_ret].
  apply silent_for_each, silent_print_decoded.
Qed.

(** A complete run of [main]: the lister returned a map; the trace is
    the quiet events of the lister, the write of the front page, the
    calls for the pages of the map, and the quiet events of the sync. *)
Lemma main_run (script_dir : string) (ls synced : CompletedProcess)
      (opts : Namespace) (w w' : World) :
  main script_dir ls synced opts w = (Ok tt, w') ->
  let web := path_join script_dir OUTPUT_LOCATION in
  exists A tl tp ts,
    fst (get_bucket_directories (verbose opts) ls w) = Ok A
    /\ trace w' = trace w ++ tl
                  ++ EvWrite (path_join web INDEX_FILE)
                             (front_template (default_base opts) A)
                  :: tp ++ ts
    /\ Forall quiet tl
    /\ pages_trace (site_pages web (default_base opts) A) tp
    /\ Forall quiet ts.
Proof.
  unfold main. cbv zeta. rewrite verbose_default_base.
  unfold bind at 1.
  destruct (silent_lister (verbose opts) ls w) as (tl & E1 & Q1 & _).
  destruct (get_bucket_directories (verbose opts) ls w) as [[A|e] w1] eqn:EL;
    [|discriminate].
  assert (nd : NoDup (Dict.keys A)).
  { destruct (@lister_returns _ (verbose opts) ls w A) as (ts & _ & _ & [nd _]).
    - now rewrite EL.
    - exact nd. }
  simpl in E1. unfold bind at 1.
  match goal with
  | |- context [write_html_index_file ?p ?c ?l ?o w1] =>
      pose proof (write_index_trace p c l o w1) as E2;
      destruct (write_html_index_file p c l o w1) as [[[]|e] w2]
  end; [|discriminate].
  simpl in E2. unfold bind at 1.
  match goal with
  | |- context [for_each ?ks ?body w2] =>
      destruct (for_each ks body w2) as [[[]|e] w3] eqn:E3
  end; [|discriminate].
  destruct (@builds_site _ _ _ _ nd _ _ E3) as (tp & E3' & P3).
  intros E4.
  match type of E4 with
  | ?m w3 = _ =>
      destruct (silent_sync (default_base opts)
                            (path_join script_dir OUTPUT_LOCATION) synced w3)
        as (ts & E5 & Q5 & _)
  end.
  cbv zeta in E5. rewrite verbose_default_base in E5.
  rewrite E4 in E5. simpl in E5.
  exists A, tl, tp, ts. repeat split; auto.
  rewrite E5, E3', E2, E1. rewrite <- !app_assoc. reflexivity.
Qed.

(** When the lister faults, [main] stops there, in the state the lister
    left. *)
Lemma main_lister_fault (script_dir : string) (ls synced : CompletedProcess)
      (opts : Namespace) (w : World) (e : exn) :
  fst (get_bucket_directories (verbose opts) ls w) = Raise e ->
  main script_dir ls synced opts w
  = (Raise e, snd (get_bucket_directories (verbose opts) ls w)).
Proof.
  intros H. unfold main. cbv zeta. rewrite verbose_default_base.
  unfold bind at 1.
  destruct (get_bucket_directories (verbose opts) ls w) as [[A|e'] w1];
    simpl in *; [discriminate|].
  injection H as ->. reflexivity.
Qed.

(** On any file system: when the lister returns and the front page
    cannot be written, [main] stops with that fault; all it asked of the
    file system is that one write, since nothing makes sure of the
    output root first. *)
Lemma main_front_page_fault (script_dir : string) (ls synced : CompletedProcess)
      (opts : Namespace) (w : World) (A : artifact_map) (e : exn) :
  let front := path_join (path_join script_dir OUTPUT_LOCATION) INDEX_FILE in
  let template := front_template (default_base opts) A in
  fst (get_bucket_directories (verbose opts) ls w) = Ok A ->
  fst (fs_write (fs w) front template) = Raise e ->
  exists tl,
    Forall quiet tl
    /\ main script_dir ls synced opts w
       = (Raise e,
          {| fs := snd (fs_write (fs w) front template);
             trace := trace w ++ tl ++ [EvWrite front template] |}).
Proof.
  intros front template listed fault.
  destruct (silent_lister (verbose opts) ls w) as (tl & T & Q & F).
  exists tl. split; [exact Q|].
  unfold main. cbv zeta. rewrite verbose_default_base.
  unfold bind at 1.
  destruct (get_bucket_directories (verbose opts) ls w) as [[A'|e'] w1];
    simpl in listed, T, F; [|discriminate].
  injection listed as ->.
  unfold bind at 1.
  unfold write_html_index_file. rewrite html_template_total.
  unfold bind, lift, open_writelines.
  fold (front_template (default_base opts) A). fold template. fold front.
  rewrite F, T.
  destruct (fs_write (fs w) front template) as [[[]|e''] s1];
    simpl in fault; [discriminate|].
  injection fault as ->. simpl. now rewrite <- app_assoc.
Qed.

End MainRuns.

(** ** Where the pages go *)

Lemma name_index_file : name INDEX_FILE.
Proof. split; [reflexivity | discriminate]. Qed.

Lemma below_app (p q : list string) : below (p ++ q) = below p +++ below q.
Proof.
  induction p as [|s p IH]; simpl; [reflexivity|].
  now rewrite IH, append_assoc.
Qed.

Lemma below_last (p : list string) (s : string) :
  below (p ++ [s]) = below p +++ "/" +++ s.
Proof. rewrite below_app. simpl. now rewrite append_empty_r. Qed.

Lemma open_dir_below (web : string) (p : list string) :
  open_dir web -> Forall name p -> open_dir (web +++ below p).
Proof.
  intros Hw Hp. induction p as [|s q _] using rev_ind.
  - simpl. now rewrite append_empty_r.
  - rewrite below_last. apply Forall_app in Hp. destruct Hp as [_ Hs].
    inversion Hs as [|? ? [fr ne] _]; subst.
    rewrite <- append_assoc. now apply open_dir_extend.
Qed.

Lemma path_join_below (web : string) (p : list string) (s : string) :
  open_dir web -> Forall name p -> slash_free s ->
  path_join (web +++ below p) s = web +++ below (p ++ [s]).
Proof.
  intros Hw Hp Hs.
  rewrite (path_join_open (open_dir_below Hw Hp) Hs).
  now rewrite below_last, append_assoc.
Qed.

Lemma key_dir (web k : string) :
  open_dir web -> name k -> path_join web k = web +++ below [k].
Proof.
  intros Hw [fr _].
  rewrite <- (append_empty_r web) at 1.
  now apply (@path_join_below web [] k).
Qed.

Lemma leaf_dir (web k j : string) :
  open_dir web -> name k -> name j ->
  path_join (path_join web k) j = web +++ below [k; j].
Proof.
  intros Hw Hk [fr _]. rewrite (key_dir Hw Hk).
  apply (@path_join_below web [k] j); auto.
Qed.

Lemma index_path (web : string) (p : list string) :
  open_dir web -> Forall name p ->
  path_join (web +++ below p) INDEX_FILE = web +++ below (p ++ [INDEX_FILE]).
Proof. intros Hw Hp. apply path_join_below; auto. reflexivity. Qed.

Lemma names_slash_free (p : list string) : Forall name p -> Forall slash_free p.
Proof. apply Forall_impl. now intros s [fr _]. Qed.

(** ** One page, once *)

Lemma filter_quiet (dir : string) (tr : list event) :
  Forall quiet tr -> filter (concerns dir) tr = [].
Proof.
  induction 1 as [|e tr q _ IH]; simpl; [reflexivity|].
  destruct e; simpl in *; try contradiction; exact IH.
Qed.

Lemma filter_own (dir : string) (present : bool) (template : list string) :
  filter (concerns dir) (page_events dir present template)
  = page_events dir present template.
Proof.
  unfold page_events, ensure_events.
  destruct present; simpl; now rewrite !String.eqb_refl.
Qed.

Section Plans.

Variable web : string.
Hypothesis web_open : open_dir web.

Lemma dir_differs (p q : list string) :
  Forall name p -> Forall name q -> q <> p ->
  String.eqb (web +++ below q) (web +++ below p) = false.
Proof.
  intros Hp Hq ne. apply String.eqb_neq. intros E. apply ne.
  apply (below_injective web); auto using names_slash_free.
Qed.

Lemma file_differs (p q : list string) :
  Forall name p -> Forall name q -> q <> p ->
  String.eqb (path_join (web +++ below q) INDEX_FILE)
             (path_join (web +++ below p) INDEX_FILE) = false.
Proof.
  intros Hp Hq ne. rewrite !index_path by assumption.
  apply String.eqb_neq. intros E. apply ne.
  assert (S : forall r, Forall name r -> Forall slash_free (r ++ [INDEX_FILE])).
  { intros r Hr. apply Forall_app. split; [now apply names_slash_free|].
    repeat constructor. }
  apply (below_injective web) in E; auto.
  now apply app_inv_tail in E.
Qed.

Lemma filter_other (p q : list string) (present : bool) (template : list string) :
  Forall name p -> Forall name q -> q <> p ->
  filter (concerns (web +++ below p))
         (page_events (web +++ below q) present template) = [].
Proof.
  intros Hp Hq ne. unfold page_events, ensure_events.
  destruct present; simpl;
    now rewrite ?(dir_differs Hp Hq ne), (file_differs Hp Hq ne).
Qed.

Lemma filter_others (p : list string) (pages : list page) (tr : list event)
      (plan : list (list string)) :
  pages_trace pages tr ->
  map fst pages = map (fun q => web +++ below q) plan ->
  Forall (Forall name) plan -> Forall name p -> ~ In p plan ->
  filter (concerns (web +++ below p)) tr = [].
Proof.
  intros H. revert plan.
  induction H as [|dir template present pages tr _ IH]; intros plan E Hplan Hp notin.
  - reflexivity.
  - destruct plan as [|q plan]; [discriminate|].
    simpl in E. injection E as -> E.
    inversion Hplan as [|? ? Hq Hplan']; subst.
    rewrite filter_app, filter_other; auto.
    + simpl. apply (IH plan); auto. intros H. apply notin. now right.
    + intros ->. apply notin. now left.
Qed.

(** A page whose segments occur once in the plan is made once. *)
Lemma page_once (p : list string) (template : list string)
      (P1 P2 : list page) (tr : list event) (plan : list (list string)) :
  pages_trace (P1 ++ (web +++ below p, template) :: P2) tr ->
  map fst (P1 ++ (web +++ below p, template) :: P2)
  = map (fun q => web +++ below q) plan ->
  Forall (Forall name) plan -> NoDup plan -> Forall name p ->
  page_made_once tr (web +++ below p) template.
Proof.
  intros H E Hplan nd Hp.
  rewrite map_app in E. symmetry in E.
  apply map_eq_app in E. destruct E as (Q1 & Q2' & -> & E1 & E2).
  destruct Q2' as [|q Q2]; [discriminate|]. simpl in E2. injection E2 as Eq E2.
  apply Forall_app in Hplan. destruct Hplan as [H1 H2'].
  inversion H2' as [|? ? Hq H2]; subst.
  assert (q = p) as ->.
  { apply (below_injective web); auto using names_slash_free. }
  apply pages_trace_split in H. destruct H as (t1 & t2' & -> & T1 & T2').
  inversion T2' as [|? ? present ? t2 T2]; subst.
  exists present. rewrite !filter_app, filter_own.
  rewrite (@filter_others p P1 t1 Q1), (@filter_others p P2 t2 Q2); auto.
  - now rewrite app_nil_r.
  - apply NoDup_remove_2 in nd. intros H. apply nd, in_or_app. now right.
  - apply NoDup_remove_2 in nd. intros H. apply nd, in_or_app. now left.
Qed.

End Plans.

(** ** The plan of a map from the lister *)

Lemma named_of_lister (A : artifact_map) :
  lister_inv A -> no_empty_key A -> named_entries A.
Proof.
  intros [_ good] ne. apply Forall_forall. intros [k sub] Hin.
  rewrite Forall_forall in good. destruct (good _ Hin) as (fk & _ & _ & leafs).
  destruct (ne _ _ Hin) as [nk nj]. simpl in *.
  split; [now split|].
  apply Forall_forall. intros [j L] Hj.
  rewrite Forall_forall in leafs. destruct (leafs _ Hj) as [fj _].
  split; [exact fj | now apply (nj j L)].
Qed.

Lemma site_plan_names (A : artifact_map) :
  named_entries A -> Forall (Forall name) (site_plan A).
Proof.
  induction 1 as [|[k sub] A [nk nsub] _ IH]; simpl; [constructor|].
  simpl in *. constructor; [constructor; [exact nk | constructor]|].
  apply Forall_app. split; [|exact IH].
  apply Forall_map. eapply Forall_impl; [|exact nsub].
  intros [j L] nj. constructor; [exact nk|].
  constructor; [exact nj | constructor].
Qed.

Lemma site_pages_dirs (web : string) (opts : Namespace) (A : artifact_map) :
  open_dir web -> named_entries A ->
  map fst (site_pages web opts A)
  = map (fun q => web +++ below q) (site_plan A).
Proof.
  intros Hw. induction 1 as [|[k sub] A [nk nsub] _ IH]; [reflexivity|].
  change (site_pages web opts ((k, sub) :: A))
    with (key_pages web opts k sub ++ site_pages web opts A).
  change (site_plan ((k, sub) :: A)) with (key_plan k sub ++ site_plan A).
  rewrite !map_app. f_equal; [|exact IH].
  unfold key_pages, key_plan. cbn [map fst snd] in *. rewrite !map_map.
  f_equal; [now apply key_dir|].
  apply map_ext_in. intros [j L] Hj. cbn [fst snd].
  rewrite Forall_forall in nsub. specialize (nsub _ Hj).
  now apply leaf_dir.
Qed.

Lemma site_plan_head (A : artifact_map) (q : list string) :
  In q (site_plan A) -> exists k rest, q = k :: rest /\ In k (Dict.keys A).
Proof.
  induction A as [|[k sub] A IH]; simpl; [tauto|].
  intros [<- | H].
  - exists k, []. auto.
  - apply in_app_or in H. destruct H as [H | H].
    + apply in_map_iff in H. destruct H as ([j L] & <- & _).
      exists k, [j]. auto.
    + destruct (IH H) as (k' & rest & -> & Hk). exists k', rest. auto.
Qed.

Lemma site_plan_nodup (A : artifact_map) :
  lister_inv A -> NoDup (site_plan A).
Proof.
  intros [nd good]. induction A as [|[k sub] A IH]; simpl; [constructor|].
  inversion nd as [|? ? notin nd']; subst.
  inversion good as [|? ? (_ & _ & ndsub & _) good']; subst. simpl in *.
  assert (fresh : forall q, In q (site_plan A) -> hd "" q <> k).
  { intros q Hq E. destruct (site_plan_head _ _ Hq) as (k' & rest & -> & Hk).
    simpl in E. now subst. }
  constructor.
  - intros H. apply in_app_or in H. destruct H as [H | H].
    + apply in_map_iff in H. destruct H as (e & E & _). discriminate.
    + now apply (fresh _ H).
  - apply NoDup_app.
    + clear - ndsub. induction sub as [|[j L] sub IH]; simpl; [constructor|].
      inversion ndsub as [|? ? notin nd']; subst. constructor; [|now apply IH].
      intros H. apply in_map_iff in H. destruct H as ([j' L'] & [= <-] & Hin).
      apply notin. change j' with (fst (j', L')). now apply in_map.
    + now apply IH.
    + intros q H1 H2. apply in_map_iff in H1. destruct H1 as (e & <- & _).
      now apply (fresh _ H2).
Qed.

(** ** The display text of a link *)

Lemma split_first (c : ascii) (s : string) :
  text_before c s (hd "" (Py.split c s)).
Proof.
  unfold text_before. induction s as [|x s IH]; simpl.
  - split; [reflexivity | now left].
  - destruct (Ascii.eqb x c) eqn:E; simpl.
    + apply Ascii.eqb_eq in E. subst x.
      split; [reflexivity | right; now exists s].
    + destruct (Py.split c s) as [|t rest] eqn:Es.
      * now apply split_nonempty in Es.
      * simpl in *. destruct IH as [free shape]. rewrite E, free.
        split; [reflexivity|].
        destruct shape as [-> | [after ->]]; [now left | right; now exists after].
Qed.

(** Either the string holds no separator and is its only piece, or
    there are at least two pieces and the last one follows the last
    separator. *)
Lemma split_shape (c : ascii) (s : string) :
  (Py.split c s = [s] /\ Py.mem_char c s = false)
  \/ (exists p q rest before,
        Py.split c s = p :: q :: rest
        /\ Py.mem_char c (last (q :: rest) "") = false
        /\ s = before +++ String c (last (q :: rest) "")).
Proof.
  induction s as [|x s IH]; [left; now split|].
  simpl. destruct (Ascii.eqb x c) eqn:E.
  - apply Ascii.eqb_eq in E. subst x. right.
    destruct IH as [[-> free] | (p & q & rest & before & -> & free & shape)].
    + exists "", s, [], "". now repeat split.
    + exists "", p, (q :: rest), (String c before). repeat split.
      * exact free.
      * simpl. now rewrite shape at 1.
  - destruct IH as [[-> free] | (p & q & rest & before & -> & free & shape)].
    + left. split; [reflexivity | exact free].
    + right. exists (String x p), q, rest, (String x before). repeat split.
      * exact free.
      * simpl. now rewrite shape at 1.
Qed.

Lemma split_last (c : ascii) (s : string) :
  text_after c s (last (Py.split c s) "").
Proof.
  unfold text_after.
  destruct (split_shape c s)
    as [[-> free] | (p & q & rest & before & -> & free & shape)].
  - split; [exact free | now left].
  - change (last (p :: q :: rest) "") with (last (q :: rest) "").
    split; [exact free | right; now exists before].
Qed.

Lemma display_text_plain (target : string) :
  text_before "." target (display_text false target).
Proof. apply split_first. Qed.

Lemma display_text_truncated (target : string) :
  exists text, text_before "." target text
               /\ text_after "_" text (display_text true target).
Proof.
  exists (hd "" (Py.split "." target)). split; [apply split_first | apply split_last].
Qed.

(** ** The pages of a complete run *)

Lemma site_pages_app (web : string) (opts : Namespace) (A1 A2 : artifact_map) :
  site_pages web opts (A1 ++ A2) = site_pages web opts A1 ++ site_pages web opts A2.
Proof. apply flat_map_app. Qed.

Lemma pages_trace_in (pages : list page) (tr : list event) (dir : string)
      (template : list string) :
  pages_trace pages tr -> In (dir, template) pages ->
  In (EvWrite (path_join dir INDEX_FILE) template) tr.
Proof.
  induction 1 as [|dir' template' present pages tr _ IH]; [intros []|].
  intros [[= -> ->] | H]; apply in_or_app.
  - left. unfold page_events. apply in_or_app. right. now left.
  - right. now apply IH.
Qed.

Section SiteRuns.

Context {FSI : FileSystem}.

Variables (script_dir : string) (ls synced : CompletedProcess) (opts : Namespace).
Variables (w w' : World) (A : artifact_map).

Hypothesis complete : main script_dir ls synced opts w = (Ok tt, w').
Hypothesis listed : fst (get_bucket_directories (verbose opts) ls w) = Ok A.

Local Abbreviation web := (path_join script_dir OUTPUT_LOCATION).

Lemma run_shape :
  exists tl tp ts,
    trace w' = trace w ++ tl
               ++ EvWrite (path_join web INDEX_FILE)
                          (front_template (default_base opts) A)
               :: tp ++ ts
    /\ Forall quiet tl
    /\ pages_trace (site_pages web (default_base opts) A) tp
    /\ Forall quiet ts.
Proof.
  destruct (main_run _ _ _ _ _ complete) as (A' & tl & tp & ts & EA & rest).
  rewrite listed in EA. injection EA as <-. now exists tl, tp, ts.
Qed.

Lemma site_page_once (P1 P2 : list page) (p : list string)
      (template : list string) :
  no_empty_key A ->
  site_pages web (default_base opts) A
  = P1 ++ (web +++ below p, template) :: P2 ->
  Forall name p -> p <> [] ->
  exists tr, trace w' = trace w ++ tr
             /\ page_made_once tr (web +++ below p) template.
Proof.
  intros ne E Hp nonempty.
  destruct run_shape as (tl & tp & ts & T & Ql & Pp & Qs).
  destruct (lister_returns _ _ _ listed) as (_ & _ & _ & inv).
  pose proof (named_of_lister inv ne) as named.
  pose proof (web_dir_open script_dir) as Hw. fold web in Hw.
  eexists. split; [exact T|].
  rewrite E in Pp.
  destruct (@page_once web Hw p template P1 P2 tp (site_plan A)) as [present F];
    auto.
  - rewrite <- E. now apply site_pages_dirs.
  - now apply site_plan_names.
  - now apply site_plan_nodup.
  - exists present.
    rewrite filter_app, (filter_quiet _ Ql). simpl.
    rewrite filter_app, F, (filter_quiet _ Qs), app_nil_r.
    assert (front : String.eqb (path_join web INDEX_FILE)
                               (path_join (web +++ below p) INDEX_FILE) = false).
    { rewrite <- (append_empty_r web) at 1.
      apply (@file_differs web Hw p []); auto. }
    now rewrite front.
Qed.

Lemma front_page_written :
  exists tr, trace w' = trace w ++ tr
             /\ In (EvWrite (path_join web INDEX_FILE)
                            (front_template (default_base opts) A)) tr.
Proof.
  destruct run_shape as (tl & tp & ts & T & _).
  eexists. split; [exact T|]. apply in_or_app. right. now left.
Qed.

Lemma site_page_written (dir : string) (template : list string) :
  In (dir, template) (site_pages web (default_base opts) A) ->
  exists tr, trace w' = trace w ++ tr
             /\ In (EvWrite (path_join dir INDEX_FILE) template) tr.
Proof.
  intros Hin. destruct run_shape as (tl & tp & ts & T & _ & Pp & _).
  eexists. split; [exact T|]. apply in_or_app. right. right.
  apply in_or_app. left. eapply pages_trace_in; eassumption.
Qed.

End SiteRuns.

(** ** The files of a complete run *)

Lemma node_eqb_eq (p q : TreeFS.node_path) : TreeFS.node_eqb p q = true <-> p = q.
Proof.
  unfold TreeFS.node_eqb. destruct (list_eq_dec string_dec p q); split;
    auto; discriminate.
Qed.

Lemma node_eqb_refl (p : TreeFS.node_path) : TreeFS.node_eqb p p = true.
Proof. now apply node_eqb_eq. Qed.

Lemma node_eqb_neq (p q : TreeFS.node_path) : p <> q -> TreeFS.node_eqb p q = false.
Proof.
  intros ne. destruct (TreeFS.node_eqb p q) eqn:E; [|reflexivity].
  now apply node_eqb_eq in E.
Qed.

Lemma find_put_same (p : TreeFS.node_path) (content : string)
      (fl : list (TreeFS.node_path * string)) :
  find (fun f => TreeFS.node_eqb p (fst f)) (TreeFS.put p content fl)
  = Some (p, content).
Proof. unfold TreeFS.put. simpl. now rewrite node_eqb_refl. Qed.

Lemma find_filter_other {A} (f g : A -> bool) (l : list A) :
  (forall x, f x = true -> g x = true) ->
  find f (filter g l) = find f l.
Proof.
  intros H. induction l as [|x l IH]; simpl; [reflexivity|].
  destruct (g x) eqn:G; simpl.
  - destruct (f x); [reflexivity | exact IH].
  - destruct (f x) eqn:F; [|exact IH].
    apply H in F. congruence.
Qed.

Lemma find_put_other (p q : TreeFS.node_path) (content : string)
      (fl : list (TreeFS.node_path * string)) :
  p <> q ->
  find (fun f => TreeFS.node_eqb p (fst f)) (TreeFS.put q content fl)
  = find (fun f => TreeFS.node_eqb p (fst f)) fl.
Proof.
  intros ne. unfold TreeFS.put. simpl. rewrite (node_eqb_neq ne).
  apply find_filter_other. intros [r c] E. simpl in *.
  apply node_eqb_eq in E. subst r.
  rewrite node_eqb_neq; [reflexivity | congruence].
Qed.

Lemma files_after_app (P1 P2 : list page) (fl : list (TreeFS.node_path * string)) :
  files_after (P1 ++ P2) fl = files_after P2 (files_after P1 fl).
Proof.
  revert fl; induction P1 as [|[dir template] P1 IH]; intros fl; simpl;
    [reflexivity | apply IH].
Qed.

(** The file of a page holds the template of the last page written
    there: that of the page itself when no later page goes to the same
    file. *)
Lemma find_files_after (P1 P2 : list page) (dir : string)
      (template : list string) (fl : list (TreeFS.node_path * string)) :
  let p := TreeFS.resolve (path_join dir INDEX_FILE) in
  Forall (fun pg => TreeFS.resolve (path_join (fst pg) INDEX_FILE) <> p) P2 ->
  find (fun f => TreeFS.node_eqb p (fst f))
       (files_after (P1 ++ (dir, template) :: P2) fl)
  = Some (p, String.concat "" template).
Proof.
  intros p later. rewrite files_after_app. simpl. fold p.
  generalize (files_after P1 fl). intros fl1.
  assert (G : forall fl2,
             find (fun f => TreeFS.node_eqb p (fst f)) fl2
             = Some (p, String.concat "" template) ->
             find (fun f => TreeFS.node_eqb p (fst f)) (files_after P2 fl2)
             = Some (p, String.concat "" template)).
  { induction later as [|[dir' template'] P2 ne _ IH]; intros fl2 H; simpl;
      [exact H|].
    apply IH. rewrite find_put_other; [exact H|]. simpl in ne. congruence. }
  apply G, find_put_same.
Qed.

Lemma stored_nil (w : @World tree_fs) : stored [] w w.
Proof. reflexivity. Qed.

Lemma stored_app (p1 p2 : list page) (w w1 w2 : @World tree_fs) :
  stored p1 w w1 -> stored p2 w1 w2 -> stored (p1 ++ p2) w w2.
Proof.
  unfold stored. intros H1 H2. now rewrite H2, H1, files_after_app.
Qed.

Lemma check_and_make_dirs_files (dir : string) (w w' : @World tree_fs) :
  @check_and_make_dirs tree_fs dir w = (Ok tt, w') ->
  TreeFS.files (fs w') = TreeFS.files (fs w).
Proof.
  unfold check_and_make_dirs, bind, os_path_exists, os_makedirs, ret.
  cbn [fs_exists fs_makedirs tree_fs].
  destruct (TreeFS.exists_ (fs w) dir); simpl.
  - now intros [= <-].
  - unfold TreeFS.makedirs.
    destruct (_ || _); [discriminate|].
    destruct (existsb _ _); [discriminate|].
    now intros [= <-].
Qed.

Lemma write_index_files (path : string) (content : page_content)
      (links : list string) (opts : Namespace) (w w' : @World tree_fs) :
  @write_html_index_file tree_fs path content links opts w = (Ok tt, w') ->
  TreeFS.files (fs w')
  = TreeFS.put (TreeFS.resolve (path_join path INDEX_FILE))
               (String.concat "" (page_template content links opts))
               (TreeFS.files (fs w)).
Proof.
  unfold write_html_index_file, bind, lift, open_writelines.
  rewrite html_template_total. cbn [fs_write tree_fs]. unfold TreeFS.write.
  destruct (TreeFS.is_file _ _); [discriminate|].
  destruct (negb _); [discriminate|].
  destruct (TreeFS.is_dir _ _); [discriminate|].
  now intros [= <-].
Qed.

Lemma stored_page (dir : string) (content : page_content)
      (links : list string) (opts : Namespace) :
  makes stored
        (@check_and_make_dirs tree_fs dir;;;
         write_html_index_file dir content links opts)
        [(dir, page_template content links opts)].
Proof.
  intros w w'. unfold bind.
  destruct (@check_and_make_dirs tree_fs dir w) as [[[]|e] w1] eqn:E1;
    [|discriminate].
  intros E2. unfold stored. simpl.
  now rewrite (write_index_files _ _ _ _ _ E2), (check_and_make_dirs_files _ _ E1).
Qed.

(** The regular files after a complete run of [main]: the front page is
    written, then the pages of the map. *)
Lemma main_files (script_dir : string) (ls synced : CompletedProcess)
      (opts : Namespace) (w w' : @World tree_fs) (A : artifact_map) :
  @main tree_fs script_dir ls synced opts w = (Ok tt, w') ->
  fst (@get_bucket_directories tree_fs (verbose opts) ls w) = Ok A ->
  let web := path_join script_dir OUTPUT_LOCATION in
  TreeFS.files (fs w')
  = files_after
      ((web, front_template (default_base opts) A)
       :: site_pages web (default_base opts) A)
      (TreeFS.files (fs w)).
Proof.
  intros run listed web. revert run.
  unfold main. cbv zeta. rewrite verbose_default_base.
  unfold bind at 1.
  destruct (@get_bucket_directories_result tree_fs (verbose opts) ls w) as [_ F0].
  destruct (lister_returns _ _ _ listed) as (_ & _ & _ & nd & _).
  destruct (@get_bucket_directories tree_fs (verbose opts) ls w) as [[A'|e] w1];
    simpl in listed, F0; [|discriminate].
  injection listed as ->.
  unfold bind at 1.
  match goal with
  | |- context [write_html_index_file ?p ?c ?l ?o w1] =>
      destruct (write_html_index_file p c l o w1) as [[[]|e] w2] eqn:E2
  end; [|discriminate].
  apply write_index_files in E2.
  unfold bind at 1.
  match goal with
  | |- context [for_each ?ks ?body w2] =>
      destruct (for_each ks body w2) as [[[]|e] w3] eqn:E3
  end; [|discriminate].
  apply (@makes_site tree_fs stored stored_nil stored_app stored_page
           web (default_base opts) A nd) in E3.
  intros E4.
  destruct (@silent_sync tree_fs (default_base opts) web synced w3)
    as (ts & _ & _ & F4).
  cbv zeta in F4. rewrite verbose_default_base in F4. fold web in E4.
  rewrite E4 in F4. simpl in F4.
  simpl. fold web. unfold stored in E3.
  rewrite F4, E3, E2, F0. reflexivity.
Qed.

(** ** Where the paths lead *)

Lemma split_app_sep (a t : string) :
  Py.split os_sep (a +++ String os_sep t)
  = Py.split os_sep a ++ Py.split os_sep t.
Proof.
  induction a as [|c a IH]; [reflexivity|].
  cbn [String.append Py.split]. rewrite IH.
  destruct (Ascii.eqb c os_sep); [reflexivity|].
  destruct (Py.split os_sep a) eqn:E; [|reflexivity].
  now apply split_nonempty in E.
Qed.

Lemma split_app_below (a : string) (segments : list string) :
  Forall slash_free segments ->
  Py.split os_sep (a +++ below segments) = Py.split os_sep a ++ segments.
Proof.
  intros free. destruct free as [|s segments Hs free].
  - simpl. now rewrite append_empty_r, app_nil_r.
  - change (below (s :: segments)) with (String os_sep (s +++ below segments)).
    rewrite split_app_sep, (split_app_free _ Hs), (split_below free).
    now rewrite append_empty_r.
Qed.

Lemma walk_proper (here : TreeFS.node_path) (s : string) :
  proper s -> TreeFS.walk here s = here ++ [s].
Proof.
  intros (H1 & H2 & H3). unfold TreeFS.walk.
  apply String.eqb_neq in H1, H2, H3. now rewrite H1, H2, H3.
Qed.

Lemma fold_walk_proper (segments : list string) (here : TreeFS.node_path) :
  Forall proper segments ->
  fold_left TreeFS.walk segments here = here ++ segments.
Proof.
  intros H. revert here. induction H as [|s segments Hs _ IH]; intros here; simpl.
  - now rewrite app_nil_r.
  - rewrite (walk_proper _ Hs), IH, <- app_assoc. reflexivity.
Qed.

(** Ordinary names below a directory lead to the node with these names
    below the node of the directory. *)
Lemma resolve_below (a : string) (segments : list string) :
  Forall slash_free segments -> Forall proper segments ->
  TreeFS.resolve (a +++ below segments) = TreeFS.resolve a ++ segments.
Proof.
  intros free ord. unfold TreeFS.resolve.
  now rewrite (split_app_below _ free), fold_left_app, (fold_walk_proper _ ord).
Qed.

Lemma proper_index_file : proper INDEX_FILE.
Proof. repeat split; discriminate. Qed.

Lemma resolve_index (web : string) (p : list string) :
  open_dir web -> Forall name p -> Forall proper p ->
  TreeFS.resolve (path_join (web +++ below p) INDEX_FILE)
  = TreeFS.resolve web ++ p ++ [INDEX_FILE].
Proof.
  intros Hw Hn Hp. rewrite (index_path Hw Hn). apply resolve_below.
  - apply Forall_app. split; [now apply names_slash_free|].
    constructor; [reflexivity | constructor].
  - apply Forall_app. split; [exact Hp|].
    constructor; [exact proper_index_file | constructor].
Qed.

Lemma proper_no_empty_key (A : artifact_map) : proper_keys A -> no_empty_key A.
Proof.
  intros H k sub Hin. destruct (H k sub Hin) as [[nk _] Hsub].
  split; [exact nk|]. intros j L Hj. now destruct (Hsub j L Hj).
Qed.

Lemma site_plan_proper (A : artifact_map) :
  proper_keys A -> Forall (Forall proper) (site_plan A).
Proof.
  intros H. apply Forall_forall. intros q Hq.
  unfold site_plan in Hq. apply in_flat_map in Hq.
  destruct Hq as ([k sub] & Hin & Hq). destruct (H k sub Hin) as [pk psub].
  simpl in Hq. destruct Hq as [<- | Hq].
  - constructor; [exact pk | constructor].
  - apply in_map_iff in Hq. destruct Hq as ([j L] & <- & Hj).
    constructor; [exact pk|]. constructor; [now apply (psub j L) | constructor].
Qed.

(** ** The file of a page after a complete run *)

Section SiteFiles.

Variables (script_dir : string) (ls synced : CompletedProcess) (opts : Namespace).
Variables (w w' : @World tree_fs) (A : artifact_map).
Hypothesis complete : @main tree_fs script_dir ls synced opts w = (Ok tt, w').
Hypothesis listed :
  fst (@get_bucket_directories tree_fs (verbose opts) ls w) = Ok A.
Hypothesis ordinary : proper_keys A.

Local Abbreviation web := (path_join script_dir OUTPUT_LOCATION).

(** With ordinary names for keys, the index file of a page of the site
    holds the template of that page when the run is over. *)
Lemma site_file_content (P1 P2 : list page) (p : list string)
      (template : list string) :
  site_pages web (default_base opts) A
  = P1 ++ (web +++ below p, template) :: P2 ->
  Forall name p -> Forall proper p ->
  TreeFS.read (fs w') (path_join (web +++ below p) INDEX_FILE)
  = Some (String.concat "" template).
Proof.
  intros E Hn Hp.
  pose proof (web_dir_open script_dir) as Hw.
  destruct (lister_returns _ _ _ listed) as (_ & _ & _ & inv).
  pose proof (named_of_lister inv (proper_no_empty_key ordinary)) as named.
  pose proof (site_plan_names named) as names.
  pose proof (site_plan_proper ordinary) as propers.
  pose proof (site_plan_nodup inv) as nd.
  pose proof (@site_pages_dirs web (default_base opts) A Hw named) as D.
  rewrite E, map_app in D. symmetry in D.
  apply map_eq_app in D. destruct D as (Q1 & Q2' & EQ & _ & E2).
  destruct Q2' as [|q Q2]; [discriminate|]. simpl in E2. injection E2 as Eq E2.
  rewrite EQ in names, propers, nd.
  apply Forall_app in names. destruct names as [_ names].
  apply Forall_app in propers. destruct propers as [_ propers].
  inversion names as [|? ? Hq names2]; subst.
  inversion propers as [|? ? _ propers2]; subst.
  assert (q = p) as ->.
  { apply (below_injective web); auto using names_slash_free. }
  apply NoDup_remove_2 in nd.
  unfold TreeFS.read.
  rewrite (@main_files script_dir ls synced opts w w' A complete listed). cbv zeta.
  change ((path_join script_dir OUTPUT_LOCATION,
           front_template (default_base opts) A)
          :: site_pages (path_join script_dir OUTPUT_LOCATION)
                        (default_base opts) A)
    with ([(path_join script_dir OUTPUT_LOCATION,
            front_template (default_base opts) A)]
          ++ site_pages (path_join script_dir OUTPUT_LOCATION)
                        (default_base opts) A).
  rewrite E, app_assoc, find_files_after; [reflexivity|].
  clear E EQ names propers. revert Q2 E2 names2 propers2 nd.
  induction P2 as [|[dir t] P2 IH]; intros Q2 E2 names2 propers2 nd;
    [constructor|].
  destruct Q2 as [|q Q2]; [discriminate|]. simpl in E2. injection E2 as <- E2.
  inversion names2 as [|? ? Hq' names3]; subst.
  inversion propers2 as [|? ? Pq' propers3]; subst.
  constructor.
  - cbn [fst]. rewrite !resolve_index by assumption.
    intros H. apply app_inv_head, app_inv_tail in H. subst q.
    apply nd, in_or_app. right. now left.
  - apply (IH Q2); auto.
    intros H. apply nd. apply in_app_or in H. apply in_or_app.
    destruct H as [H | H]; [now left | right; now right].
Qed.

End SiteFiles.

Section SiteTheorems.

Context {FSI : FileSystem}.

(** C5 (amended).  In a complete run of [main] on a map whose top-level
    keys and sub-keys are ordinary names (not empty, not [.], not [..]),
    for every top-level key: the directory named after the key, directly
    below the output root, is made sure of exactly once and the index
    file in it is written exactly once; the index has one link per
    sub-key of the key, in the order of the map, and its title line is
    SAL Topics for the capitalized key.  On the tree of directories, the
    path of that directory leads to the entry named after the key in the
    output root, and the index file there holds that page when the run
    is over. *)
Theorem C5_key_page_made_once
        (script_dir : string) (ls synced : CompletedProcess) (opts : Namespace)
        (w w' : World) (A : artifact_map) :
  main script_dir ls synced opts w = (Ok tt, w') ->
  fst (get_bucket_directories (verbose opts) ls w) = Ok A ->
  proper_keys A ->
  forall k sub, In (k, sub) A ->
    let web := path_join script_dir OUTPUT_LOCATION in
    path_join web k = web +++ "/" +++ k
    /\ TreeFS.resolve (path_join web k) = TreeFS.resolve web ++ [k]
    /\ nth_error (key_template (default_base opts) k sub) 3
       = Some ("<title>" +++ ("SAL Topics for " +++ Py.capitalize k)
               +++ "</title>" +++ nl)
    /\ key_template (default_base opts) k sub
       = template_head {| title := "SAL Topics for " +++ Py.capitalize k;
                          heading := None; link := false |} (default_base opts)
         ++ map (fun j => anchor_line j (display_text false j)) (Dict.keys sub)
         ++ template_foot
    /\ (exists tr, trace w' = trace w ++ tr
                   /\ key_page_claim web (default_base opts) tr k sub)
    /\ forall u u' : @World tree_fs,
         @main tree_fs script_dir ls synced opts u = (Ok tt, u') ->
         TreeFS.read (fs u') (path_join (path_join web k) INDEX_FILE)
         = Some (String.concat "" (key_template (default_base opts) k sub)).
Proof.
  intros complete listed ordinary k sub Hin web.
  pose proof (proper_no_empty_key ordinary) as ne.
  destruct (lister_returns _ _ _ listed) as (_ & _ & _ & inv).
  pose proof (named_of_lister inv ne) as named.
  pose proof (web_dir_open script_dir) as Hw. fold web in Hw.
  assert (nk : name k).
  { unfold named_entries in named. rewrite Forall_forall in named.
    now destruct (named _ Hin). }
  assert (pk : proper k) by now destruct (ordinary k sub Hin).
  pose proof (key_dir Hw nk) as D.
  destruct (in_split _ _ Hin) as (A1 & A2 & EA).
  assert (pages :
            site_pages web (default_base opts) A
            = site_pages web (default_base opts) A1
              ++ (web +++ below [k], key_template (default_base opts) k sub)
              :: (map (fun e => (path_join (path_join web k) (fst e),
                                 leaf_template (default_base opts) (fst e) (snd e)))
                      sub
                  ++ site_pages web (default_base opts) A2)).
  { rewrite EA at 1. rewrite site_pages_app. f_equal.
    change (site_pages web (default_base opts) ((k, sub) :: A2))
      with (key_pages web (default_base opts) k sub
            ++ site_pages web (default_base opts) A2).
    unfold key_pages. now rewrite D. }
  split; [|split; [|split; [reflexivity | split; [reflexivity | split]]]].
  - rewrite D. simpl. now rewrite append_empty_r.
  - rewrite D. apply resolve_below.
    + constructor; [now destruct nk | constructor].
    + constructor; [exact pk | constructor].
  - unfold key_page_claim. rewrite D.
    apply (@site_page_once _ script_dir ls synced opts w w' A complete listed
             _ _ [k] _ ne pages);
      [repeat (constructor; try assumption) | discriminate].
  - intros u u' run. rewrite D.
    assert (listed' :
              fst (@get_bucket_directories tree_fs (verbose opts) ls u) = Ok A).
    { destruct (@get_bucket_directories_result tree_fs (verbose opts) ls u)
        as [-> _].
      now destruct (get_bucket_directories_result (verbose opts) ls w) as [<- _]. }
    apply (@site_file_content script_dir ls synced opts u u' A run listed'
             ordinary _ _ [k] _ pages);
      repeat (constructor; try assumption).
Qed.

(** C4 (amended).  In a complete run of [main] on a map whose top-level
    keys and sub-keys are ordinary names (not empty, not [.], not [..]),
    for every (top-level key, sub-key) pair: the directory of the
    sub-key, below that of the key, is made sure of exactly once and the
    index file in it is written exactly once; the index has one link per
    leaf of the pair, in the order of the leaf list, and the text of a
    link is what follows the last underscore in what precedes the first
    period of the leaf name.  The front page and the page of the key are
    written with links whose text is only what precedes the first
    period.  On the tree of directories, the path of the directory leads
    to the entry named after the sub-key in the entry named after the
    key in the output root, and the index file there holds that page
    when the run is over. *)
Theorem C4_leaf_page_made_once
        (script_dir : string) (ls synced : CompletedProcess) (opts : Namespace)
        (w w' : World) (A : artifact_map) :
  main script_dir ls synced opts w = (Ok tt, w') ->
  fst (get_bucket_directories (verbose opts) ls w) = Ok A ->
  proper_keys A ->
  forall k sub j L, In (k, sub) A -> In (j, L) sub ->
    let web := path_join script_dir OUTPUT_LOCATION in
    let opts' := default_base opts in
    path_join (path_join web k) j = web +++ "/" +++ k +++ "/" +++ j
    /\ TreeFS.resolve (path_join (path_join web k) j)
       = TreeFS.resolve web ++ [k; j]
    /\ leaf_template opts' j L
       = template_head {| title := j; heading := Some j; link := true |} opts'
         ++ map (fun l => anchor_line l (display_text true l)) L
         ++ template_foot
    /\ (forall l, exists text,
           text_before "." l text /\ text_after "_" text (display_text true l))
    /\ (forall l, text_before "." l (display_text false l))
    /\ (exists tr,
         trace w' = trace w ++ tr
         /\ leaf_page_claim web opts' tr k j L
         /\ In (EvWrite (path_join web INDEX_FILE)
                  (template_head {| title := "SAL Topics Frontpage";
                                    heading := Some "Version of SAL Topics";
                                    link := false |} opts'
                   ++ map (fun k' => anchor_line k' (display_text false k'))
                          (Dict.keys A)
                   ++ template_foot)) tr
         /\ In (EvWrite (path_join (path_join web k) INDEX_FILE)
                  (template_head {| title := "SAL Topics for " +++ Py.capitalize k;
                                    heading := None; link := false |} opts'
                   ++ map (fun j' => anchor_line j' (display_text false j'))
                          (Dict.keys sub)
                   ++ template_foot)) tr)
    /\ forall u u' : @World tree_fs,
         @main tree_fs script_dir ls synced opts u = (Ok tt, u') ->
         TreeFS.read (fs u')
                     (path_join (path_join (path_join web k) j) INDEX_FILE)
         = Some (String.concat "" (leaf_template opts' j L)).
Proof.
  intros complete listed ordinary k sub j L Hin Hj web opts'.
  pose proof (proper_no_empty_key ordinary) as ne.
  destruct (lister_returns _ _ _ listed) as (_ & _ & _ & inv).
  pose proof (named_of_lister inv ne) as named.
  pose proof (web_dir_open script_dir) as Hw. fold web in Hw.
  assert (nk : name k /\ name j).
  { unfold named_entries in named. rewrite Forall_forall in named.
    destruct (named _ Hin) as [nk nsub]. split; [exact nk|].
    rewrite Forall_forall in nsub. exact (nsub _ Hj). }
  destruct nk as [nk nj].
  assert (pk : proper k /\ proper j).
  { destruct (ordinary k sub Hin) as [pk psub]. split; [exact pk|].
    exact (psub j L Hj). }
  destruct pk as [pk pj].
  pose proof (leaf_dir Hw nk nj) as D.
  destruct (in_split _ _ Hin) as (A1 & A2 & EA).
  destruct (in_split _ _ Hj) as (s1 & s2 & Es).
  pose (leaf_page := fun e : string * leaf_list =>
          (path_join (path_join web k) (fst e),
           leaf_template opts' (fst e) (snd e))).
  assert (pages :
            site_pages web opts' A
            = (site_pages web opts' A1
               ++ (path_join web k, key_template opts' k sub)
               :: map leaf_page s1)
              ++ (web +++ below [k; j], leaf_template opts' j L)
              :: (map leaf_page s2 ++ site_pages web opts' A2)).
  { rewrite EA at 1. rewrite site_pages_app.
    rewrite <- app_assoc. f_equal.
    change (site_pages web opts' ((k, sub) :: A2))
      with (key_pages web opts' k sub ++ site_pages web opts' A2).
    unfold key_pages. fold leaf_page. rewrite Es at 2.
    rewrite map_app. simpl. rewrite <- app_assoc. simpl.
    unfold leaf_page at 2. simpl. now rewrite D. }
  split; [|split; [|split; [reflexivity | split; [|split; [|split]]]]].
  - rewrite D. simpl. now rewrite append_empty_r.
  - rewrite D. apply resolve_below.
    + constructor; [now destruct nk|]. constructor; [now destruct nj | constructor].
    + constructor; [exact pk|]. constructor; [exact pj | constructor].
  - apply display_text_truncated.
  - apply display_text_plain.
  - destruct (@site_page_once _ script_dir ls synced opts w w' A complete listed
                _ _ [k; j] _ ne pages) as (tr & T & once);
      [repeat (constructor; try assumption) | discriminate |].
    exists tr. split; [exact T|]. split.
    + unfold leaf_page_claim. fold web opts' in once. now rewrite D.
    + destruct (@front_page_written _ script_dir ls synced opts w w' A
                  complete listed) as (tr1 & T1 & F1).
      destruct (@site_page_written _ script_dir ls synced opts w w' A
                  complete listed
                  (path_join web k) (key_template opts' k sub))
        as (tr2 & T2 & F2).
      { fold web. fold opts'. rewrite EA, site_pages_app. apply in_or_app.
        right. now left. }
      rewrite T in T1, T2. apply app_inv_head in T1, T2. subst tr1 tr2.
      split; [exact F1 | exact F2].
  - intros u u' run. rewrite D.
    assert (listed' :
              fst (@get_bucket_directories tree_fs (verbose opts) ls u) = Ok A).
    { destruct (@get_bucket_directories_result tree_fs (verbose opts) ls u)
        as [-> _].
      now destruct (get_bucket_directories_result (verbose opts) ls w) as [<- _]. }
    apply (@site_file_content script_dir ls synced opts u u' A run listed'
             ordinary _ _ [k; j] _ pages);
      repeat (constructor; try assumption).
Qed.

End SiteTheorems.

Lemma triples_of_skipped (lines : list string) :
  Forall skipped_line lines -> triples_of lines = Ok [].
Proof.
  induction 1 as [|line lines (values & Hv & Hs) _ IH]; simpl; [reflexivity|].
  unfold line_triple. rewrite Hv. simpl. now rewrite Hs, IH.
Qed.

Section FaultTheorems.

Context {FSI : FileSystem}.

(** C6.  When a line of the listing has a value that passes the sentinel
    and exclusion tests and splits into fewer than three segments, the
    lister raises the indexing fault instead of returning a map, and
    [main] stops with that fault without having touched a file. *)
Theorem C6_short_value_raises_index_error
        (vb : nat) (ls : CompletedProcess) (line values : string) (w : World) :
  In line (Py.split newline (stdout ls)) ->
  values_of line = Ok values ->
  values <> "b" -> ~ excluded values ->
  List.length (Py.split os_sep values) < 3 ->
  fst (get_bucket_directories vb ls w) = Raise IndexError
  /\ forall script_dir synced opts,
       verbose opts = vb ->
       fst (main script_dir ls synced opts w) = Raise IndexError
       /\ fs (snd (main script_dir ls synced opts w)) = fs w.
Proof.
  intros Hin Hv Hb Hx short.
  assert (fault : fst (get_bucket_directories vb ls w) = Raise IndexError).
  { destruct (get_bucket_directories_result vb ls w) as [-> _].
    rewrite scan_triples.
    rewrite (triples_of_fault _ _ Hin (line_triple_short _ Hv Hb Hx short)).
    reflexivity. }
  split; [exact fault|].
  intros script_dir synced opts <-.
  rewrite (main_lister_fault script_dir ls synced opts w fault). simpl.
  split; [reflexivity|].
  now destruct (get_bucket_directories_result (verbose opts) ls w).
Qed.

(** C8.  In every map the lister returns, no top-level key has an empty
    sub-map and no (top-level key, sub-key) pair has an empty leaf
    list. *)
Theorem C8_no_empty_structure
        (vb : nat) (ls : CompletedProcess) (w : World) (A : artifact_map) :
  fst (get_bucket_directories vb ls w) = Ok A ->
  forall k sub, In (k, sub) A ->
    sub <> [] /\ forall j L, In (j, L) sub -> L <> [].
Proof.
  intros listed k sub Hin.
  destruct (lister_returns _ _ _ listed) as (_ & _ & _ & _ & good).
  rewrite Forall_forall in good.
  destruct (good _ Hin) as (_ & nonempty & _ & leafs). simpl in *.
  split; [exact nonempty|].
  intros j L Hj. rewrite Forall_forall in leafs.
  now destruct (leafs _ Hj).
Qed.

(** C9 (amended).  The exclusion test is substring containment on the
    whole value: a value is skipped exactly when it is the sentinel or
    one of the excluded strings occurs anywhere in it, also inside a
    longer segment; and every value that is not skipped and has at least
    three segments is inserted: its turn of the loop raises nothing and
    appends its third segment to the leaves of its first two, and it is
    there in the map the lister returns. *)
Theorem C9_exclusion_is_substring_containment :
  (forall values,
      skipped values = true <->
      values = "b" \/ exists exclude, In exclude LS_EXCLUDES
                                      /\ occurs_in exclude values)
  /\ (forall before after, skipped (before +++ "images" +++ after) = true)
  /\ (forall line values k j l deeper,
         values_of line = Ok values ->
         values <> "b" ->
         (forall exclude, In exclude LS_EXCLUDES -> ~ occurs_in exclude values) ->
         Py.split os_sep values = k :: j :: l :: deeper ->
         (forall vb A0 (w : World),
             exists A1, fst (line_step vb A0 line w) = Ok A1
                        /\ leaves A1 k j = leaves A0 k j ++ [l])
         /\ (forall vb ls (w : World) A,
               In line (Py.split newline (stdout ls)) ->
               fst (get_bucket_directories vb ls w) = Ok A ->
               Dict.mem k A = true /\ Dict.mem j (get_or k A []) = true
               /\ In l (leaves A k j))).
Proof.
  split; [exact skipped_spec | split].
  - intros before after. apply skipped_spec. right.
    exists "images". split; [simpl; tauto | now exists before, after].
  - intros line values k j l deeper Hv Hb Hx Hs.
    assert (Hx' : ~ excluded values).
    { intros (exclude & H1 & H2). exact (Hx exclude H1 H2). }
    split.
    + intros vb A0 w. exists (add_leaf k j l A0).
      destruct (line_step_result vb A0 line w) as [-> _].
      unfold step_result. rewrite Hv. simpl.
      assert (K : skipped values = false) by now apply skipped_false.
      rewrite K, Hs. split; [reflexivity|].
      now rewrite leaves_add_leaf, !String.eqb_refl.
    + intros vb ls w A Hin listed.
      destruct (lister_returns _ _ _ listed) as (ts & Ets & -> & _).
      assert (Hk : In (k, j, l) ts).
      { apply (triples_provenance _ k j l Ets).
        exists line, values, deeper. repeat split; auto. }
      split; [|split].
      * apply mem_build. right. now exists j, l.
      * apply mem_sub_build. right. now exists l.
      * rewrite leaves_build. simpl. now apply leaves_of_in.
Qed.

(** C10.  A line whose value passes the tests and has more than three
    segments raises nothing and records its first three segments only:
    the third is appended to the leaves of the first two and no other
    leaf list changes; and the lister returns what it returns when the
    line is replaced by one whose value is those three segments alone.
    The turn of the loop for the line returns a map in which nothing
    else is new: no other top-level key, no other sub-key.  In the map
    the lister returns for a listing with the line, the first segment is
    a top-level key, the second a sub-key under it and the third a leaf
    of the two, and every leaf of the map is the third segment of a kept
    line under its first two; when all the other lines are passed over,
    that map holds the three segments of the line and nothing else. *)
Theorem C10_deeper_segments_dropped
        (vb : nat) (ls ls' : CompletedProcess) (before after : list string)
        (line line' values values' k j l : string) (deeper : list string)
        (w : World) :
  Py.split newline (stdout ls) = before ++ line :: after ->
  Py.split newline (stdout ls') = before ++ line' :: after ->
  values_of line = Ok values ->
  values <> "b" -> ~ excluded values ->
  Py.split os_sep values = k :: j :: l :: deeper -> deeper <> [] ->
  values_of line' = Ok values' ->
  values' <> "b" -> ~ excluded values' ->
  Py.split os_sep values' = [k; j; l] ->
  (forall A, exists A',
        record_items A (Py.split os_sep values) = Ok A'
        /\ forall k' j',
             leaves A' k' j'
             = leaves A k' j'
               ++ (if String.eqb k k' && String.eqb j j' then [l] else []))
  /\ fst (get_bucket_directories vb ls w) = fst (get_bucket_directories vb ls' w)
  /\ (forall vb0 A0 (w0 : World),
         exists A1,
           fst (line_step vb0 A0 line w0) = Ok A1
           /\ (forall k' j',
                  leaves A1 k' j'
                  = leaves A0 k' j'
                    ++ (if String.eqb k k' && String.eqb j j' then [l] else []))
           /\ (forall k', Dict.mem k' A1 = String.eqb k k' || Dict.mem k' A0)
           /\ (forall k' j',
                  Dict.mem j' (get_or k' A1 [])
                  = (String.eqb k k' && String.eqb j j')
                    || Dict.mem j' (get_or k' A0 [])))
  /\ (forall A,
         fst (get_bucket_directories vb ls w) = Ok A ->
         Dict.mem k A = true
         /\ Dict.mem j (get_or k A []) = true
         /\ In l (leaves A k j)
         /\ forall k' j' l',
              In l' (leaves A k' j') ->
              kept_line (before ++ line :: after) k' j' l')
  /\ (Forall skipped_line before -> Forall skipped_line after ->
      fst (get_bucket_directories vb ls w) = Ok [(k, [(j, [l])])]).
Proof.
  intros E E' Hv Hb Hx Hs _ Hv' Hb' Hx' Hs'.
  assert (K : skipped values = false) by now apply skipped_false.
  split; [|split; [|split; [|split]]].
  - intros A. exists (add_leaf k j l A). rewrite Hs. split; [reflexivity|].
    intros k' j'. apply leaves_add_leaf.
  - destruct (get_bucket_directories_result vb ls w) as [-> _].
    destruct (get_bucket_directories_result vb ls' w) as [-> _].
    rewrite !scan_triples, E, E', !triples_of_app. simpl.
    now rewrite (line_triple_kept _ Hv Hb Hx Hs),
                (line_triple_kept _ Hv' Hb' Hx' Hs').
  - intros vb0 A0 w0. exists (add_leaf k j l A0).
    destruct (line_step_result vb0 A0 line w0) as [-> _].
    unfold step_result. rewrite Hv. simpl. rewrite K, Hs.
    split; [reflexivity|]. split; [|split].
    + intros k' j'. apply leaves_add_leaf.
    + intros k'. apply mem_add_leaf.
    + intros k' j'. apply mem_sub_add_leaf.
  - intros A listed.
    destruct (lister_returns _ _ _ listed) as (ts & Ets & -> & _).
    rewrite E in Ets.
    assert (Hk : In (k, j, l) ts).
    { apply (triples_provenance _ k j l Ets).
      exists line, values, deeper. repeat split; auto.
      apply in_or_app. right. now left. }
    split; [|split; [|split]].
    + apply mem_build. right. now exists j, l.
    + apply mem_sub_build. right. now exists l.
    + rewrite leaves_build. simpl. now apply leaves_of_in.
    + intros k' j' l' Hl. rewrite leaves_build in Hl. simpl in Hl.
      apply leaves_of_in in Hl. now apply (triples_provenance _ k' j' l' Ets).
  - intros Sb Sa.
    destruct (get_bucket_directories_result vb ls w) as [-> _].
    rewrite scan_triples, E, triples_of_app, (triples_of_skipped Sb).
    simpl. rewrite (line_triple_kept _ Hv Hb Hx Hs), (triples_of_skipped Sa).
    simpl. unfold add_leaf, get_or. simpl. now rewrite !String.eqb_refl.
Qed.

End FaultTheorems.

(** ** The sync at the end *)

Section SyncTheorems.

Context {FSI : FileSystem}.

Lemma html_template_base (content : page_content) (links : list string)
      (o1 o2 : Namespace) :
  base o1 = base o2 ->
  html_template content links o1 = html_template content links o2.
Proof.
  intros E. unfold html_template, template_head, base_text. now rewrite E.
Qed.

Lemma write_index_base (path : string) (content : page_content)
      (links : list string) (o1 o2 : Namespace) (w : World) :
  base o1 = base o2 ->
  write_html_index_file path content links o1 w
  = write_html_index_file path content links o2 w.
Proof.
  intros E. unfold write_html_index_file.
  now rewrite (@html_template_base content links o1 o2 E).
Qed.

Lemma for_each_ext {A} (xs : list A) (f g : A -> M unit) :
  (forall x w, f x w = g x w) -> forall w, for_each xs f w = for_each xs g w.
Proof.
  intros E. induction xs as [|x xs IH]; intros w; simpl; [reflexivity|].
  unfold bind. rewrite E. destruct (g x w) as [[[]|e] w1]; [apply IH | reflexivity].
Qed.

Lemma make_html_base (path key : string) (items : sub_map) (o1 o2 : Namespace)
      (w : World) :
  base o1 = base o2 ->
  make_html path key items o1 w = make_html path key items o2 w.
Proof.
  intros E. unfold make_html, bind.
  destruct (check_and_make_dirs (path_join path key) w) as [[[]|e] w1];
    [|reflexivity].
  match goal with
  | |- context [write_html_index_file ?p ?c ?l o1 w1] =>
      rewrite (@write_index_base p c l o1 o2 w1 E);
      destruct (write_html_index_file p c l o2 w1) as [[[]|e] w2]
  end; [|reflexivity].
  apply for_each_ext. intros [kitem vitem] w3.
  destruct (check_and_make_dirs (path_join (path_join path key) kitem) w3)
    as [[[]|e] w4]; [|reflexivity].
  apply write_index_base, E.
Qed.

Lemma echo_decoded (lines : list string) (texts : list (list N)) (w : World) :
  Forall2 (fun line text => decode_utf8 line = Ok text) lines texts ->
  for_each lines print_decoded w
  = (Ok tt, {| fs := fs w; trace := trace w ++ map EvPrintText texts |}).
Proof.
  intros H. revert w. induction H as [|line text lines texts E _ IH]; intros w.
  - simpl. unfold ret. rewrite app_nil_r. now destruct w.
  - simpl. unfold bind at 1, print_decoded, bind, lift, emit. rewrite E.
    rewrite IH. simpl. now rewrite <- app_assoc.
Qed.

Lemma decodable_texts (lines : list string) :
  Forall (fun line => exists text, decode_utf8 line = Ok text) lines ->
  exists texts, Forall2 (fun line text => decode_utf8 line = Ok text) lines texts.
Proof.
  induction 1 as [|line lines [text E] _ [texts IH]].
  - exists []. constructor.
  - exists (text :: texts). now constructor.
Qed.

(** C7 (amended).  With the sync enabled, [main] never looks at the
    exit status of the sync command (nor at its error output): the whole
    outcome is the same for any two of them.  When the run without sync
    completes and, for a verbosity above zero, every line of the output
    of the sync command is well-formed UTF-8, the run with sync
    completes as well, with the same files, whatever the exit status;
    its trace is that of the run without sync, then the sync command,
    then, only when the verbosity is above zero, one printed line per
    line of the command's output. *)
Theorem C7_sync_exit_status_ignored
        (script_dir : string) (ls : CompletedProcess) (opts : Namespace)
        (w : World) (out err err' : string) (code code' : Z) :
  sync opts = true ->
  let synced := {| returncode := code; stdout := out; stderr := err |} in
  let synced' := {| returncode := code'; stdout := out; stderr := err' |} in
  main script_dir ls synced opts w = main script_dir ls synced' opts w
  /\ forall w0,
       main script_dir ls synced (without_sync opts) w = (Ok tt, w0) ->
       (0 < verbose opts ->
        Forall (fun line => exists text, decode_utf8 line = Ok text)
               (Py.split newline out)) ->
       exists echo,
         main script_dir ls synced opts w
         = (Ok tt,
            {| fs := fs w0;
               trace := trace w0
                        ++ EvRun (sync_argv (path_join script_dir OUTPUT_LOCATION))
                        :: echo |})
         /\ (verbose opts = 0 -> echo = [])
         /\ (0 < verbose opts ->
             exists texts,
               Forall2 (fun line text => decode_utf8 line = Ok text)
                       (Py.split newline out) texts
               /\ echo = map EvPrintText texts).
Proof.
  intros on synced synced'. split; [reflexivity|].
  intros w0 done decodable.
  assert (B : base (default_base (without_sync opts)) = base (default_base opts)).
  { unfold default_base, without_sync. simpl.
    destruct (base opts) eqn:E; simpl; congruence. }
  unfold main in *. cbv zeta in *.
  rewrite sync_default_base, on.
  rewrite sync_default_base in done. simpl sync in done.
  rewrite !verbose_default_base in *. simpl verbose in done.
  unfold bind at 1. unfold bind at 1 in done.
  destruct (get_bucket_directories (verbose opts) ls w) as [[A|e] w1];
    [|discriminate].
  unfold bind at 1. unfold bind at 1 in done.
  match type of done with
  | context [write_html_index_file ?p ?c ?l ?o w1] =>
      rewrite (@write_index_base p c l o (default_base opts) w1 B) in done;
      destruct (write_html_index_file p c l (default_base opts) w1)
        as [[[]|e] w2]
  end; [|discriminate].
  unfold bind at 1. unfold bind at 1 in done.
  rewrite (@for_each_ext _ _ _
             (fun dirkey => make_html (path_join script_dir OUTPUT_LOCATION)
                                      dirkey (get_or dirkey A [])
                                      (default_base opts))) in done
    by (intros x w3; now apply make_html_base).
  destruct (for_each _ _ w2) as [[[]|e] w3]; [|discriminate].
  unfold ret in done. injection done as <-.
  unfold subprocess_run, bind, emit, ret. simpl.
  destruct (verbose opts) as [|n] eqn:V; simpl.
  - exists []. repeat split; [intros H; inversion H].
  - destruct (decodable_texts (decodable (Nat.lt_0_succ n))) as [texts T].
    exists (map EvPrintText texts). rewrite (echo_decoded _ T). simpl.
    rewrite <- app_assoc. repeat split; [discriminate|].
    intros _. now exists texts.
Qed.

End SyncTheorems.

(** ** The claims on sample runs *)

Lemma kept_by_test (values : string) :
  skipped values = false -> values <> "b" /\ ~ excluded values.
Proof. apply skipped_false. Qed.

(** The example of the specification: the listing line, the map, and the
    anchor of the leaf page. *)
Example spec_example :
  fst (@get_bucket_directories tree_fs 0
         (completed 0%Z "2021-01-01 00:00:00 123 topicsA/csc1/foo_bar.html")
         sample_world)
  = Ok [("topicsA", [("csc1", ["foo_bar.html"])])]
  /\ anchor_line "foo_bar.html" (display_text true "foo_bar.html")
     = "<a href=foo_bar.html>bar</a><br />" +++ nl.
Proof. split; vm_compute; reflexivity. Qed.

(** Why the names [.] and [..] are set apart: the directory of a key
    [.] is the output root itself, so the page of the key replaces the
    front page; and the directory of a sub-key below a key [..] can be
    the output root again. *)
Example dot_keys_share_the_front_page :
  fst (sample_run dot_key) = Ok tt
  /\ fst (@get_bucket_directories tree_fs 0 (completed 0%Z dot_key) sample_world)
     = Ok [(".", [("csc1", ["foo_bar.html"])])]
  /\ TreeFS.resolve (path_join (path_join "/repo" OUTPUT_LOCATION) ".")
     = TreeFS.resolve (path_join "/repo" OUTPUT_LOCATION)
  /\ TreeFS.read (fs (snd (sample_run dot_key))) "/repo/website/index.html"
     = Some (String.concat ""
               (key_template (default_base plain_opts) "."
                             [("csc1", ["foo_bar.html"])]))
  /\ fst (sample_run dot_dot_key) = Ok tt
  /\ fst (@get_bucket_directories tree_fs 0 (completed 0%Z dot_dot_key)
            sample_world)
     = Ok [("..", [("website", ["foo_bar.html"])])]
  /\ TreeFS.resolve
       (path_join (path_join (path_join "/repo" OUTPUT_LOCATION) "..") "website")
     = TreeFS.resolve (path_join "/repo" OUTPUT_LOCATION)
  /\ TreeFS.read (fs (snd (sample_run dot_dot_key))) "/repo/website/index.html"
     = Some (String.concat ""
               (leaf_template (default_base plain_opts) "website"
                              ["foo_bar.html"])).
Proof. repeat split; vm_compute; reflexivity. Qed.

(** C1 (defect).  [main] writes the front page without making sure of
    the output root first: from a checkout that has no [website]
    directory the first call to the file system is the write of
    [website/index.html], no test or creation of the directory precedes
    it, and the run stops with [FileNotFoundError]. *)
Theorem C1_front_page_written_without_check :
  @main tree_fs "/fresh" (completed 0%Z two_topics) (completed 0%Z "") plain_opts
        fresh_world
  = (Raise FileNotFoundError,
     {| fs := fs fresh_world;
        trace := [EvRun ls_argv;
                  EvWrite "/fresh/website/index.html"
                          (front_template (default_base plain_opts)
                                          two_topics_map)] |}).
Proof. vm_compute. reflexivity. Qed.

Lemma C2_witness :
  exists A,
    fst (@get_bucket_directories tree_fs 0 (completed 0%Z two_topics) sample_world)
    = Ok A
    /\ (forall k, Dict.mem k A = true <->
                  exists j l, In (k, j, l)
                                 [("topicsA", "csc1", "foo_bar.html");
                                  ("topicsA", "csc1", "foo_baz.html")])
    /\ (forall k j, Dict.mem j (get_or k A []) = true <->
                    exists l, In (k, j, l)
                                 [("topicsA", "csc1", "foo_bar.html");
                                  ("topicsA", "csc1", "foo_baz.html")])
    /\ (forall k j, leaves A k j
                    = leaves_of k j [("topicsA", "csc1", "foo_bar.html");
                                     ("topicsA", "csc1", "foo_baz.html")]).
Proof.
  apply (@C2_well_formed_listing_exact_map tree_fs 0 (completed 0%Z two_topics)).
  change (Py.split newline (stdout (completed 0%Z two_topics)))
    with ["2021-01-01 00:00:00 123 topicsA/csc1/foo_bar.html";
          "2021-01-01 00:00:01 456 topicsA/csc1/foo_baz.html"].
  constructor; [|constructor; [|constructor]].
  - exists "topicsA/csc1/foo_bar.html".
    split; [vm_compute; reflexivity|].
    destruct (@kept_by_test "topicsA/csc1/foo_bar.html" eq_refl) as [H1 H2].
    repeat split; [exact H1 | exact H2].
  - exists "topicsA/csc1/foo_baz.html".
    split; [vm_compute; reflexivity|].
    destruct (@kept_by_test "topicsA/csc1/foo_baz.html" eq_refl) as [H1 H2].
    repeat split; [exact H1 | exact H2].
Defined.

Lemma C3_witness :
  @get_bucket_directories tree_fs 0
     (completed 0%Z ("2021-01-01 00:00:00 123 topicsA/csc1/foo_bar.html" +++ nl
                   +++ "2021-01-01 00:00:00 99 css/default.css"))
     sample_world
  = @get_bucket_directories tree_fs 0
      (completed 0%Z "2021-01-01 00:00:00 123 topicsA/csc1/foo_bar.html")
      sample_world.
Proof.
  refine (proj1 (@C3_excluded_lines_leave_no_entry tree_fs 0 _ _
                   ["2021-01-01 00:00:00 123 topicsA/csc1/foo_bar.html"] []
                   "2021-01-01 00:00:00 99 css/default.css" "css/default.css"
                   sample_world _ _ _ _)).
  - vm_compute. reflexivity.
  - vm_compute. reflexivity.
  - vm_compute. reflexivity.
  - right. exists "css". split; [simpl; tauto|].
    exists "", "/default.css". reflexivity.
Defined.

Lemma C6_witness :
  fst (@get_bucket_directories tree_fs 0 (completed 0%Z one_segment) sample_world)
  = Raise IndexError.
Proof.
  destruct (@kept_by_test "README" eq_refl) as [H1 H2].
  refine (proj1 (@C6_short_value_raises_index_error tree_fs 0
                   (completed 0%Z one_segment) one_segment "README" sample_world
                   _ _ H1 H2 _)).
  - left. reflexivity.
  - vm_compute. reflexivity.
  - vm_compute. lia.
Defined.

Lemma C8_witness :
  [("csc1", ["foo_bar.html"; "foo_baz.html"])] <> []
  /\ ["foo_bar.html"; "foo_baz.html"] <> [].
Proof.
  destruct (@C8_no_empty_structure tree_fs 0 (completed 0%Z two_topics)
              sample_world two_topics_map)
    with (k := "topicsA") (sub := [("csc1", ["foo_bar.html"; "foo_baz.html"])])
    as [H1 H2].
  - vm_compute. reflexivity.
  - left. reflexivity.
  - split; [exact H1|].
    apply (H2 "csc1"). left. reflexivity.
Defined.

Lemma C9_witness :
  Dict.mem "topicsA" two_topics_map = true
  /\ Dict.mem "csc1" (get_or "topicsA" two_topics_map []) = true
  /\ In "foo_baz.html" (leaves two_topics_map "topicsA" "csc1").
Proof.
  destruct (@kept_by_test "topicsA/csc1/foo_baz.html" eq_refl) as [H1 H2].
  refine (proj2 (proj2 (proj2 (@C9_exclusion_is_substring_containment tree_fs))
                   "2021-01-01 00:00:01 456 topicsA/csc1/foo_baz.html"
                   "topicsA/csc1/foo_baz.html" "topicsA" "csc1" "foo_baz.html" []
                   _ H1 _ _)
            0 (completed 0%Z two_topics) sample_world two_topics_map _ _).
  - vm_compute. reflexivity.
  - intros exclude Hin Hoc. apply H2. now exists exclude.
  - reflexivity.
  - right. left. reflexivity.
  - vm_compute. reflexivity.
Defined.

(** The claim as it stands fails on a value with one segment: it is not
    the sentinel and holds no excluded substring, and it is not
    inserted, since the lister raises. *)
Lemma C9_counterexample :
  values_of one_segment = Ok "README"
  /\ "README" <> "b"
  /\ Forall (fun exclude => Py.contains exclude "README" = false) LS_EXCLUDES
  /\ fst (@get_bucket_directories tree_fs 0 (completed 0%Z one_segment) sample_world)
     = Raise IndexError.
Proof.
  split; [vm_compute; reflexivity|].
  split; [discriminate|].
  split; [repeat constructor | vm_compute; reflexivity].
Qed.

Lemma C10_witness :
  fst (@get_bucket_directories tree_fs 0
         (completed 0%Z ("2021-01-01 00:00:00 123 topicsA/csc1/foo/bar.html" +++ nl))
         sample_world)
  = Ok [("topicsA", [("csc1", ["foo"])])]
  /\ fst (@get_bucket_directories tree_fs 0
            (completed 0%Z ("2021-01-01 00:00:00 123 topicsA/csc1/foo/bar.html"
                            +++ nl))
            sample_world)
     = fst (@get_bucket_directories tree_fs 0
              (completed 0%Z ("2021-01-01 00:00:00 123 topicsA/csc1/foo" +++ nl))
              sample_world).
Proof.
  destruct (@kept_by_test "topicsA/csc1/foo/bar.html" eq_refl) as [H1 H2].
  destruct (@kept_by_test "topicsA/csc1/foo" eq_refl) as [H3 H4].
  destruct (@C10_deeper_segments_dropped tree_fs 0
              (completed 0%Z ("2021-01-01 00:00:00 123 topicsA/csc1/foo/bar.html"
                              +++ nl))
              (completed 0%Z ("2021-01-01 00:00:00 123 topicsA/csc1/foo" +++ nl))
              [] [""]
              "2021-01-01 00:00:00 123 topicsA/csc1/foo/bar.html"
              "2021-01-01 00:00:00 123 topicsA/csc1/foo"
              "topicsA/csc1/foo/bar.html" "topicsA/csc1/foo"
              "topicsA" "csc1" "foo" ["bar.html"] sample_world)
    as (_ & same & _ & _ & only).
  - vm_compute. reflexivity.
  - vm_compute. reflexivity.
  - vm_compute. reflexivity.
  - exact H1.
  - exact H2.
  - vm_compute. reflexivity.
  - discriminate.
  - vm_compute. reflexivity.
  - exact H3.
  - exact H4.
  - vm_compute. reflexivity.
  - split; [|exact same]. apply only; [constructor|].
    constructor; [|constructor]. exists "b". split; reflexivity.
Defined.

Lemma two_topics_proper_keys : proper_keys two_topics_map.
Proof.
  intros k sub [[= <- <-] | []]. split; [repeat split; discriminate|].
  intros j L [[= <- <-] | []]. repeat split; discriminate.
Qed.

Lemma C5_witness :
  (exists tr,
      trace (snd (sample_run two_topics)) = trace sample_world ++ tr
      /\ key_page_claim (path_join "/repo" OUTPUT_LOCATION)
                        (default_base plain_opts) tr
                        "topicsA" [("csc1", ["foo_bar.html"; "foo_baz.html"])])
  /\ TreeFS.resolve (path_join (path_join "/repo" OUTPUT_LOCATION) "topicsA")
     = ["repo"; "website"; "topicsA"]
  /\ TreeFS.read (fs (snd (sample_run two_topics)))
                 "/repo/website/topicsA/index.html"
     = Some (String.concat ""
               (key_template (default_base plain_opts) "topicsA"
                             [("csc1", ["foo_bar.html"; "foo_baz.html"])])).
Proof.
  destruct (@C5_key_page_made_once tree_fs "/repo" (completed 0%Z two_topics)
              (completed 0%Z "") plain_opts sample_world
              (snd (sample_run two_topics)) two_topics_map)
    with (k := "topicsA") (sub := [("csc1", ["foo_bar.html"; "foo_baz.html"])])
    as (_ & place & _ & _ & claim & file).
  - vm_compute. reflexivity.
  - vm_compute. reflexivity.
  - exact two_topics_proper_keys.
  - left. reflexivity.
  - split; [exact claim | split; [exact place|]].
    apply (file sample_world (snd (sample_run two_topics))).
    vm_compute. reflexivity.
Defined.

(** The claim as it stands fails for a top-level key that has an empty
    sub-key: the directory of the sub-key is that of the key, so the
    index file of the key is written twice and ends up with the leaves
    of the sub-key as its links, not with the sub-keys. *)
Lemma C5_counterexample :
  fst (sample_run empty_sub_key) = Ok tt
  /\ fst (@get_bucket_directories tree_fs 0 (completed 0%Z empty_sub_key)
            sample_world)
     = Ok [("topicsA", [("", ["foo_bar.html"])])]
  /\ ~ key_page_claim (path_join "/repo" OUTPUT_LOCATION)
                      (default_base plain_opts)
                      (trace (snd (sample_run empty_sub_key)))
                      "topicsA" [("", ["foo_bar.html"])]
  /\ TreeFS.read (fs (snd (sample_run empty_sub_key)))
                 "/repo/website/topicsA/index.html"
     = Some (String.concat ""
               (leaf_template (default_base plain_opts) "" ["foo_bar.html"]))
  /\ TreeFS.read (fs (snd (sample_run empty_sub_key)))
                 "/repo/website/topicsA/index.html"
     <> Some (String.concat ""
                (key_template (default_base plain_opts) "topicsA"
                              [("", ["foo_bar.html"])])).
Proof.
  split; [vm_compute; reflexivity|].
  split; [vm_compute; reflexivity|].
  split; [|split; [vm_compute; reflexivity | vm_compute; discriminate]].
  intros [present H]. vm_compute in H. destruct present; discriminate H.
Qed.

Lemma C4_witness :
  (exists tr,
      trace (snd (sample_run two_topics)) = trace sample_world ++ tr
      /\ leaf_page_claim (path_join "/repo" OUTPUT_LOCATION)
                         (default_base plain_opts) tr
                         "topicsA" "csc1" ["foo_bar.html"; "foo_baz.html"])
  /\ TreeFS.resolve
       (path_join (path_join (path_join "/repo" OUTPUT_LOCATION) "topicsA") "csc1")
     = ["repo"; "website"; "topicsA"; "csc1"]
  /\ TreeFS.read (fs (snd (sample_run two_topics)))
                 "/repo/website/topicsA/csc1/index.html"
     = Some (String.concat ""
               (leaf_template (default_base plain_opts) "csc1"
                              ["foo_bar.html"; "foo_baz.html"])).
Proof.
  destruct (@C4_leaf_page_made_once tree_fs "/repo" (completed 0%Z two_topics)
              (completed 0%Z "") plain_opts sample_world
              (snd (sample_run two_topics)) two_topics_map)
    with (k := "topicsA") (sub := [("csc1", ["foo_bar.html"; "foo_baz.html"])])
         (j := "csc1") (L := ["foo_bar.html"; "foo_baz.html"])
    as (_ & place & _ & _ & _ & (tr & T & claim & _) & file).
  - vm_compute. reflexivity.
  - vm_compute. reflexivity.
  - exact two_topics_proper_keys.
  - left. reflexivity.
  - left. reflexivity.
  - split; [exists tr; split; [exact T | exact claim] | split; [exact place|]].
    apply (file sample_world (snd (sample_run two_topics))).
    vm_compute. reflexivity.
Defined.

(** The claim as it stands fails for a pair whose top-level key is
    empty and whose sub-key is also a top-level key: the directory of
    the sub-key is that of the other key, so its index file is written
    twice and ends up as the page of that key, without the leaves of the
    pair. *)
Lemma C4_counterexample :
  fst (sample_run shadowed_pair) = Ok tt
  /\ fst (@get_bucket_directories tree_fs 0 (completed 0%Z shadowed_pair)
            sample_world)
     = Ok [("", [("topicsA", ["foo_bar.html"])]);
           ("topicsA", [("csc1", ["foo_baz.html"])])]
  /\ ~ leaf_page_claim (path_join "/repo" OUTPUT_LOCATION)
                       (default_base plain_opts)
                       (trace (snd (sample_run shadowed_pair)))
                       "" "topicsA" ["foo_bar.html"]
  /\ TreeFS.read (fs (snd (sample_run shadowed_pair)))
                 (path_join (path_join (path_join "/repo" OUTPUT_LOCATION) "")
                            "topicsA" +++ "/index.html")
     = Some (String.concat ""
               (key_template (default_base plain_opts) "topicsA"
                             [("csc1", ["foo_baz.html"])]))
  /\ TreeFS.read (fs (snd (sample_run shadowed_pair)))
                 (path_join (path_join (path_join "/repo" OUTPUT_LOCATION) "")
                            "topicsA" +++ "/index.html")
     <> Some (String.concat ""
                (leaf_template (default_base plain_opts) "topicsA"
                               ["foo_bar.html"])).
Proof.
  split; [vm_compute; reflexivity|].
  split; [vm_compute; reflexivity|].
  split; [|split; [vm_compute; reflexivity | vm_compute; discriminate]].
  intros [present H]. vm_compute in H. destruct present; discriminate H.
Qed.

Lemma C7_witness :
  @main tree_fs "/repo" (completed 0%Z two_topics)
        {| returncode := 0%Z; stdout := "upload: index.html"; stderr := "" |}
        sync_opts sample_world
  = @main tree_fs "/repo" (completed 0%Z two_topics)
          {| returncode := 1%Z; stdout := "upload: index.html";
             stderr := "fatal error" |}
          sync_opts sample_world
  /\ exists echo,
       @main tree_fs "/repo" (completed 0%Z two_topics)
             {| returncode := 1%Z; stdout := "upload: index.html";
                stderr := "fatal error" |}
             sync_opts sample_world
       = (Ok tt,
          {| fs := fs (snd (sample_run two_topics));
             trace := trace (snd (sample_run two_topics))
                      ++ EvRun (sync_argv (path_join "/repo" OUTPUT_LOCATION))
                      :: echo |}).
Proof.
  split.
  - exact (proj1 (@C7_sync_exit_status_ignored tree_fs "/repo"
                    (completed 0%Z two_topics) sync_opts sample_world
                    "upload: index.html" "" "fatal error" 0%Z 1%Z eq_refl)).
  - destruct (proj2 (@C7_sync_exit_status_ignored tree_fs "/repo"
                       (completed 0%Z two_topics) sync_opts sample_world
                       "upload: index.html" "fatal error" "" 1%Z 0%Z eq_refl)
                    (snd (sample_run two_topics)))
      as (echo & R & _).
    + vm_compute. reflexivity.
    + intros _. constructor; [|constructor].
      eexists. vm_compute. reflexivity.
    + exists echo. exact R.
Defined.

(** The claim as it stands fails when the sync command, whatever its
    exit status, prints a line that is not well-formed UTF-8 and the
    verbosity is above zero: the site is written as in the run without
    sync, which completes, the command is run, and the echo of its
    output raises, so [main] does not complete. *)
Lemma C7_counterexample :
  sample_run two_topics
  = (Ok tt, snd (sample_run two_topics))
  /\ @main tree_fs "/repo" (completed 0%Z two_topics)
           (completed 0%Z (String (ascii_of_nat 255) ""))
           sync_opts sample_world
     = (Raise UnicodeDecodeError,
        {| fs := fs (snd (sample_run two_topics));
           trace := trace (snd (sample_run two_topics))
                    ++ [EvRun (sync_argv (path_join "/repo" OUTPUT_LOCATION))] |}).
Proof. split; vm_compute; reflexivity. Qed.

(** * Further properties of the code *)

(** ** The value of a listing line *)

Lemma mem_char_app (c : ascii) (a b : string) :
  Py.mem_char c (a +++ b) = Py.mem_char c a || Py.mem_char c b.
Proof.
  induction a as [|d a IH]; simpl; [reflexivity|].
  now rewrite IH, orb_assoc.
Qed.

Lemma plain_facts (c : ascii) :
  plain c = true ->
  Py.isspace c = false /\ Ascii.eqb c "'" = false
  /\ Py.repr_byte "'" c = String c "".
Proof.
  destruct c as [[] [] [] [] [] [] [] []]; vm_compute; intros H;
    try discriminate H; repeat split.
Qed.

Lemma plain_no_blank (s : string) :
  all_chars plain s = true ->
  all_chars (fun c => negb (Py.isspace c)) s = true.
Proof.
  induction s as [|c s IH]; [reflexivity|].
  simpl. intros H. apply andb_true_iff in H. destruct H as [Hc Hs].
  destruct (plain_facts c Hc) as (-> & _). now rewrite IH.
Qed.

Lemma plain_no_apostrophe (s : string) :
  all_chars plain s = true -> Py.mem_char "'" s = false.
Proof.
  induction s as [|c s IH]; [reflexivity|].
  simpl. intros H. apply andb_true_iff in H. destruct H as [Hc Hs].
  destruct (plain_facts c Hc) as (_ & -> & _). now apply IH.
Qed.

Lemma repr_body_app (q : ascii) (a b : string) :
  Py.repr_body q (a +++ b) = Py.repr_body q a +++ Py.repr_body q b.
Proof.
  induction a as [|c a IH]; simpl; [reflexivity|].
  now rewrite IH, append_assoc.
Qed.

Lemma repr_body_plain (s : string) :
  all_chars plain s = true -> Py.repr_body "'" s = s.
Proof.
  induction s as [|c s IH]; [reflexivity|].
  simpl. intros H. apply andb_true_iff in H. destruct H as [Hc Hs].
  destruct (plain_facts c Hc) as (_ & _ & ->). now rewrite IH.
Qed.

(** A run of characters without a blank is one word. *)
Lemma split_ws_aux_word (cur : option string) (t : string) :
  all_chars (fun c => negb (Py.isspace c)) t = true ->
  Py.split_ws_aux cur t
  = match cur with
    | Some w => [w +++ t]
    | None => match t with EmptyString => [] | _ => [t] end
    end.
Proof.
  revert cur; induction t as [|c t IH]; intros cur H.
  - destruct cur; simpl; [now rewrite append_empty_r | reflexivity].
  - simpl in H. apply andb_true_iff in H. destruct H as [Hc Ht].
    apply negb_true_iff in Hc. cbn [Py.split_ws_aux]. rewrite Hc.
    destruct cur as [w|]; rewrite (IH _ Ht).
    + now rewrite append_assoc.
    + reflexivity.
Qed.

(** The last word of a text that ends with a blank and a word. *)
Lemma split_ws_aux_last (cur : option string) (s t : string) :
  t <> "" -> all_chars (fun c => negb (Py.isspace c)) t = true ->
  Py.last_item (Py.split_ws_aux cur (s +++ String " " t)) = Ok t.
Proof.
  intros ne Ht.
  assert (T : Py.split_ws_aux None t = [t]).
  { rewrite (split_ws_aux_word None _ Ht). destruct t; [contradiction | reflexivity]. }
  revert cur; induction s as [|c s IH]; intros cur.
  - cbn [String.append Py.split_ws_aux].
    change (Py.isspace " ") with true. cbv iota.
    rewrite T. now destruct cur.
  - cbn [String.append Py.split_ws_aux].
    destruct (Py.isspace c); [|destruct cur; apply IH].
    destruct cur as [w|]; [|apply IH].
    specialize (IH None). cbn [Py.last_item].
    destruct (Py.split_ws_aux None (s +++ String " " t)); [discriminate IH | exact IH].
Qed.

Lemma rstrip_free (c : ascii) (s : string) :
  Py.mem_char c s = false -> Py.rstrip c s = s.
Proof.
  induction s as [|d s IH]; [reflexivity|].
  simpl. intros H. apply orb_false_iff in H. destruct H as [Hd Hs].
  rewrite (IH Hs), Hd. now destruct s.
Qed.

Lemma rstrip_app_free (c : ascii) (a s : string) :
  s <> "" -> Py.mem_char c s = false -> Py.rstrip c (a +++ s) = a +++ s.
Proof.
  intros ne free. induction a as [|d a IH]; [now apply rstrip_free|].
  cbn [String.append Py.rstrip]. rewrite IH.
  destruct (a +++ s) eqn:E; [|reflexivity].
  destruct a; simpl in E; [contradiction | discriminate].
Qed.

Lemma rstrip_app_sep (c : ascii) (s : string) :
  Py.rstrip c (s +++ String c "") = Py.rstrip c s.
Proof.
  induction s as [|d s IH].
  - simpl. now rewrite Ascii.eqb_refl.
  - cbn [String.append Py.rstrip]. now rewrite IH.
Qed.

Lemma strip_field (s : string) :
  plain_field s -> Py.strip "'" (s +++ "'") = s.
Proof.
  intros [ne Hs]. unfold Py.strip.
  destruct s as [|c s]; [contradiction|].
  pose proof (plain_no_apostrophe _ Hs) as free.
  simpl in Hs. apply andb_true_iff in Hs. destruct Hs as [Hc _].
  destruct (plain_facts c Hc) as (_ & E & _).
  cbn [String.append Py.lstrip]. rewrite E.
  change (String c (s +++ "'")) with (String c s +++ String "'" "").
  rewrite rstrip_app_sep. now apply rstrip_free.
Qed.

Lemma quote_without_apostrophe (s : string) :
  Py.mem_char "'" s = false -> Py.bytes_quote s = "'"%char.
Proof. intros H. unfold Py.bytes_quote. now rewrite H. Qed.

(** X1.  The value the lister takes from a line is its last field: for a
    line that holds no apostrophe and ends with a blank followed by a
    field of plain characters, [str(result).split()[-1].strip('\'')] is
    that field, whatever bytes come before. *)
Theorem X1_value_is_last_field (before last : string) :
  Py.mem_char "'" before = false -> plain_field last ->
  values_of (before +++ " " +++ last) = Ok last.
Proof.
  intros free [ne Hl].
  assert (q : Py.bytes_quote (before +++ " " +++ last) = "'"%char).
  { apply quote_without_apostrophe.
    rewrite !mem_char_app, free, (plain_no_apostrophe _ Hl). reflexivity. }
  assert (R : Py.bytes_repr (before +++ " " +++ last)
              = ("b'" +++ Py.repr_body "'" before) +++ String " " (last +++ "'")).
  { unfold Py.bytes_repr. rewrite q, !repr_body_app, (repr_body_plain _ Hl).
    change (Py.repr_body "'" " ") with " ".
    rewrite !append_assoc. reflexivity. }
  unfold values_of, Py.split_ws. rewrite R, split_ws_aux_last.
  - simpl rbind. f_equal. now apply strip_field.
  - now destruct last.
  - rewrite all_chars_app, (plain_no_blank _ Hl). reflexivity.
Qed.

Lemma X1_witness :
  values_of "2021-01-01 00:00:00 123 topicsA/csc1/foo_bar.html"
  = Ok "topicsA/csc1/foo_bar.html".
Proof.
  apply (@X1_value_is_last_field "2021-01-01 00:00:00 123"
                                 "topicsA/csc1/foo_bar.html").
  - reflexivity.
  - split; [discriminate | reflexivity].
Defined.

(** X2.  The lister splits the text of the [bytes] object, not the
    bytes: a line that is one field of plain characters, with no column
    before it, gives the field with the letter b and the opening
    apostrophe of that text still in front. *)
Theorem X2_single_field_keeps_prefix (only : string) :
  plain_field only -> values_of only = Ok ("b'" +++ only).
Proof.
  intros [ne Ho].
  assert (R : Py.bytes_repr only = ("b'" +++ only) +++ "'").
  { unfold Py.bytes_repr.
    rewrite (quote_without_apostrophe _ (plain_no_apostrophe _ Ho)).
    now rewrite (repr_body_plain _ Ho). }
  unfold values_of, Py.split_ws. rewrite R, split_ws_aux_word.
  - cbn [String.append Py.last_item rbind]. f_equal.
    unfold Py.strip. cbn [Py.lstrip]. change (Ascii.eqb "b" "'") with false.
    cbv iota.
    change (String "b" (String "'" (only +++ "'")))
      with (("b'" +++ only) +++ String "'" "").
    rewrite rstrip_app_sep.
    apply rstrip_app_free; [exact ne | now apply plain_no_apostrophe].
  - rewrite !all_chars_app, (plain_no_blank _ Ho). reflexivity.
Qed.

Lemma X2_witness :
  values_of "topicsA/csc1/foo_bar.html" = Ok "b'topicsA/csc1/foo_bar.html".
Proof.
  apply (@X2_single_field_keeps_prefix "topicsA/csc1/foo_bar.html").
  split; [discriminate | reflexivity].
Defined.

(** The value of a line that ends with a blank is what is left of the
    closing quote of the text alone. *)
Lemma value_after_blank (before : string) :
  values_of (before +++ " ") = Ok "" \/ values_of (before +++ " ") = Ok dquote.
Proof.
  unfold values_of, Py.split_ws, Py.bytes_repr.
  set (q := Py.bytes_quote (before +++ " ")).
  assert (Q : q = "'"%char \/ q = ascii_of_nat 34).
  { unfold q, Py.bytes_quote. destruct (_ && _); auto. }
  assert (R : String "b" (String q (Py.repr_body q (before +++ " ") +++ String q ""))
              = String "b" (String q (Py.repr_body q before))
                +++ String " " (String q "")).
  { rewrite repr_body_app.
    assert (B : Py.repr_body q " " = " ") by (destruct Q as [-> | ->]; reflexivity).
    rewrite B. cbn [String.append]. now rewrite append_assoc. }
  rewrite R, split_ws_aux_last.
  - destruct Q as [-> | ->]; [left | right]; reflexivity.
  - discriminate.
  - destruct Q as [-> | ->]; reflexivity.
Qed.

Section MoreListerFacts.

Context {FSI : FileSystem}.

(** X3.  A listing line that ends with a blank stops the lister: the
    last field of the text is then the closing quote alone, what is left
    of it has a single segment, and [items[1]] raises; [main] stops with
    that fault and leaves the files as they were. *)
Theorem X3_trailing_blank_raises
        (vb : nat) (ls : CompletedProcess) (before : string) (w : World) :
  In (before +++ " ") (Py.split newline (stdout ls)) ->
  fst (get_bucket_directories vb ls w) = Raise IndexError
  /\ forall script_dir synced opts,
       verbose opts = vb ->
       fst (main script_dir ls synced opts w) = Raise IndexError
       /\ fs (snd (main script_dir ls synced opts w)) = fs w.
Proof.
  intros Hin.
  assert (short : line_triple (before +++ " ") = Raise IndexError).
  { destruct (value_after_blank before) as [E | E];
      (apply (line_triple_short _ E);
       [discriminate | now apply skipped_false | simpl; lia]). }
  assert (fault : fst (get_bucket_directories vb ls w) = Raise IndexError).
  { destruct (get_bucket_directories_result vb ls w) as [-> _].
    now rewrite scan_triples, (triples_of_fault _ _ Hin short). }
  split; [exact fault|].
  intros script_dir synced opts <-.
  rewrite (main_lister_fault script_dir ls synced opts w fault). simpl.
  split; [reflexivity|].
  now destruct (get_bucket_directories_result (verbose opts) ls w).
Qed.

End MoreListerFacts.

Lemma X3_witness :
  fst (@get_bucket_directories tree_fs 0
         (completed 0%Z ("2021-01-01 00:00:00 123 topicsA/csc1/foo_bar.html" +++ nl
                         +++ "2021-01-01 00:00:01 456 topicsA/csc1/foo_baz.html "))
         sample_world)
  = Raise IndexError.
Proof.
  apply (@X3_trailing_blank_raises tree_fs 0 _
           "2021-01-01 00:00:01 456 topicsA/csc1/foo_baz.html" sample_world).
  right. left. reflexivity.
Defined.

(** ** The order of the keys *)

Lemma mem_keys {V} (k : string) (d : Dict.t V) :
  Dict.mem k d = existsb (String.eqb k) (Dict.keys d).
Proof.
  unfold Dict.mem. induction d as [|[k' v] d IH]; simpl; [reflexivity|].
  rewrite (String.eqb_sym k k'). destruct (String.eqb k' k); [reflexivity | exact IH].
Qed.

Lemma keys_add_leaf (k j l : string) (A : artifact_map) :
  Dict.keys (add_leaf k j l A)
  = if Dict.mem k A then Dict.keys A else Dict.keys A ++ [k].
Proof.
  unfold add_leaf. cbv zeta. rewrite (@keys_set sub_map).
  destruct (Dict.mem k A) eqn:E.
  - now rewrite E.
  - now rewrite (@mem_set sub_map), String.eqb_refl, (@keys_set sub_map), E.
Qed.

Lemma keys_build (ts : list triple) (A : artifact_map) :
  Dict.keys (build ts A)
  = Dict.keys A ++ first_seen (Dict.keys A) (map top_key ts).
Proof.
  revert A; induction ts as [|[[k j] l] ts IH]; intros A; simpl.
  - now rewrite app_nil_r.
  - rewrite IH, keys_add_leaf, <- mem_keys. change (top_key (k, j, l)) with k.
    destruct (Dict.mem k A); [reflexivity|].
    now rewrite <- app_assoc.
Qed.

Lemma sub_keys_build (ts : list triple) (A : artifact_map) (k : string) :
  Dict.keys (get_or k (build ts A) [])
  = Dict.keys (get_or k A [])
    ++ first_seen (Dict.keys (get_or k A [])) (map sub_key (under_key k ts)).
Proof.
  revert A; induction ts as [|[[k' j] l] ts IH]; intros A; simpl.
  - now rewrite app_nil_r.
  - rewrite IH, sub_add_leaf. change (top_key (k', j, l)) with k'.
    destruct (String.eqb_spec k' k) as [-> | ne]; [|reflexivity].
    cbn [map]. change (sub_key (k, j, l)) with j. cbn [first_seen].
    rewrite (@keys_set leaf_list), <- mem_keys.
    destruct (Dict.mem j (get_or k A [])); [reflexivity|].
    now rewrite <- app_assoc.
Qed.

Section MoreListerClaims.

Context {FSI : FileSystem}.

(** X4.  The map keeps the order of the listing: its top-level keys are
    the first segments of the kept lines, each once, in the order of
    their first occurrence, and the sub-keys of a top-level key are the
    second segments of the kept lines under that key, in the order of
    their first occurrence. *)
Theorem X4_keys_in_order_of_first_occurrence
        (vb : nat) (ls : CompletedProcess) (w : World) (A : artifact_map) :
  fst (get_bucket_directories vb ls w) = Ok A ->
  exists ts,
    triples_of (Py.split newline (stdout ls)) = Ok ts
    /\ Dict.keys A = first_seen [] (map top_key ts)
    /\ forall k, Dict.keys (get_or k A [])
                 = first_seen [] (map sub_key (under_key k ts)).
Proof.
  intros listed.
  destruct (lister_returns _ _ _ listed) as (ts & E & -> & _).
  exists ts. split; [exact E | split].
  - apply keys_build.
  - intros k. apply sub_keys_build.
Qed.

End MoreListerClaims.

Lemma X4_witness :
  exists ts,
    triples_of (Py.split newline
                  ("2021-01-01 00:00:00 1 v2/csc1/a_x.html" +++ nl
                   +++ "2021-01-01 00:00:00 2 v1/csc2/a_y.html" +++ nl
                   +++ "2021-01-01 00:00:00 3 v2/csc0/a_z.html"))
    = Ok ts
    /\ ["v2"; "v1"] = first_seen [] (map top_key ts)
    /\ forall k,
         Dict.keys (get_or k [("v2", [("csc1", ["a_x.html"]); ("csc0", ["a_z.html"])]);
                              ("v1", [("csc2", ["a_y.html"])])] [])
         = first_seen [] (map sub_key (under_key k ts)).
Proof.
  refine (@X4_keys_in_order_of_first_occurrence tree_fs 0
            (completed 0%Z ("2021-01-01 00:00:00 1 v2/csc1/a_x.html" +++ nl
                            +++ "2021-01-01 00:00:00 2 v1/csc2/a_y.html" +++ nl
                            +++ "2021-01-01 00:00:00 3 v2/csc0/a_z.html"))
            sample_world
            [("v2", [("csc1", ["a_x.html"]); ("csc0", ["a_z.html"])]);
             ("v1", [("csc2", ["a_y.html"])])] _).
  vm_compute. reflexivity.
Defined.

(** ** What a computation adds to the trace *)

Section Confinement.

Context {FSI : FileSystem}.

Variable P : event -> Prop.

Lemma confined_ret {A} (a : A) : confined P (ret a).
Proof. intros w. exists []. simpl. now rewrite app_nil_r. Qed.

Lemma confined_lift {A} (r : result A) : confined P (lift r).
Proof. intros w. exists []. simpl. now rewrite app_nil_r. Qed.

Lemma confined_emit (e : event) : P e -> confined P (emit e).
Proof. intros He w. exists [e]. simpl. auto. Qed.

Lemma confined_bind {A B} (m : M A) (k : A -> M B) :
  confined P m -> (forall a, confined P (k a)) -> confined P (bind m k).
Proof.
  intros Hm Hk w. unfold bind. destruct (Hm w) as (t1 & E1 & Q1).
  destruct (m w) as [[a|e] w1]; simpl in *.
  - destruct (Hk a w1) as (t2 & E2 & Q2).
    exists (t1 ++ t2). rewrite E2, E1, app_assoc.
    split; [reflexivity | now apply Forall_app].
  - now exists t1.
Qed.

Lemma confined_when (b : bool) (m : M unit) :
  (b = true -> confined P m) -> confined P (when b m).
Proof. destruct b; [auto | intros _; apply confined_ret]. Qed.

Lemma confined_for_each {A} (xs : list A) (body : A -> M unit) :
  (forall x, In x xs -> confined P (body x)) -> confined P (for_each xs body).
Proof.
  induction xs as [|x xs IH]; intros Hb; simpl.
  - apply confined_ret.
  - apply confined_bind; [apply Hb; now left|].
    intros _. apply IH. intros y Hy. apply Hb. now right.
Qed.

Lemma confined_for_fold {A S} (xs : list A) (body : S -> A -> M S) (acc : S) :
  (forall acc x, confined P (body acc x)) -> confined P (for_fold xs body acc).
Proof.
  intros Hb. revert acc; induction xs as [|x xs IH]; intros acc; simpl.
  - apply confined_ret.
  - apply confined_bind; [apply Hb | intros acc'; apply IH].
Qed.

Lemma silent_confined {A} (m : M A) :
  (forall e, quiet e -> P e) -> silent m -> confined P m.
Proof.
  intros imp Hm w. destruct (Hm w) as (tr & E & Q & _).
  exists tr. split; [exact E|]. eapply Forall_impl; [exact imp | exact Q].
Qed.

End Confinement.

(** ** What the lister runs and prints *)

Section ListerEffects.

Context {FSI : FileSystem}.

Lemma confined_line_step (vb : nat) (A : artifact_map) (line : string) :
  confined (fun e => printed e /\ 2 < vb) (line_step vb A line).
Proof.
  unfold line_step. apply confined_bind; [apply confined_lift|]. intros values.
  destruct (skipped values); [apply confined_ret|].
  apply confined_bind.
  { apply confined_when. intros H. apply Nat.ltb_lt in H.
    apply confined_emit. split; [exact I | lia]. }
  intros _. apply confined_bind; [apply confined_lift|]. intros A'.
  apply confined_bind; [|intros _; apply confined_ret].
  apply confined_when. intros H. apply Nat.ltb_lt in H.
  apply confined_emit. split; [exact I | exact H].
Qed.

(** The lister after its command has been run. *)
Lemma lister_after_command (vb : nat) (ls : CompletedProcess) (w : World) :
  get_bucket_directories vb ls w
  = (artifacts <- for_fold (Py.split newline (stdout ls)) (line_step vb) [];;
     when (1 <? vb) (emit (EvPrintArtifacts artifacts));;;
     ret artifacts)
      {| fs := fs w; trace := trace w ++ [EvRun ls_argv] |}.
Proof. reflexivity. Qed.

(** What the lister gives: what its loop gives, and the map printed
    once more above verbosity 1. *)
Lemma lister_outcome (vb : nat) (ls : CompletedProcess) (w : World) :
  get_bucket_directories vb ls w
  = match for_fold (Py.split newline (stdout ls)) (line_step vb) []
                   {| fs := fs w; trace := trace w ++ [EvRun ls_argv] |} with
    | (Ok A, w2) =>
        (Ok A, {| fs := fs w2;
                  trace := trace w2
                           ++ (if 1 <? vb then [EvPrintArtifacts A] else []) |})
    | (Raise e, w2) => (Raise e, w2)
    end.
Proof.
  rewrite lister_after_command. unfold bind at 1.
  destruct (for_fold _ _ _ _) as [[A|e] [s2 t2]]; [|reflexivity].
  unfold bind, when, emit, ret. destruct (1 <? vb); simpl; [reflexivity|].
  now rewrite app_nil_r.
Qed.

(** What the lister adds to the trace: its command, then what the
    verbosity makes it print. *)
Lemma lister_prints (vb : nat) (ls : CompletedProcess) (w : World) :
  exists prints,
    trace (snd (get_bucket_directories vb ls w))
    = trace w ++ EvRun ls_argv :: prints
    /\ Forall printed prints
    /\ fs (snd (get_bucket_directories vb ls w)) = fs w
    /\ (vb <= 1 -> prints = [])
    /\ (vb = 2 ->
        prints = match fst (get_bucket_directories vb ls w) with
                 | Ok A => [EvPrintArtifacts A]
                 | Raise _ => []
                 end).
Proof.
  destruct (get_bucket_directories_result vb ls w) as [_ F].
  rewrite lister_outcome in *.
  destruct (@confined_for_fold _ _ _ _ (Py.split newline (stdout ls))
              (line_step vb) [] (confined_line_step vb)
              {| fs := fs w; trace := trace w ++ [EvRun ls_argv] |})
    as (tr & T & Q).
  assert (P : Forall printed tr).
  { eapply Forall_impl; [|exact Q]. now intros e [H _]. }
  assert (N : vb <= 2 -> tr = []).
  { intros H. destruct tr as [|e tr]; [reflexivity|].
    inversion Q as [|? ? [_ H'] _]. lia. }
  destruct (for_fold _ _ _ _) as [[A|e] w2]; simpl in *.
  - exists (tr ++ (if 1 <? vb then [EvPrintArtifacts A] else [])).
    rewrite T, <- !app_assoc. simpl.
    split; [reflexivity|]. split; [|split; [exact F | split]].
    + apply Forall_app. split; [exact P|].
      destruct (1 <? vb); repeat constructor.
    + intros H. rewrite N by lia.
      destruct (Nat.ltb_spec 1 vb); [lia | reflexivity].
    + intros ->. now rewrite N by lia.
  - exists tr. rewrite T, <- app_assoc. simpl.
    split; [reflexivity|]. split; [exact P|]. split; [exact F|].
    split; intros H; apply N; lia.
Qed.

(** X5.  Whatever the listing holds and whether it returns or raises,
    the lister runs one command, the recursive listing of the bucket,
    and leaves the files alone; all it adds after the command is what
    the verbosity makes it print: nothing up to verbosity 1, and at
    verbosity 2 the map once, when it returns one. *)
Theorem X5_lister_runs_one_command
        (vb : nat) (ls : CompletedProcess) (w : World) :
  exists prints,
    trace (snd (get_bucket_directories vb ls w))
    = trace w ++ EvRun ls_argv :: prints
    /\ Forall printed prints
    /\ fs (snd (get_bucket_directories vb ls w)) = fs w
    /\ (vb <= 1 -> prints = [])
    /\ (vb = 2 ->
        prints = match fst (get_bucket_directories vb ls w) with
                 | Ok A => [EvPrintArtifacts A]
                 | Raise _ => []
                 end).
Proof. apply lister_prints. Qed.

End ListerEffects.

(** ** The names in the map *)

Lemma occurs_in_trans (e piece s : string) :
  occurs_in e piece -> occurs_in piece s -> occurs_in e s.
Proof.
  intros (b1 & a1 & ->) (b2 & a2 & ->).
  exists (b2 +++ b1), (a1 +++ a2). now rewrite !append_assoc.
Qed.

(** Every piece of [s.split(sep)] occurs in [s]. *)
Lemma split_piece_occurs (sep : ascii) (s piece : string) :
  In piece (Py.split sep s) -> occurs_in piece s.
Proof.
  revert piece; induction s as [|c s IH]; intros piece.
  - intros [<- | []]. now exists "", "".
  - pose proof (split_first sep s) as [_ first].
    cbn [Py.split]. destruct (Ascii.eqb c sep).
    + intros [<- | H]; [now exists "", (String c s)|].
      destruct (IH _ H) as (b & a & ->). now exists (String c b), a.
    + destruct (Py.split sep s) as [|p ps] eqn:Es;
        [now apply split_nonempty in Es|].
      simpl in first. intros [<- | H].
      * destruct first as [-> | [after ->]].
        -- exists "", "". simpl. now rewrite append_empty_r.
        -- exists "", (String sep after). reflexivity.
      * destruct (IH piece (or_intror H)) as (b & a & ->).
        now exists (String c b), a.
Qed.

Lemma kept_line_clean (lines : list string) (k j l : string) :
  kept_line lines k j l -> clean k /\ clean j /\ clean l.
Proof.
  intros (line & values & deeper & _ & _ & _ & Hx & Hs).
  assert (piece : forall s, In s [k; j; l] -> clean s).
  { intros s Hin.
    assert (Hp : In s (Py.split os_sep values)).
    { rewrite Hs. simpl in *. tauto. }
    split; [exact (split_pieces_free _ _ _ Hp)|].
    intros exclude He Ho. apply Hx. exists exclude. split; [exact He|].
    exact (occurs_in_trans Ho (split_piece_occurs _ _ _ Hp)). }
  repeat split; apply piece; simpl; auto.
Qed.

Section CleanNames.

Context {FSI : FileSystem}.

(** Every leaf of the map comes from a kept line of the listing. *)
Lemma lister_leaf_kept (vb : nat) (ls : CompletedProcess) (w : World)
      (A : artifact_map) (k j l : string) (sub : sub_map) (L : leaf_list) :
  fst (get_bucket_directories vb ls w) = Ok A ->
  In (k, sub) A -> In (j, L) sub -> In l L ->
  kept_line (Py.split newline (stdout ls)) k j l.
Proof.
  intros listed Hk Hj Hl.
  destruct (lister_returns _ _ _ listed) as (ts & Ets & EA & [nd good]).
  rewrite Forall_forall in good.
  destruct (good _ Hk) as (_ & _ & ndsub & _). simpl in ndsub.
  assert (E : leaves A k j = L).
  { unfold leaves, get_or.
    now rewrite (@in_get _ k sub A nd Hk), (@in_get _ j L sub ndsub Hj). }
  rewrite <- E, EA, leaves_build in Hl. simpl in Hl.
  apply leaves_of_in in Hl. now apply (triples_provenance _ k j l Ets).
Qed.

Lemma lister_names_clean
      (vb : nat) (ls : CompletedProcess) (w : World) (A : artifact_map) :
  fst (get_bucket_directories vb ls w) = Ok A ->
  forall k sub, In (k, sub) A ->
    clean k
    /\ forall j L, In (j, L) sub ->
         clean j /\ forall l, In l L -> clean l.
Proof.
  intros listed k sub Hk.
  destruct (lister_returns _ _ _ listed) as (_ & _ & _ & [_ good]).
  rewrite Forall_forall in good.
  destruct (good _ Hk) as (_ & nonempty & _ & leafs). simpl in *.
  rewrite Forall_forall in leafs.
  assert (pair : forall j L l, In (j, L) sub -> In l L ->
                               clean k /\ clean j /\ clean l).
  { intros j L l Hj Hl.
    exact (kept_line_clean (@lister_leaf_kept vb ls w A k j l sub L listed Hk Hj Hl)). }
  assert (some : forall j L, In (j, L) sub -> exists l, In l L).
  { intros j L Hj. destruct (leafs _ Hj) as [_ ne]. simpl in ne.
    destruct L as [|l L]; [contradiction | exists l; now left]. }
  split.
  - destruct sub as [|[j L] sub]; [contradiction|].
    destruct (some j L (or_introl eq_refl)) as [l Hl].
    now destruct (pair j L l (or_introl eq_refl) Hl).
  - intros j L Hj. split.
    + destruct (some j L Hj) as [l Hl]. now destruct (pair j L l Hj Hl) as (_ & ? & _).
    + intros l Hl. now destruct (pair j L l Hj Hl) as (_ & _ & ?).
Qed.

(** X6.  In every map the lister returns, no top-level key, sub-key or
    leaf holds a path separator or one of the excluded words
    ([index.html], [css], [images], [.gitignore]): the directories and
    links of the site never bear the name of the site's own style and
    image directories or of an index file. *)
Theorem X6_names_in_the_map_are_clean
        (vb : nat) (ls : CompletedProcess) (w : World) (A : artifact_map) :
  fst (get_bucket_directories vb ls w) = Ok A ->
  forall k sub, In (k, sub) A ->
    clean k
    /\ forall j L, In (j, L) sub ->
         clean j /\ forall l, In l L -> clean l.
Proof. apply lister_names_clean. Qed.

End CleanNames.

Lemma X6_witness :
  clean "topicsA"
  /\ forall j L, In (j, L) [("csc1", ["foo_bar.html"; "foo_baz.html"])] ->
       clean j /\ forall l, In l L -> clean l.
Proof.
  refine (@X6_names_in_the_map_are_clean tree_fs 0 (completed 0%Z two_topics)
            sample_world two_topics_map _
            "topicsA" [("csc1", ["foo_bar.html"; "foo_baz.html"])] _).
  - vm_compute. reflexivity.
  - left. reflexivity.
Defined.

(** ** A listing with nothing to keep *)

Lemma record_items_not_empty (A A' : artifact_map) (items : list string) :
  record_items A items = Ok A' -> A' <> [].
Proof.
  destruct items as [|k [|j [|l deeper]]]; simpl; try discriminate.
  intros [= <-]. apply set_not_empty.
Qed.

Lemma scan_empty (lines : list string) (A : artifact_map) :
  scan lines A = Ok [] <-> A = [] /\ Forall skipped_line lines.
Proof.
  revert A; induction lines as [|line lines IH]; intros A; simpl.
  - split; [intros [= ->]; split; [reflexivity | constructor] | now intros [-> _]].
  - unfold step_result. destruct (values_of_total line) as [values Hv].
    rewrite Hv. simpl. destruct (skipped values) eqn:Hs; simpl.
    + rewrite IH. split; intros [EA H]; (split; [exact EA|]).
      * constructor; [now exists values | exact H].
      * now inversion H.
    + split.
      * destruct (record_items A (Py.split os_sep values)) as [A'|e] eqn:R;
          simpl; [|discriminate].
        intros H. apply IH in H. destruct H as [-> _].
        now apply record_items_not_empty in R.
      * intros [_ H]. inversion H as [|? ? (v & Hv' & Hs') _]; subst.
        congruence.
Qed.

Section NothingToKeep.

Context {FSI : FileSystem}.

(** X7.  The lister returns the empty map exactly when it passes over
    every line of the listing (as it does for an empty output, whose one
    line is empty).  A complete run of [main] on such a listing asks one
    thing of the file system: the write of the front page, with no link
    between the heading and the end of the body. *)
Theorem X7_empty_map_when_every_line_is_skipped
        (vb : nat) (ls : CompletedProcess) (w : World) :
  (fst (get_bucket_directories vb ls w) = Ok []
   <-> Forall skipped_line (Py.split newline (stdout ls)))
  /\ (Forall skipped_line (Py.split newline (stdout ls)) ->
      forall script_dir synced opts w',
        main script_dir ls synced opts w = (Ok tt, w') ->
        exists tl ts,
          trace w' = trace w ++ tl
                     ++ EvWrite (path_join (path_join script_dir OUTPUT_LOCATION)
                                           INDEX_FILE)
                                (template_head
                                   {| title := "SAL Topics Frontpage";
                                      heading := Some "Version of SAL Topics";
                                      link := false |} (default_base opts)
                                 ++ template_foot)
                     :: ts
          /\ Forall quiet tl /\ Forall quiet ts).
Proof.
  assert (E : forall vb', fst (get_bucket_directories vb' ls w) = Ok []
                          <-> Forall skipped_line (Py.split newline (stdout ls))).
  { intros vb'. destruct (get_bucket_directories_result vb' ls w) as [-> _].
    rewrite scan_empty. tauto. }
  split; [apply E|].
  intros none script_dir synced opts w' run.
  destruct (main_run _ _ _ _ _ run) as (A & tl & tp & ts & listed & T & Ql & Pp & Qs).
  apply (E (verbose opts)) in none. rewrite none in listed. injection listed as <-.
  inversion Pp; subst. exists tl, ts. now repeat split.
Qed.

End NothingToKeep.

(** ** The template of a page *)

(** X8.  The template of a page is built for any content and any list
    of links, the empty name included: neither [split('.')[0]] nor
    [split('_')[-1]] can raise.  It is the head of the document, one
    anchor per link in the order of the links, and the two closing
    lines: ten lines, one more with a heading, and one per link. *)
Theorem X8_template_never_fails
        (content : page_content) (links : list string) (opts : Namespace) :
  exists anchors,
    html_template content links opts
    = Ok (template_head content opts ++ anchors ++ template_foot)
    /\ Forall2 (fun target anchor =>
                  exists text, link_text (link content) target = Ok text
                               /\ anchor = anchor_line target text)
               links anchors
    /\ List.length (template_head content opts ++ anchors ++ template_foot)
       = 10 + List.length links
         + match heading content with Some _ => 1 | None => 0 end.
Proof.
  exists (map (fun target => anchor_line target (display_text (link content) target))
              links).
  split; [apply html_template_total | split].
  - induction links as [|target links IH]; constructor; [|exact IH].
    exists (display_text (link content) target).
    split; [apply link_text_total | reflexivity].
  - rewrite !length_app, length_map. unfold template_head.
    rewrite length_app. destruct (heading content); simpl; lia.
Qed.

(** ** Links without a text *)

Lemma split_app_char (c : ascii) (a t : string) :
  Py.split c (a +++ String c t) = Py.split c a ++ Py.split c t.
Proof.
  induction a as [|x a IH].
  - simpl. now rewrite Ascii.eqb_refl.
  - cbn [String.append Py.split]. rewrite IH.
    destruct (Ascii.eqb x c); [reflexivity|].
    destruct (Py.split c a) eqn:E; [|reflexivity].
    now apply split_nonempty in E.
Qed.

Lemma first_piece_empty (c : ascii) (s : string) :
  hd "" (Py.split c s) = "" <-> s = "" \/ exists rest, s = String c rest.
Proof.
  destruct s as [|x s]; simpl.
  - split; [now left | reflexivity].
  - destruct (Ascii.eqb_spec x c) as [-> | ne]; simpl.
    + split; [right; now exists s | reflexivity].
    + destruct (Py.split c s); simpl;
        (split; [discriminate | intros [H | [rest H]]; [discriminate | congruence]]).
Qed.

Lemma last_piece_empty (c : ascii) (s : string) :
  last (Py.split c s) "" = "" <-> s = "" \/ exists before, s = before +++ String c "".
Proof.
  split.
  - intros E. destruct (split_last c s) as [_ shape]. rewrite E in shape.
    destruct shape as [-> | [before ->]]; [now left | right; now exists before].
  - intros [-> | [before ->]]; [reflexivity|].
    rewrite split_app_char. simpl. now rewrite last_last.
Qed.

(** X9.  When a link has no text.  Without the [link] key the text is
    empty exactly for the empty name and for a name that starts with a
    period; with it, exactly when what comes before the first period is
    empty or ends with an underscore. *)
Theorem X9_links_without_text (target : string) :
  (link_text false target = Ok ""
   <-> target = "" \/ exists rest, target = "." +++ rest)
  /\ (link_text true target = Ok ""
      <-> exists stem, link_text false target = Ok stem
                       /\ (stem = "" \/ exists before, stem = before +++ "_")).
Proof.
  rewrite !link_text_total. unfold display_text. split.
  - split.
    + intros [= E]. apply first_piece_empty in E. exact E.
    + intros H. f_equal. apply first_piece_empty. exact H.
  - split.
    + intros [= E]. exists (hd "" (Py.split "." target)).
      split; [reflexivity | now apply last_piece_empty].
    + intros (stem & [= <-] & H). f_equal. now apply last_piece_empty.
Qed.

(** ** What [main] asks of the file system, whatever happens *)


Lemma lister_inv_key (A : artifact_map) (k : string) :
  lister_inv A -> In k (Dict.keys A) ->
  slash_free k /\ Forall (fun e => slash_free (fst e)) (get_or k A []).
Proof.
  intros [nd good] Hk. apply in_map_iff in Hk. destruct Hk as ([k' sub] & <- & Hin).
  rewrite Forall_forall in good. destruct (good _ Hin) as (fk & _ & _ & leafs).
  simpl in *. split; [exact fk|].
  unfold get_or. rewrite (@in_get _ k' sub A nd Hin).
  eapply Forall_impl; [|exact leafs]. now intros e [H _].
Qed.

Section SiteConfinement.

Context {FSI : FileSystem}.

Variable P : event -> Prop.
Variable opts : Namespace.
Variable ok_dir : string -> Prop.

Hypothesis P_quiet : forall e, quiet e -> P e.
Hypothesis P_dir : forall d present,
    ok_dir d -> P (EvExists d present) /\ P (EvMakedirs d).
Hypothesis P_index : forall d content links,
    ok_dir d -> P (EvWrite (path_join d INDEX_FILE)
                           (page_template content links opts)).
Hypothesis ok_below : forall d s,
    ok_dir d -> slash_free s -> ok_dir (path_join d s).

Lemma confined_bind_post {A B} (Q : A -> Prop) (m : M A) (k : A -> M B) :
  confined P m -> (forall w a, fst (m w) = Ok a -> Q a) ->
  (forall a, Q a -> confined P (k a)) -> confined P (bind m k).
Proof.
  intros Hm post Hk w. unfold bind. destruct (Hm w) as (t1 & E1 & Q1).
  specialize (post w).
  destruct (m w) as [[a|e] w1]; simpl in *.
  - destruct (Hk a (post a eq_refl) w1) as (t2 & E2 & Q2).
    exists (t1 ++ t2). rewrite E2, E1, app_assoc.
    split; [reflexivity | now apply Forall_app].
  - now exists t1.
Qed.

Lemma confined_check (d : string) :
  ok_dir d -> confined P (check_and_make_dirs d).
Proof.
  intros ok w. exists (ensure_events d (fs_exists (fs w) d)).
  split; [apply check_and_make_dirs_trace|].
  unfold ensure_events.
  destruct (P_dir true ok) as [Pt _]. destruct (P_dir false ok) as [Pf Pm].
  destruct (fs_exists (fs w) d).
  - constructor; [exact Pt | constructor].
  - constructor; [exact Pf|]. constructor; [exact Pm | constructor].
Qed.

Lemma confined_write (d : string) (content : page_content) (links : list string) :
  ok_dir d -> confined P (write_html_index_file d content links opts).
Proof.
  intros ok w. eexists. split; [apply write_index_trace|].
  constructor; [now apply P_index | constructor].
Qed.

Lemma confined_make_html (d k : string) (sub : sub_map) :
  ok_dir (path_join d k) -> Forall (fun e => slash_free (fst e)) sub ->
  confined P (make_html d k sub opts).
Proof.
  intros ok free. unfold make_html. cbv zeta.
  apply confined_bind; [now apply confined_check | intros _].
  apply confined_bind; [now apply confined_write | intros _].
  apply confined_for_each. intros [kitem vitem] Hin.
  rewrite Forall_forall in free.
  assert (ok' : ok_dir (path_join (path_join d k) kitem)).
  { apply ok_below; [exact ok | exact (free _ Hin)]. }
  apply confined_bind; [now apply confined_check | intros _].
  now apply confined_write.
Qed.

Lemma confined_site (web : string) (A : artifact_map) :
  lister_inv A -> (forall k, slash_free k -> ok_dir (path_join web k)) ->
  confined P (for_each (Dict.keys A)
                (fun dirkey => make_html web dirkey (get_or dirkey A []) opts)).
Proof.
  intros inv ok. apply confined_for_each. intros k Hk.
  destruct (@lister_inv_key A k inv Hk) as [fk fsub].
  apply confined_make_html; [now apply ok | exact fsub].
Qed.

End SiteConfinement.

Section MainConfinement.

Context {FSI : FileSystem}.

(** Whatever [main] does, it adds to the trace only events of a kind
    that holds of the quiet events, of the write of the front page and
    of the calls for a page in a directory below the output root. *)
Lemma confined_main (P : event -> Prop) (ok_dir : string -> Prop)
      (script_dir : string) (ls synced : CompletedProcess) (opts : Namespace) :
  let web := path_join script_dir OUTPUT_LOCATION in
  (forall e, quiet e -> P e) ->
  (forall content links,
      P (EvWrite (path_join web INDEX_FILE)
                 (page_template content links (default_base opts)))) ->
  (forall d present, ok_dir d -> P (EvExists d present) /\ P (EvMakedirs d)) ->
  (forall d content links,
      ok_dir d -> P (EvWrite (path_join d INDEX_FILE)
                             (page_template content links (default_base opts)))) ->
  (forall k, slash_free k -> ok_dir (path_join web k)) ->
  (forall d s, ok_dir d -> slash_free s -> ok_dir (path_join d s)) ->
  confined P (main script_dir ls synced opts).
Proof.
  intros web Pq Pfront Pdir Pindex okweb okbelow. unfold main. cbv zeta.
  apply (@confined_bind_post _ P _ _ lister_inv).
  - apply silent_confined; [exact Pq | apply silent_lister].
  - intros w A listed. now destruct (lister_returns _ _ _ listed) as (_ & _ & _ & inv).
  - intros A inv. apply confined_bind.
    { intros w. eexists. split; [apply write_index_trace|].
      constructor; [apply Pfront | constructor]. }
    intros _. apply confined_bind.
    { now apply (@confined_site _ P (default_base opts) ok_dir). }
    intros _. apply silent_confined; [exact Pq|].
    apply (silent_sync (default_base opts) web synced).
Qed.


Lemma quiet_writes_page (b : string) (e : event) : quiet e -> writes_page b e.
Proof. destruct e; simpl; tauto. Qed.


Lemma base_text_default (opts : Namespace) :
  base_text (default_base opts) = site_base opts.
Proof. unfold base_text, default_base, site_base. now destruct (base opts) eqn:E; simpl; rewrite ?E. Qed.

Lemma page_template_whole (content : page_content) (links : list string)
      (opts : Namespace) :
  whole_page (site_base opts) (page_template content links (default_base opts)).
Proof.
  unfold page_template, template_head. rewrite base_text_default.
  exists (title content).
  exists (match heading content with
          | Some h => ["<h2>" +++ h +++ "</h2>" +++ nl]
          | None => []
          end
          ++ map (fun target => anchor_line target
                                  (display_text (link content) target)) links).
  now rewrite <- !app_assoc.
Qed.

(** X11.  Whatever the listing holds and whether the run completes or
    not, every file [main] writes is a whole page: the eight lines of
    the head, a body, the two closing lines; and its style sheet is the
    one of the base given with [--base], or of the website of the bucket
    when no base is given. *)
Theorem X11_main_writes_whole_pages
        (script_dir : string) (ls synced : CompletedProcess) (opts : Namespace)
        (w : World) :
  exists tr,
    trace (snd (main script_dir ls synced opts w)) = trace w ++ tr
    /\ Forall (writes_page (site_base opts)) tr.
Proof.
  apply (@confined_main (writes_page (site_base opts)) (fun _ => True)).
  - apply quiet_writes_page.
  - intros content links. apply page_template_whole.
  - intros d present _. simpl. now split.
  - intros d content links _. apply page_template_whole.
  - trivial.
  - trivial.
Qed.

End MainConfinement.

(** ** A run without options *)

Section PlainRuns.

Context {FSI : FileSystem}.

(** X12.  What a complete run does when the verbosity is at most 1 and
    the sync is off, in order and in full: the listing command, the
    write of the front page, then for each top-level key in the order of
    the map the calls for its page followed by the calls for the pages
    of its sub-keys; the calls for a page are the test of its directory,
    the creation when the test fails, and the write of its index
    file. *)
Theorem X12_plain_run_in_order
        (script_dir : string) (ls synced : CompletedProcess) (opts : Namespace)
        (w w' : World) :
  verbose opts <= 1 -> sync opts = false ->
  main script_dir ls synced opts w = (Ok tt, w') ->
  let web := path_join script_dir OUTPUT_LOCATION in
  exists A tp,
    fst (get_bucket_directories (verbose opts) ls w) = Ok A
    /\ trace w' = trace w
                  ++ EvRun ls_argv
                  :: EvWrite (path_join web INDEX_FILE)
                             (front_template (default_base opts) A)
                  :: tp
    /\ pages_trace (site_pages web (default_base opts) A) tp.
Proof.
  intros V S. unfold main. cbv zeta.
  rewrite verbose_default_base, sync_default_base, S.
  unfold bind at 1.
  destruct (lister_prints (verbose opts) ls w) as (prints & T & _ & _ & N & _).
  rewrite (N V) in T.
  destruct (get_bucket_directories (verbose opts) ls w) as [[A|e] w1] eqn:EL;
    [|discriminate].
  assert (nd : NoDup (Dict.keys A)).
  { destruct (@lister_returns _ (verbose opts) ls w A) as (ts & _ & _ & [nd _]).
    - now rewrite EL.
    - exact nd. }
  simpl in T. unfold bind at 1.
  match goal with
  | |- context [write_html_index_file ?p ?c ?l ?o w1] =>
      pose proof (write_index_trace p c l o w1) as E2;
      destruct (write_html_index_file p c l o w1) as [[[]|e] w2]
  end; [|discriminate].
  simpl in E2. unfold bind at 1.
  match goal with
  | |- context [for_each ?ks ?body w2] =>
      destruct (for_each ks body w2) as [[[]|e] w3] eqn:E3
  end; [|discriminate].
  destruct (@builds_site _ _ _ _ nd _ _ E3) as (tp & E3' & P3).
  unfold ret. intros [= <-]. exists A, tp.
  split; [reflexivity | split; [|exact P3]].
  rewrite E3', E2, T. rewrite <- !app_assoc. reflexivity.
Qed.

End PlainRuns.

Lemma X12_witness :
  exists A tp,
    fst (@get_bucket_directories tree_fs 0 (completed 0%Z two_topics) sample_world)
    = Ok A
    /\ trace (snd (sample_run two_topics))
       = trace sample_world
         ++ EvRun ls_argv
         :: EvWrite (path_join (path_join "/repo" OUTPUT_LOCATION) INDEX_FILE)
                    (front_template (default_base plain_opts) A)
         :: tp
    /\ pages_trace (site_pages (path_join "/repo" OUTPUT_LOCATION)
                               (default_base plain_opts) A) tp.
Proof.
  refine (@X12_plain_run_in_order tree_fs "/repo" (completed 0%Z two_topics)
            (completed 0%Z "") plain_opts sample_world
            (snd (sample_run two_topics)) _ _ _).
  - simpl. lia.
  - reflexivity.
  - vm_compute. reflexivity.
Defined.

(** ** The echo of the sync output *)

Section SyncFaults.

Context {FSI : FileSystem}.

(** With the sync on, [main] does what it does with the sync off, then
    runs the sync command and echoes its output. *)
Lemma main_then_sync (script_dir : string) (ls synced : CompletedProcess)
      (opts : Namespace) (w w0 : World) :
  sync opts = true ->
  main script_dir ls synced (without_sync opts) w = (Ok tt, w0) ->
  main script_dir ls synced opts w
  = (cmp_proc <- subprocess_run
                   ("aws s3 sync " +++ path_join script_dir OUTPUT_LOCATION
                    +++ "/ s3://" +++ SAL_TOPIC_BUCKET +++ " --acl public-read")
                   synced;;
     if 0 <? verbose opts
     then for_each (Py.split newline (stdout cmp_proc)) print_decoded
     else ret tt) w0.
Proof.
  intros on done.
  assert (B : base (default_base (without_sync opts)) = base (default_base opts)).
  { unfold default_base, without_sync. simpl.
    destruct (base opts) eqn:E; simpl; congruence. }
  unfold main in *. cbv zeta in *.
  rewrite sync_default_base, on.
  rewrite sync_default_base in done. simpl sync in done.
  rewrite !verbose_default_base in *. simpl verbose in done.
  unfold bind at 1. unfold bind at 1 in done.
  destruct (get_bucket_directories (verbose opts) ls w) as [[A|e] w1];
    [|discriminate].
  unfold bind at 1. unfold bind at 1 in done.
  match type of done with
  | context [write_html_index_file ?p ?c ?l ?o w1] =>
      rewrite (@write_index_base _ p c l o (default_base opts) w1 B) in done;
      destruct (write_html_index_file p c l (default_base opts) w1)
        as [[[]|e] w2]
  end; [|discriminate].
  unfold bind at 1. unfold bind at 1 in done.
  rewrite (@for_each_ext _ _ _ _
             (fun dirkey => make_html (path_join script_dir OUTPUT_LOCATION)
                                      dirkey (get_or dirkey A [])
                                      (default_base opts))) in done
    by (intros x w3; now apply make_html_base).
  destruct (for_each _ _ w2) as [[[]|e] w3]; [|discriminate].
  unfold ret in done. injection done as <-. reflexivity.
Qed.

(** The echo stops at the first line that is not well-formed UTF-8. *)
Lemma echo_until_fault (good rest : list string) (bad : string)
      (texts : list (list N)) (e : exn) (w : World) :
  Forall2 (fun line text => decode_utf8 line = Ok text) good texts ->
  decode_utf8 bad = Raise e ->
  for_each (good ++ bad :: rest) print_decoded w
  = (Raise e, {| fs := fs w; trace := trace w ++ map EvPrintText texts |}).
Proof.
  intros H fault. revert w. induction H as [|line text good texts E _ IH]; intros w.
  - simpl. unfold bind at 1, print_decoded, bind, lift. rewrite fault.
    rewrite app_nil_r. now destruct w.
  - simpl. unfold bind at 1, print_decoded, bind, lift, emit. rewrite E.
    rewrite IH. simpl. now rewrite <- app_assoc.
Qed.

(** X13.  With the sync on and a verbosity above zero, a line of the
    sync output that is not well-formed UTF-8 makes [main] raise
    [UnicodeDecodeError] at the very end: the site has been written as
    in the run without sync, the sync command has been run, and the
    lines before the bad one have been echoed. *)
Theorem X13_undecodable_sync_output
        (script_dir : string) (ls synced : CompletedProcess) (opts : Namespace)
        (w w0 : World) (good rest : list string) (bad : string)
        (texts : list (list N)) :
  sync opts = true -> 0 < verbose opts ->
  main script_dir ls synced (without_sync opts) w = (Ok tt, w0) ->
  Py.split newline (stdout synced) = good ++ bad :: rest ->
  Forall2 (fun line text => decode_utf8 line = Ok text) good texts ->
  decode_utf8 bad = Raise UnicodeDecodeError ->
  main script_dir ls synced opts w
  = (Raise UnicodeDecodeError,
     {| fs := fs w0;
        trace := trace w0
                 ++ EvRun (sync_argv (path_join script_dir OUTPUT_LOCATION))
                 :: map EvPrintText texts |}).
Proof.
  intros on V done lines decoded fault.
  rewrite (main_then_sync _ _ _ _ _ on done).
  unfold subprocess_run, bind at 1, bind at 1, emit, ret.
  apply Nat.ltb_lt in V. rewrite V. cbn [stdout fst snd]. rewrite lines.
  rewrite (@echo_until_fault good rest bad texts _ _ decoded fault). simpl.
  now rewrite <- app_assoc.
Qed.

End SyncFaults.

Lemma X13_witness :
  @main tree_fs "/repo" (completed 0%Z two_topics)
        (completed 0%Z ("upload: index.html" +++ nl
                        +++ String (ascii_of_nat 255) "" +++ nl +++ "done"))
        sync_opts sample_world
  = (Raise UnicodeDecodeError,
     {| fs := fs (snd (sample_run two_topics));
        trace := trace (snd (sample_run two_topics))
                 ++ EvRun (sync_argv (path_join "/repo" OUTPUT_LOCATION))
                 :: map EvPrintText
                      [[117; 112; 108; 111; 97; 100; 58; 32; 105; 110; 100; 101;
                        120; 46; 104; 116; 109; 108]%N] |}).
Proof.
  refine (@X13_undecodable_sync_output tree_fs "/repo" (completed 0%Z two_topics)
            (completed 0%Z ("upload: index.html" +++ nl
                            +++ String (ascii_of_nat 255) "" +++ nl +++ "done"))
            sync_opts sample_world (snd (sample_run two_topics))
            ["upload: index.html"] ["done"] (String (ascii_of_nat 255) "")
            _ eq_refl _ _ _ _ _).
  - simpl. lia.
  - vm_compute. reflexivity.
  - vm_compute. reflexivity.
  - constructor; [vm_compute; reflexivity | constructor].
  - vm_compute. reflexivity.
Defined.

(** ** The command line of the sync *)

Lemma split_ws_aux_run (cur : option string) (t rest : string) :
  no_blank t = true ->
  Py.split_ws_aux cur (t +++ String " " rest)
  = match cur with
    | Some w => (w +++ t) :: Py.split_ws_aux None rest
    | None => match t with
              | EmptyString => Py.split_ws_aux None rest
              | _ => t :: Py.split_ws_aux None rest
              end
    end.
Proof.
  unfold no_blank. revert cur; induction t as [|c t IH]; intros cur H.
  - cbn [String.append Py.split_ws_aux]. change (Py.isspace " ") with true.
    cbv iota. destruct cur; [now rewrite append_empty_r | reflexivity].
  - simpl in H. apply andb_true_iff in H. destruct H as [Hc Ht].
    apply negb_true_iff in Hc. cbn [String.append Py.split_ws_aux]. rewrite Hc.
    destruct cur as [w|]; rewrite (IH _ Ht).
    + now rewrite append_assoc.
    + reflexivity.
Qed.

(** No word of [s.split()] holds a blank. *)
Lemma split_ws_aux_no_blank (cur : option string) (s : string) :
  match cur with Some w => no_blank w = true | None => True end ->
  Forall (fun word => no_blank word = true) (Py.split_ws_aux cur s).
Proof.
  unfold no_blank. revert cur; induction s as [|c s IH]; intros cur Hc; simpl.
  - destruct cur; repeat constructor. exact Hc.
  - destruct (Py.isspace c) eqn:E.
    + destruct cur; [constructor; [exact Hc|]|]; now apply IH.
    + destruct cur; apply IH.
      * rewrite all_chars_app, Hc. simpl. now rewrite E.
      * simpl. now rewrite E.
Qed.

(** X14.  The command line of the sync is made by splitting the command
    text at the blanks, so the output root is passed to the command as
    one argument exactly when its path holds no blank: in a checkout
    whose path has a blank, the command gets the pieces of the path as
    separate arguments. *)
Theorem X14_sync_arguments (web : string) :
  sync_argv web = sync_argv_meant web <-> no_blank web = true.
Proof.
  split.
  - intros E.
    pose proof (@split_ws_aux_no_blank None
                  ("aws s3 sync " +++ web +++ "/ s3://" +++ SAL_TOPIC_BUCKET
                   +++ " --acl public-read") I) as H.
    fold (Py.split_ws ("aws s3 sync " +++ web +++ "/ s3://" +++ SAL_TOPIC_BUCKET
                       +++ " --acl public-read")) in H.
    fold (sync_argv web) in H. rewrite E in H.
    rewrite Forall_forall in H.
    specialize (H (web +++ "/")). unfold no_blank in *.
    rewrite all_chars_app in H. apply andb_true_iff in H; [tauto|].
    simpl. tauto.
  - intros H. unfold sync_argv, Py.split_ws.
    change ("aws s3 sync " +++ web +++ "/ s3://" +++ SAL_TOPIC_BUCKET
            +++ " --acl public-read")
      with ("aws" +++ String " " ("s3" +++ String " " ("sync" +++ String " "
              (web +++ "/ s3://sal-topic-registry --acl public-read")))).
    rewrite !split_ws_aux_run by reflexivity. cbv iota.
    replace (web +++ "/ s3://sal-topic-registry --acl public-read")
      with ((web +++ "/") +++ String " " "s3://sal-topic-registry --acl public-read")
      by now rewrite append_assoc.
    rewrite split_ws_aux_run.
    + destruct (web +++ "/") eqn:W; [destruct web; discriminate|].
      rewrite <- W. reflexivity.
    + unfold no_blank in *. now rewrite all_chars_app, H.
Qed.

(** ** Directories and files of the tree *)

Lemma existsb_node (q : TreeFS.node_path) (l : list TreeFS.node_path) :
  existsb (TreeFS.node_eqb q) l = true <-> In q l.
Proof.
  rewrite existsb_exists. split.
  - intros (x & Hin & E). apply node_eqb_eq in E. now subst.
  - intros Hin. exists q. split; [exact Hin | apply node_eqb_refl].
Qed.

Lemma existsb_false {A} (f : A -> bool) (l : list A) :
  existsb f l = false <-> forall x, In x l -> f x = false.
Proof.
  induction l as [|a l IH]; simpl.
  - split; [intros _ x [] | reflexivity].
  - rewrite orb_false_iff, IH. split.
    + intros [Ha Hl] x [<- | Hx]; auto.
    + intros H. split; [apply H; now left | intros x Hx; apply H; now right].
Qed.

Lemma prefixes_self (b d : TreeFS.node_path) :
  d <> [] -> In (b ++ d) (TreeFS.prefixes b d).
Proof.
  revert b; induction d as [|c d IH]; intros b ne; [contradiction|].
  simpl. destruct d as [|c' d]; [now left|].
  right. change (c :: c' :: d) with ([c] ++ c' :: d). rewrite app_assoc.
  apply IH. discriminate.
Qed.

Lemma prefixes_prefix (b d q : TreeFS.node_path) :
  In q (TreeFS.prefixes b d) -> exists r, b ++ d = q ++ r.
Proof.
  revert b; induction d as [|c d IH]; intros b; simpl; [tauto|].
  intros [<- | H].
  - exists d. now rewrite <- app_assoc.
  - destruct (IH _ H) as [r E]. exists r. rewrite <- E, <- app_assoc. reflexivity.
Qed.

Lemma is_dir_dirs (s s' : TreeFS.state) (q : TreeFS.node_path) :
  TreeFS.dirs s' = TreeFS.dirs s -> TreeFS.is_dir s' q = TreeFS.is_dir s q.
Proof. intros E. unfold TreeFS.is_dir. now rewrite E. Qed.

Lemma is_file_files (s s' : TreeFS.state) (q : TreeFS.node_path) :
  TreeFS.files s' = TreeFS.files s -> TreeFS.is_file s' q = TreeFS.is_file s q.
Proof. intros E. unfold TreeFS.is_file. now rewrite E. Qed.

(** What a creation of directories that succeeds leaves: the regular
    files as they were, and as directories the ones there were and the
    path with all that is above it. *)
Lemma makedirs_done (s s' : TreeFS.state) (path : string) :
  TreeFS.makedirs s path = (Ok tt, s') ->
  TreeFS.files s' = TreeFS.files s
  /\ forall q, TreeFS.is_dir s' q = true
               <-> TreeFS.is_dir s q = true
                   \/ In q (TreeFS.prefixes [] (TreeFS.resolve path)).
Proof.
  unfold TreeFS.makedirs.
  destruct (_ || _); [discriminate|].
  destruct (existsb _ _); [discriminate|].
  intros [= <-]. split; [reflexivity|].
  intros q. unfold TreeFS.is_dir at 1. cbn [TreeFS.dirs].
  destruct q as [|c q]; [simpl; tauto|].
  rewrite existsb_node, in_app_iff, filter_In, negb_true_iff.
  unfold TreeFS.is_dir at 2. rewrite existsb_node.
  split; [tauto|]. intros [H | H]; [now left|].
  destruct (TreeFS.is_dir s (c :: q)) eqn:E; [|now right].
  left. unfold TreeFS.is_dir in E. now apply existsb_node.
Qed.

(** What a write that succeeds leaves: the directories as they were, one
    regular file more at most, and the parent of the file is a
    directory. *)
Lemma write_done (s s' : TreeFS.state) (path : string) (lines : list string) :
  TreeFS.write s path lines = (Ok tt, s') ->
  TreeFS.dirs s' = TreeFS.dirs s
  /\ forall q, TreeFS.is_file s' q = true ->
               q = TreeFS.resolve path \/ TreeFS.is_file s q = true.
Proof.
  unfold TreeFS.write.
  destruct (TreeFS.is_file s _); [discriminate|].
  destruct (negb _); [discriminate|].
  destruct (TreeFS.is_dir s _); [discriminate|].
  intros [= <-]. split; [reflexivity|].
  intros q. unfold TreeFS.is_file, TreeFS.put. cbn [TreeFS.files existsb fst].
  rewrite orb_true_iff. intros [H | H].
  - left. now apply node_eqb_eq.
  - right. rewrite existsb_exists in *. destruct H as (f & Hin & E).
    apply filter_In in Hin. exists f. tauto.
Qed.

(** X15.  On the tree of directories, [check_and_make_dirs] that
    returns has made sure of its path: the path exists afterwards, the
    regular files are the same, every directory there was is still
    there, and calling it again only repeats the test, which now
    succeeds. *)
Theorem X15_check_and_make_dirs_makes_sure
        (path : string) (w w' : @World tree_fs) :
  @check_and_make_dirs tree_fs path w = (Ok tt, w') ->
  TreeFS.exists_ (fs w') path = true
  /\ TreeFS.files (fs w') = TreeFS.files (fs w)
  /\ (forall q, TreeFS.is_dir (fs w) q = true -> TreeFS.is_dir (fs w') q = true)
  /\ @check_and_make_dirs tree_fs path w'
     = (Ok tt, {| fs := fs w'; trace := trace w' ++ [EvExists path true] |}).
Proof.
  intros run.
  assert (E : TreeFS.exists_ (fs w') path = true
              /\ TreeFS.files (fs w') = TreeFS.files (fs w)
              /\ (forall q, TreeFS.is_dir (fs w) q = true ->
                            TreeFS.is_dir (fs w') q = true)).
  { revert run.
    unfold check_and_make_dirs, bind, os_path_exists, os_makedirs, ret.
    cbn [fs_exists fs_makedirs tree_fs fs trace].
    destruct (TreeFS.exists_ (fs w) path) eqn:X; cbn [negb fs trace].
    - intros [= <-]. simpl. auto.
    - destruct (TreeFS.makedirs (fs w) path) as [[[]|e] s1] eqn:Mk;
        [|discriminate].
      intros [= <-]. cbn [fs].
      destruct (makedirs_done _ _ Mk) as [F D].
      split; [|split; [exact F | intros q H; apply D; now left]].
      unfold TreeFS.exists_. cbv zeta. apply orb_true_iff. left.
      destruct (TreeFS.resolve path) as [|c n] eqn:R; [reflexivity|].
      apply D. right. apply (@prefixes_self [] (c :: n)). discriminate. }
  destruct E as (X & F & D). repeat split; auto.
  unfold check_and_make_dirs, bind, os_path_exists, ret.
  cbn [fs_exists tree_fs fs trace]. now rewrite X.
Qed.

Lemma X15_witness :
  TreeFS.exists_
    (fs (snd (@check_and_make_dirs tree_fs "/repo/website/v1/csc1" sample_world)))
    "/repo/website/v1/csc1" = true
  /\ TreeFS.is_dir
       (fs (snd (@check_and_make_dirs tree_fs "/repo/website/v1/csc1" sample_world)))
       ["repo"; "website"; "v1"] = true.
Proof.
  destruct (@X15_check_and_make_dirs_makes_sure "/repo/website/v1/csc1" sample_world
              (snd (@check_and_make_dirs tree_fs "/repo/website/v1/csc1"
                      sample_world)))
    as (X & _).
  - vm_compute. reflexivity.
  - split; [exact X | vm_compute; reflexivity].
Defined.

(** ** Runs that complete *)

Section Completes.

Context {FSI : FileSystem}.

Variable I : World -> Prop.

Lemma completes_ret : completes I (ret tt).
Proof. intros w H. now exists w. Qed.

Lemma completes_seq (m1 m2 : M unit) :
  completes I m1 -> completes I m2 -> completes I (m1 ;;; m2).
Proof.
  intros H1 H2 w H. unfold bind.
  destruct (H1 w H) as (w1 & -> & I1). now apply H2.
Qed.

Lemma completes_for_each {A} (xs : list A) (body : A -> M unit) :
  (forall x, In x xs -> completes I (body x)) -> completes I (for_each xs body).
Proof.
  induction xs as [|x xs IH]; intros Hb; simpl.
  - apply completes_ret.
  - apply completes_seq; [apply Hb; now left|].
    apply IH. intros y Hy. apply Hb. now right.
Qed.

Lemma completes_ext (m m' : M unit) :
  (forall w, m w = m' w) -> completes I m -> completes I m'.
Proof. intros E H w Hw. rewrite <- E. now apply H. Qed.

(** [make_html] completes when each of its pages does. *)
Lemma completes_make_html (web k : string) (sub : sub_map) (opts : Namespace) :
  (forall content links,
      completes I (check_and_make_dirs (path_join web k);;;
                   write_html_index_file (path_join web k) content links opts)) ->
  (forall j L content links,
      In (j, L) sub ->
      completes I (check_and_make_dirs (path_join (path_join web k) j);;;
                   write_html_index_file (path_join (path_join web k) j)
                                         content links opts)) ->
  completes I (make_html web k sub opts).
Proof.
  intros Hk Hsub. unfold make_html. cbv zeta.
  eapply completes_ext; [intros w; apply bind_assoc|].
  apply completes_seq; [apply Hk|].
  apply completes_for_each. intros [j L] Hin. now apply (Hsub j L).
Qed.

End Completes.

Section TreeCompletes.

Variable web : TreeFS.node_path.
Variable plan : list (list string).
Hypothesis plan_free : forall p, In p plan -> ~ In INDEX_FILE p.

Lemma no_index (p : list string) : p = [] \/ In p plan -> ~ In INDEX_FILE p.
Proof. intros [-> | H]; [intros [] | now apply plan_free]. Qed.

Lemma ready_spec (s : TreeFS.state) :
  ready s web plan = true
  <-> TreeFS.is_dir s web = true
      /\ forall p, p = [] \/ In p plan ->
           TreeFS.is_file s (web ++ p) = false
           /\ (forall q, In q (TreeFS.prefixes [] (web ++ p)) ->
                         TreeFS.is_file s q = false)
           /\ TreeFS.is_dir s ((web ++ p) ++ [INDEX_FILE]) = false.
Proof.
  unfold ready. rewrite andb_true_iff, forallb_forall.
  assert (C : forall p, clear s (web ++ p) = true
                        <-> TreeFS.is_file s (web ++ p) = false
                            /\ (forall q, In q (TreeFS.prefixes [] (web ++ p)) ->
                                          TreeFS.is_file s q = false)
                            /\ TreeFS.is_dir s ((web ++ p) ++ [INDEX_FILE]) = false).
  { intros p. unfold clear.
    rewrite !andb_true_iff, !negb_true_iff, existsb_false. tauto. }
  split; intros [D H]; (split; [exact D|]).
  - intros p Hp. apply C, H. simpl. destruct Hp as [-> | Hp]; auto.
  - intros p Hp. apply C, H. simpl in Hp. destruct Hp as [<- | Hp]; auto.
Qed.

Lemma app_index_inside (p p0 r : list string) :
  web ++ p0 = ((web ++ p) ++ [INDEX_FILE]) ++ r -> In INDEX_FILE p0.
Proof.
  rewrite <- !app_assoc. intros E. apply app_inv_head in E. subst p0.
  apply in_or_app. right. now left.
Qed.

Lemma ready_makedirs (s s' : TreeFS.state) (path : string) (p0 : list string) :
  ready s web plan = true -> In p0 plan ->
  TreeFS.resolve path = web ++ p0 ->
  TreeFS.makedirs s path = (Ok tt, s') ->
  ready s' web plan = true.
Proof.
  intros R Hp0 Ep Mk. destruct (makedirs_done _ _ Mk) as [F D].
  rewrite ready_spec in *. destruct R as [Dw C].
  split; [apply D; now left|].
  intros p Hp. destruct (C p Hp) as (C1 & C2 & C3).
  rewrite (is_file_files _ _ _ F). split; [exact C1|]. split.
  - intros q Hq. rewrite (is_file_files _ _ _ F). now apply C2.
  - destruct (TreeFS.is_dir s' ((web ++ p) ++ [INDEX_FILE])) eqn:E; [|reflexivity].
    apply D in E. destruct E as [E | E]; [congruence|].
    rewrite Ep in E. apply prefixes_prefix in E. destruct E as [r E].
    simpl in E. apply app_index_inside in E. now apply plan_free in E.
Qed.

Lemma ready_write (s : TreeFS.state) (path : string) (lines : list string)
      (p0 : list string) :
  ready s web plan = true -> p0 = [] \/ In p0 plan ->
  TreeFS.resolve path = (web ++ p0) ++ [INDEX_FILE] ->
  TreeFS.is_dir s (web ++ p0) = true ->
  exists s', TreeFS.write s path lines = (Ok tt, s')
             /\ ready s' web plan = true.
Proof.
  intros R Hp0 Ep Dp.
  pose proof R as R0. rewrite ready_spec in R0. destruct R0 as [Dw C].
  destruct (C p0 Hp0) as (C1 & _ & C3).
  destruct (TreeFS.write s path lines) as [r s'] eqn:W.
  assert (r = Ok tt) as ->.
  { revert W. unfold TreeFS.write. cbv zeta.
    rewrite Ep, removelast_last, C1, Dp, C3. simpl. now intros [= <- _]. }
  exists s'. split; [reflexivity|].
  destruct (write_done _ _ _ W) as [Ed F].
  apply ready_spec. split; [now rewrite (is_dir_dirs _ _ _ Ed)|].
  intros p Hp. destruct (C p Hp) as (P1 & P2 & P3).
  assert (fresh : forall q r, web ++ p = q ++ r ->
                              TreeFS.is_file s q = false ->
                              TreeFS.is_file s' q = false).
  { intros q r Eq Fq. destruct (TreeFS.is_file s' q) eqn:E; [|reflexivity].
    apply F in E. destruct E as [E | E]; [|congruence].
    rewrite Ep in E. subst q. apply app_index_inside in Eq.
    now apply no_index in Eq. }
  split; [|split].
  - apply (fresh _ []); [now rewrite app_nil_r | exact P1].
  - intros q Hq. destruct (prefixes_prefix _ _ _ Hq) as [r Er].
    apply (fresh q r); [exact Er | now apply P2].
  - now rewrite (is_dir_dirs _ _ _ Ed).
Qed.

(** A page of the plan can be made in a tree that is ready, and the
    tree is ready afterwards. *)
Lemma page_completes (dir : string) (p : list string) (content : page_content)
      (links : list string) (opts : Namespace) :
  In p plan -> p <> [] ->
  TreeFS.resolve dir = web ++ p ->
  TreeFS.resolve (path_join dir INDEX_FILE) = (web ++ p) ++ [INDEX_FILE] ->
  completes (fun w : @World tree_fs => ready (fs w) web plan = true)
            (@check_and_make_dirs tree_fs dir;;;
             write_html_index_file dir content links opts).
Proof.
  intros Hp ne Ed Ei w R.
  assert (nonroot : web ++ p <> []).
  { destruct web; [simpl; exact ne | discriminate]. }
  assert (checked : exists w1,
             @check_and_make_dirs tree_fs dir w = (Ok tt, w1)
             /\ ready (fs w1) web plan = true
             /\ TreeFS.is_dir (fs w1) (web ++ p) = true).
  { pose proof R as R0. rewrite ready_spec in R0. destruct R0 as [_ C].
    destruct (C p (or_intror Hp)) as (C1 & C2 & _).
    unfold check_and_make_dirs, bind, os_path_exists, os_makedirs, ret.
    cbn [fs_exists fs_makedirs tree_fs fs trace].
    unfold TreeFS.exists_. cbv zeta. rewrite Ed, C1, orb_false_r.
    destruct (TreeFS.is_dir (fs w) (web ++ p)) eqn:D; cbn [negb fs trace].
    - eexists. split; [reflexivity|]. simpl. auto.
    - destruct (TreeFS.makedirs (fs w) dir) as [r s1] eqn:Mk.
      assert (r = Ok tt) as ->.
      { revert Mk. unfold TreeFS.makedirs. cbv zeta. rewrite Ed, D, C1.
        cbn [orb]. apply existsb_false in C2. rewrite C2. now intros [= <- _]. }
      eexists. split; [reflexivity|]. cbn [fs].
      split; [exact (@ready_makedirs (fs w) s1 dir p R Hp Ed Mk)|].
      destruct (makedirs_done _ _ Mk) as [_ Dd]. apply Dd. right.
      rewrite Ed. now apply (@prefixes_self [] (web ++ p)). }
  destruct checked as (w1 & E1 & R1 & D1).
  unfold bind at 1. rewrite E1.
  unfold write_html_index_file, bind, lift, open_writelines.
  rewrite html_template_total. cbn [fs_write tree_fs].
  destruct (@ready_write (fs w1) (path_join dir INDEX_FILE)
              (page_template content links opts) p R1 (or_intror Hp) Ei D1)
    as (s2 & W & R2).
  rewrite W. eexists. split; [reflexivity | exact R2].
Qed.

End TreeCompletes.

(** ** A run of [main] that completes *)

Lemma site_plan_in (A : artifact_map) (p : list string) :
  In p (site_plan A)
  <-> exists k sub, In (k, sub) A
                    /\ (p = [k] \/ exists j L, In (j, L) sub /\ p = [k; j]).
Proof.
  unfold site_plan. rewrite in_flat_map. split.
  - intros ([k sub] & Hin & Hp). exists k, sub. split; [exact Hin|].
    simpl in Hp. destruct Hp as [<- | Hp]; [now left|].
    apply in_map_iff in Hp. destruct Hp as ([j L] & <- & Hj).
    right. now exists j, L.
  - intros (k & sub & Hin & Hp). exists (k, sub). split; [exact Hin|].
    simpl. destruct Hp as [-> | (j & L & Hj & ->)]; [now left|].
    right. apply in_map_iff. now exists (j, L).
Qed.

Lemma clean_not_index (s : string) : clean s -> s <> INDEX_FILE.
Proof.
  intros [_ H] ->. apply (H INDEX_FILE); [now left|]. now exists "", "".
Qed.

Section MainCompletes.

Variables (script_dir : string) (ls synced : CompletedProcess) (opts : Namespace).
Variable A : artifact_map.
Variable w : @World tree_fs.
Hypothesis listed :
  fst (@get_bucket_directories tree_fs (verbose opts) ls w) = Ok A.
Hypothesis ordinary : proper_keys A.

Local Abbreviation web := (path_join script_dir OUTPUT_LOCATION).
Local Abbreviation webn := (TreeFS.resolve (path_join script_dir OUTPUT_LOCATION)).
Local Abbreviation tidy :=
  (fun w0 : @World tree_fs => ready (fs w0) webn (site_plan A) = true).

Lemma site_plan_free (p : list string) : In p (site_plan A) -> ~ In INDEX_FILE p.
Proof.
  intros Hp. apply site_plan_in in Hp. destruct Hp as (k & sub & Hin & Hp).
  destruct (lister_names_clean _ _ _ listed k sub Hin) as [ck csub].
  apply clean_not_index in ck.
  destruct Hp as [-> | (j & L & Hj & ->)].
  - intros [E | []]. congruence.
  - destruct (csub j L Hj) as [cj _]. apply clean_not_index in cj.
    intros [E | [E | []]]; congruence.
Qed.

Lemma site_page_completes (p : list string) (content : page_content)
      (links : list string) :
  In p (site_plan A) -> p <> [] ->
  completes tidy
            (@check_and_make_dirs tree_fs (web +++ below p);;;
             write_html_index_file (web +++ below p) content links
                                   (default_base opts)).
Proof.
  intros Hp ne.
  pose proof (web_dir_open script_dir) as Hw.
  destruct (lister_returns _ _ _ listed) as (_ & _ & _ & inv).
  pose proof (named_of_lister inv (proper_no_empty_key ordinary)) as named.
  pose proof (site_plan_names named) as names. rewrite Forall_forall in names.
  pose proof (site_plan_proper ordinary) as propers.
  rewrite Forall_forall in propers.
  apply (@page_completes webn (site_plan A) site_plan_free _ p); auto.
  - apply resolve_below; [apply names_slash_free|]; auto.
  - rewrite resolve_index, app_assoc; auto.
Qed.

Lemma front_completes (content : page_content) (links : list string) :
  completes tidy
            (@write_html_index_file tree_fs web content links (default_base opts)).
Proof.
  intros w0 R.
  pose proof (web_dir_open script_dir) as Hw.
  assert (Ei : TreeFS.resolve (path_join web INDEX_FILE)
               = (webn ++ []) ++ [INDEX_FILE]).
  { pose proof (@resolve_index web [] Hw (Forall_nil _) (Forall_nil _)) as E.
    simpl in E. rewrite append_empty_r in E. now rewrite app_nil_r. }
  assert (Dw : TreeFS.is_dir (fs w0) (webn ++ []) = true).
  { rewrite app_nil_r. apply (ready_spec webn (site_plan A)) in R. tauto. }
  unfold write_html_index_file, bind, lift, open_writelines.
  rewrite html_template_total. cbn [fs_write tree_fs].
  destruct (@ready_write webn (site_plan A) site_plan_free (fs w0)
              (path_join web INDEX_FILE) (page_template content links
                                            (default_base opts))
              [] R (or_introl eq_refl) Ei Dw) as (s2 & W & R2).
  rewrite W. eexists. split; [reflexivity | exact R2].
Qed.

Lemma site_completes :
  completes tidy
            (for_each (Dict.keys A)
               (fun dirkey => @make_html tree_fs web dirkey (get_or dirkey A [])
                                         (default_base opts))).
Proof.
  pose proof (web_dir_open script_dir) as Hw.
  destruct (lister_returns _ _ _ listed) as (_ & _ & _ & inv).
  pose proof (named_of_lister inv (proper_no_empty_key ordinary)) as named.
  unfold named_entries in named. rewrite Forall_forall in named.
  destruct inv as [nd _].
  apply completes_for_each. intros k Hk.
  apply in_map_iff in Hk. destruct Hk as ([k' sub] & <- & Hin). simpl.
  unfold get_or. rewrite (@in_get _ k' sub A nd Hin).
  destruct (named _ Hin) as [nk nsub]. simpl in nk, nsub.
  rewrite Forall_forall in nsub.
  apply completes_make_html.
  - intros content links. rewrite (key_dir Hw nk).
    apply site_page_completes; [|discriminate].
    apply site_plan_in. exists k', sub. auto.
  - intros j L content links Hj.
    pose proof (nsub _ Hj) as nj. simpl in nj.
    rewrite (leaf_dir Hw nk nj).
    apply site_page_completes; [|discriminate].
    apply site_plan_in. exists k', sub. split; [exact Hin|].
    right. now exists j, L.
Qed.

Lemma sync_completes :
  (sync opts = true -> 0 < verbose opts ->
   Forall (fun line => exists text, decode_utf8 line = Ok text)
          (Py.split newline (stdout synced))) ->
  completes tidy
    (if sync (default_base opts) then
       cmp_proc <- @subprocess_run tree_fs
                     ("aws s3 sync " +++ web +++ "/ s3://" +++ SAL_TOPIC_BUCKET
                      +++ " --acl public-read") synced;;
       (if 0 <? verbose opts
        then for_each (Py.split newline (stdout cmp_proc)) print_decoded
        else ret tt)
     else ret tt).
Proof.
  intros decodable. rewrite sync_default_base.
  destruct (sync opts); [|apply completes_ret].
  intros w0 R. unfold subprocess_run, bind, emit, ret. cbn [fst snd].
  destruct (0 <? verbose opts) eqn:V.
  - apply Nat.ltb_lt in V.
    destruct (decodable_texts (decodable eq_refl V)) as [texts T].
    rewrite (echo_decoded _ T). eexists. split; [reflexivity | exact R].
  - eexists. split; [reflexivity | exact R].
Qed.

End MainCompletes.

(** X16.  On the tree of directories, [main] completes whenever the
    tree is ready for the map of the listing and the keys are ordinary
    names: the output root is a directory, no regular file sits where a
    page directory has to be or above one, and no directory sits where
    an index file has to be.  (With the sync on and a verbosity above
    zero, the output of the sync command has to be well-formed UTF-8.)
    The tree is ready again afterwards, so the run can be repeated. *)
Theorem X16_main_completes
        (script_dir : string) (ls synced : CompletedProcess) (opts : Namespace)
        (A : artifact_map) (w : @World tree_fs) :
  fst (@get_bucket_directories tree_fs (verbose opts) ls w) = Ok A ->
  proper_keys A ->
  ready (fs w) (TreeFS.resolve (path_join script_dir OUTPUT_LOCATION))
        (site_plan A) = true ->
  (sync opts = true -> 0 < verbose opts ->
   Forall (fun line => exists text, decode_utf8 line = Ok text)
          (Py.split newline (stdout synced))) ->
  exists w',
    @main tree_fs script_dir ls synced opts w = (Ok tt, w')
    /\ ready (fs w') (TreeFS.resolve (path_join script_dir OUTPUT_LOCATION))
             (site_plan A) = true.
Proof.
  intros listed ordinary R decodable.
  unfold main. cbv zeta. rewrite verbose_default_base.
  unfold bind at 1.
  destruct (@get_bucket_directories_result tree_fs (verbose opts) ls w) as [_ F0].
  destruct (@get_bucket_directories tree_fs (verbose opts) ls w) as [[A'|e] w1] eqn:EL;
    simpl in listed, F0; [|discriminate].
  injection listed as ->.
  assert (listed : fst (@get_bucket_directories tree_fs (verbose opts) ls w) = Ok A)
    by now rewrite EL.
  rewrite <- F0 in R.
  match goal with
  | |- exists w', ?m w1 = _ /\ _ =>
      assert (H : completes
                    (fun w0 : @World tree_fs =>
                       ready (fs w0)
                             (TreeFS.resolve (path_join script_dir OUTPUT_LOCATION))
                             (site_plan A) = true) m)
  end.
  { apply completes_seq; [apply (@front_completes script_dir ls opts A w listed)|].
    apply completes_seq;
      [apply (@site_completes script_dir ls opts A w listed ordinary)|].
    now apply (@sync_completes script_dir synced opts A). }
  exact (H w1 R).
Qed.

Lemma X16_witness :
  exists w',
    sample_run two_topics = (Ok tt, w')
    /\ ready (fs w') ["repo"; "website"] (site_plan two_topics_map) = true.
Proof.
  refine (@X16_main_completes "/repo" (completed 0%Z two_topics) (completed 0%Z "")
            plain_opts two_topics_map sample_world _ two_topics_proper_keys _ _).
  - vm_compute. reflexivity.
  - vm_compute. reflexivity.
  - discriminate.
Defined.

(** ** The regular files a run leaves *)

Lemma ends_with_sep_split (d : string) :
  ends_with_sep d = true -> exists d0, d = d0 +++ "/".
Proof.
  induction d as [|c d IH]; [discriminate|].
  rewrite ends_with_sep_cons. destruct d as [|c' d].
  - intros E. apply Ascii.eqb_eq in E. subst c. now exists "".
  - intros E. destruct (IH E) as [d0 ->]. now exists (String c d0).
Qed.

(** Wherever a directory path leads, its index file is the entry
    [index.html] of that place. *)
Lemma resolve_index_any (dir : string) :
  TreeFS.resolve (path_join dir INDEX_FILE) = TreeFS.resolve dir ++ [INDEX_FILE].
Proof.
  assert (step : forall d0,
             TreeFS.resolve (d0 +++ String os_sep INDEX_FILE)
             = TreeFS.resolve d0 ++ [INDEX_FILE]).
  { intros d0. unfold TreeFS.resolve. rewrite split_app_sep, fold_left_app.
    reflexivity. }
  unfold path_join. change (String.prefix "/" INDEX_FILE) with false. cbv iota.
  destruct (String.eqb_spec dir "") as [-> | ne]; [reflexivity|].
  cbn [orb]. destruct (ends_with_sep dir) eqn:E.
  - destruct (ends_with_sep_split _ E) as [d0 ->].
    rewrite append_assoc. change ("/" +++ INDEX_FILE) with (String os_sep INDEX_FILE).
    rewrite step. f_equal.
    unfold TreeFS.resolve. change "/" with (String os_sep "").
    rewrite split_app_sep, fold_left_app. reflexivity.
  - apply step.
Qed.

(** A file no page is written to stays as it was. *)
Lemma find_files_after_other (P : list page) (n : TreeFS.node_path)
      (fl : list (TreeFS.node_path * string)) :
  Forall (fun pg => TreeFS.resolve (path_join (fst pg) INDEX_FILE) <> n) P ->
  find (fun f => TreeFS.node_eqb n (fst f)) (files_after P fl)
  = find (fun f => TreeFS.node_eqb n (fst f)) fl.
Proof.
  intros H. revert fl. induction H as [|[dir t] P ne _ IH]; intros fl; simpl;
    [reflexivity|].
  rewrite IH. apply find_put_other. simpl in ne. congruence.
Qed.

(** A file some page is written to does not depend on what was there. *)
Lemma find_files_after_written (P : list page) (n : TreeFS.node_path)
      (fl fl' : list (TreeFS.node_path * string)) :
  Exists (fun pg => TreeFS.resolve (path_join (fst pg) INDEX_FILE) = n) P ->
  find (fun f => TreeFS.node_eqb n (fst f)) (files_after P fl)
  = find (fun f => TreeFS.node_eqb n (fst f)) (files_after P fl').
Proof.
  revert fl fl'. induction P as [|[dir t] P IH]; intros fl fl' H.
  - inversion H.
  - simpl.
    destruct (Exists_dec
                (fun pg => TreeFS.resolve (path_join (fst pg) INDEX_FILE) = n) P)
      as [later | none].
    { intros pg. apply (list_eq_dec string_dec). }
    + now apply IH.
    + assert (N : Forall (fun pg => TreeFS.resolve (path_join (fst pg) INDEX_FILE)
                                    <> n) P)
        by now apply Forall_Exists_neg.
      apply Exists_cons in H. destruct H as [here | there]; [|contradiction].
      simpl in here. rewrite !(find_files_after_other _ N), here.
      now rewrite !find_put_same.
Qed.

Lemma find_files_after_twice (P : list page) (n : TreeFS.node_path)
      (fl : list (TreeFS.node_path * string)) :
  find (fun f => TreeFS.node_eqb n (fst f)) (files_after P (files_after P fl))
  = find (fun f => TreeFS.node_eqb n (fst f)) (files_after P fl).
Proof.
  destruct (Exists_dec
              (fun pg => TreeFS.resolve (path_join (fst pg) INDEX_FILE) = n) P)
    as [some | none].
  { intros pg. apply (list_eq_dec string_dec). }
  - now apply find_files_after_written.
  - assert (N : Forall (fun pg => TreeFS.resolve (path_join (fst pg) INDEX_FILE)
                                  <> n) P)
      by now apply Forall_Exists_neg.
    now rewrite !(find_files_after_other _ N).
Qed.

Section FilesOfRuns.

Variables (script_dir : string) (ls synced : CompletedProcess) (opts : Namespace).

(** The regular files after a complete run, from those before. *)
Lemma main_files_after (w w' : @World tree_fs) :
  @main tree_fs script_dir ls synced opts w = (Ok tt, w') ->
  exists A,
    fst (@get_bucket_directories tree_fs (verbose opts) ls w) = Ok A
    /\ TreeFS.files (fs w')
       = files_after
           ((path_join script_dir OUTPUT_LOCATION,
             front_template (default_base opts) A)
            :: site_pages (path_join script_dir OUTPUT_LOCATION)
                          (default_base opts) A)
           (TreeFS.files (fs w)).
Proof.
  intros run. destruct (main_run _ _ _ _ _ run) as (A & _ & _ & _ & listed & _).
  exists A. split; [exact listed|].
  exact (@main_files script_dir ls synced opts w w' A run listed).
Qed.

(** X17.  Running [main] a second time on the tree the first run left,
    with the same listing and options, changes no regular file: every
    path reads the same after the second run as after the first. *)
Theorem X17_second_run_changes_no_file
        (w w1 w2 : @World tree_fs) (tr : list event) :
  @main tree_fs script_dir ls synced opts w = (Ok tt, w1) ->
  @main tree_fs script_dir ls synced opts {| fs := fs w1; trace := tr |}
  = (Ok tt, w2) ->
  forall path, TreeFS.read (fs w2) path = TreeFS.read (fs w1) path.
Proof.
  intros run1 run2 path.
  destruct (@main_files_after w w1 run1) as (A1 & L1 & F1).
  destruct (@main_files_after _ w2 run2) as (A2 & L2 & F2).
  assert (A2 = A1) as ->.
  { destruct (@get_bucket_directories_result tree_fs (verbose opts) ls w)
      as [E1 _].
    destruct (@get_bucket_directories_result tree_fs (verbose opts) ls
                {| fs := fs w1; trace := tr |}) as [E2 _].
    congruence. }
  unfold TreeFS.read. cbn [fs] in F2. rewrite F2, F1.
  now rewrite find_files_after_twice.
Qed.

(** X18.  A complete run of [main] leaves alone every regular file that
    is not named [index.html]: a path whose last component is another
    name reads the same after the run as before. *)
Theorem X18_other_files_are_left_alone
        (w w' : @World tree_fs) (path : string) :
  @main tree_fs script_dir ls synced opts w = (Ok tt, w') ->
  last (TreeFS.resolve path) "" <> INDEX_FILE ->
  TreeFS.read (fs w') path = TreeFS.read (fs w) path.
Proof.
  intros run other.
  destruct (@main_files_after w w' run) as (A & _ & F).
  unfold TreeFS.read. rewrite F, find_files_after_other; [reflexivity|].
  apply Forall_forall. intros pg _ E. apply other.
  now rewrite <- E, resolve_index_any, last_last.
Qed.

End FilesOfRuns.

Lemma X17_witness :
  TreeFS.read (fs (snd (@main tree_fs "/repo" (completed 0%Z two_topics)
                          (completed 0%Z "") plain_opts
                          {| fs := fs (snd (sample_run two_topics));
                             trace := [] |})))
              "/repo/website/topicsA/index.html"
  = TreeFS.read (fs (snd (sample_run two_topics)))
                "/repo/website/topicsA/index.html".
Proof.
  apply (@X17_second_run_changes_no_file "/repo" (completed 0%Z two_topics)
           (completed 0%Z "") plain_opts sample_world
           (snd (sample_run two_topics)) _ []).
  - vm_compute. reflexivity.
  - vm_compute. reflexivity.
Defined.

Lemma X18_witness :
  TreeFS.read
    (fs (snd (@main tree_fs "/repo" (completed 0%Z two_topics) (completed 0%Z "")
                plain_opts styled_world)))
    "/repo/website/css/default.css"
  = Some "body { }".
Proof.
  rewrite (@X18_other_files_are_left_alone "/repo" (completed 0%Z two_topics)
             (completed 0%Z "") plain_opts styled_world
             (snd (@main tree_fs "/repo" (completed 0%Z two_topics)
                     (completed 0%Z "") plain_opts styled_world))
             "/repo/website/css/default.css").
  - reflexivity.
  - vm_compute. reflexivity.
  - vm_compute. discriminate.
Defined.

(** ** Faults before the sync *)

Section EarlyFaults.

Context {FSI : FileSystem}.

(** X19.  On any file system: when the lister has returned and the
    write of the front page raises, [main] stops with that fault, and
    that write is all it has asked of the file system: no directory has
    been tested or created, no other page written, no sync run. *)
Theorem X19_front_page_fault_stops_the_run
        (script_dir : string) (ls synced : CompletedProcess) (opts : Namespace)
        (w : World) (A : artifact_map) (e : exn) :
  let front := path_join (path_join script_dir OUTPUT_LOCATION) INDEX_FILE in
  let template := front_template (default_base opts) A in
  fst (get_bucket_directories (verbose opts) ls w) = Ok A ->
  fst (fs_write (fs w) front template) = Raise e ->
  exists tl,
    Forall quiet tl
    /\ main script_dir ls synced opts w
       = (Raise e,
          {| fs := snd (fs_write (fs w) front template);
             trace := trace w ++ tl ++ [EvWrite front template] |}).
Proof. apply main_front_page_fault. Qed.

(** X20.  A site that could not be built is not synced: when the run
    with the sync off stops with a fault, the run with the sync on stops
    in the same way, in the same state, and the sync command is not
    run. *)
Theorem X20_no_sync_after_a_fault
        (script_dir : string) (ls synced : CompletedProcess) (opts : Namespace)
        (w w0 : World) (e : exn) :
  main script_dir ls synced (without_sync opts) w = (Raise e, w0) ->
  main script_dir ls synced opts w = (Raise e, w0).
Proof.
  intros done.
  assert (B : base (default_base (without_sync opts)) = base (default_base opts)).
  { unfold default_base, without_sync. simpl.
    destruct (base opts) eqn:E; simpl; congruence. }
  unfold main in *. cbv zeta in *.
  rewrite sync_default_base in done. simpl sync in done.
  rewrite !verbose_default_base in *. simpl verbose in done.
  unfold bind at 1. unfold bind at 1 in done.
  destruct (get_bucket_directories (verbose opts) ls w) as [[A|e'] w1];
    [|exact done].
  unfold bind at 1. unfold bind at 1 in done.
  match type of done with
  | context [write_html_index_file ?p ?c ?l ?o w1] =>
      rewrite (@write_index_base _ p c l o (default_base opts) w1 B) in done;
      destruct (write_html_index_file p c l (default_base opts) w1)
        as [[[]|e'] w2]
  end; [|exact done].
  unfold bind at 1. unfold bind at 1 in done.
  rewrite (@for_each_ext _ _ _ _
             (fun dirkey => make_html (path_join script_dir OUTPUT_LOCATION)
                                      dirkey (get_or dirkey A [])
                                      (default_base opts))) in done
    by (intros x w3; now apply make_html_base).
  destruct (for_each _ _ w2) as [[[]|e'] w3]; [discriminate done | exact done].
Qed.

End EarlyFaults.

Lemma X19_witness :
  exists tl,
    Forall quiet tl
    /\ @main tree_fs "/fresh" (completed 0%Z two_topics) (completed 0%Z "")
             plain_opts fresh_world
       = (Raise FileNotFoundError,
          {| fs := fs fresh_world;
             trace := trace fresh_world ++ tl
                      ++ [EvWrite "/fresh/website/index.html"
                                  (front_template (default_base plain_opts)
                                                  two_topics_map)] |}).
Proof.
  refine (@X19_front_page_fault_stops_the_run tree_fs "/fresh"
            (completed 0%Z two_topics) (completed 0%Z "") plain_opts fresh_world
            two_topics_map FileNotFoundError _ _).
  - vm_compute. reflexivity.
  - vm_compute. reflexivity.
Defined.

Lemma X20_witness :
  @main tree_fs "/fresh" (completed 0%Z two_topics) (completed 0%Z "")
        sync_opts fresh_world
  = (Raise FileNotFoundError,
     snd (@main tree_fs "/fresh" (completed 0%Z two_topics) (completed 0%Z "")
                (without_sync sync_opts) fresh_world)).
Proof.
  apply (@X20_no_sync_after_a_fault tree_fs "/fresh" (completed 0%Z two_topics)
           (completed 0%Z "") sync_opts fresh_world).
  vm_compute. reflexivity.
Defined.

(** ** The verbosity and the files *)

Section Alike.

Context {FSI : FileSystem}.

Lemma alike_ret {A} (a : A) : alike (ret a) (ret a).
Proof. intros w w' E. now split. Qed.

Lemma alike_lift {A} (r : result A) : alike (lift r) (lift r).
Proof. intros w w' E. now split. Qed.

Lemma alike_bind {A B} (m m' : M A) (k k' : A -> M B) :
  alike m m' -> (forall a, alike (k a) (k' a)) -> alike (bind m k) (bind m' k').
Proof.
  intros Hm Hk w w' E. unfold bind. destruct (Hm w w' E) as [R F].
  destruct (m w) as [[a|e] w1], (m' w') as [[a'|e'] w1']; simpl in *;
    try discriminate.
  - injection R as <-. now apply Hk.
  - injection R as <-. now split.
Qed.

Lemma alike_prints (b b' : bool) (e e' : event) :
  alike (when b (emit e)) (when b' (emit e')).
Proof. intros w w' E. destruct b, b'; now split. Qed.

Lemma alike_for_each {A} (xs : list A) (body body' : A -> M unit) :
  (forall x, alike (body x) (body' x)) ->
  alike (for_each xs body) (for_each xs body').
Proof.
  intros Hb. induction xs as [|x xs IH]; simpl.
  - apply alike_ret.
  - apply alike_bind; [apply Hb | intros _; exact IH].
Qed.

Lemma alike_for_fold {A S} (xs : list A) (body body' : S -> A -> M S) (acc : S) :
  (forall acc x, alike (body acc x) (body' acc x)) ->
  alike (for_fold xs body acc) (for_fold xs body' acc).
Proof.
  intros Hb. revert acc; induction xs as [|x xs IH]; intros acc; simpl.
  - apply alike_ret.
  - apply alike_bind; [apply Hb | intros acc'; apply IH].
Qed.

Lemma alike_line_step (vb vb' : nat) (A : artifact_map) (line : string) :
  alike (line_step vb A line) (line_step vb' A line).
Proof.
  unfold line_step. apply alike_bind; [apply alike_lift|]. intros values.
  destruct (skipped values); [apply alike_ret|].
  apply alike_bind; [apply alike_prints | intros _].
  apply alike_bind; [apply alike_lift | intros A'].
  apply alike_bind; [apply alike_prints | intros _; apply alike_ret].
Qed.

Lemma alike_lister (vb vb' : nat) (ls : CompletedProcess) :
  alike (get_bucket_directories vb ls) (get_bucket_directories vb' ls).
Proof.
  unfold get_bucket_directories, subprocess_run. cbv zeta.
  apply alike_bind.
  { apply alike_bind; [intros w w' E; now split | intros _; apply alike_ret]. }
  intros cp. apply alike_bind; [apply alike_for_fold, alike_line_step|].
  intros A. apply alike_bind; [apply alike_prints | intros _; apply alike_ret].
Qed.

Lemma alike_check (path : string) :
  alike (check_and_make_dirs path) (check_and_make_dirs path).
Proof.
  intros w w' E.
  unfold check_and_make_dirs, bind, os_path_exists, os_makedirs, ret. simpl.
  rewrite E. destruct (fs_exists (fs w') path); simpl; [now split|].
  now destruct (fs_makedirs (fs w') path).
Qed.

Lemma alike_write_index (path : string) (content : page_content)
      (links : list string) (o o' : Namespace) :
  base o = base o' ->
  alike (write_html_index_file path content links o)
        (write_html_index_file path content links o').
Proof.
  intros B w w' E.
  unfold write_html_index_file, bind, lift, open_writelines.
  rewrite (@html_template_base content links o o' B), html_template_total, E.
  now destruct (fs_write (fs w') _ _).
Qed.

Lemma alike_make_html (web k : string) (sub : sub_map) (o o' : Namespace) :
  base o = base o' ->
  alike (make_html web k sub o) (make_html web k sub o').
Proof.
  intros B. unfold make_html. cbv zeta.
  apply alike_bind; [apply alike_check | intros _].
  apply alike_bind; [now apply alike_write_index | intros _].
  apply alike_for_each. intros [kitem vitem].
  apply alike_bind; [apply alike_check | intros _].
  now apply alike_write_index.
Qed.

(** X21.  With the sync off, the verbosity changes what is printed and
    nothing else: for any two verbosities [main] returns or raises the
    same, and leaves the same files. *)
Theorem X21_verbosity_changes_no_file
        (script_dir : string) (ls synced : CompletedProcess) (opts : Namespace)
        (v : nat) (w : World) :
  sync opts = false ->
  fst (main script_dir ls synced (with_verbose v opts) w)
  = fst (main script_dir ls synced opts w)
  /\ fs (snd (main script_dir ls synced (with_verbose v opts) w))
     = fs (snd (main script_dir ls synced opts w)).
Proof.
  intros off.
  assert (B : base (default_base (with_verbose v opts)) = base (default_base opts)).
  { unfold default_base, with_verbose. simpl.
    destruct (base opts) eqn:E; simpl; congruence. }
  assert (H : alike (main script_dir ls synced (with_verbose v opts))
                    (main script_dir ls synced opts)).
  { unfold main. cbv zeta. rewrite !sync_default_base. simpl sync. rewrite off.
    apply alike_bind; [apply alike_lister | intros A].
    apply alike_bind; [now apply alike_write_index | intros _].
    apply alike_bind; [|intros _; apply alike_ret].
    apply alike_for_each. intros k. now apply alike_make_html. }
  now apply H.
Qed.

End Alike.

Lemma X21_witness :
  fst (@main tree_fs "/repo" (completed 0%Z two_topics) (completed 0%Z "")
             (with_verbose 4 plain_opts) sample_world)
  = fst (sample_run two_topics)
  /\ fs (snd (@main tree_fs "/repo" (completed 0%Z two_topics) (completed 0%Z "")
                    (with_verbose 4 plain_opts) sample_world))
     = fs (snd (sample_run two_topics)).
Proof.
  apply (@X21_verbosity_changes_no_file tree_fs "/repo" (completed 0%Z two_topics)
           (completed 0%Z "") plain_opts 4 sample_world).
  reflexivity.
Defined.
